(** * Email-triage workflow: a shallow embedding of [graph.py], [kb.py] and
      [audit.py], and the properties of the workflow checked against it.

    Conventions of the embedding.
    - A Python [dict] with string keys used as the run state is a
      [gmap string value]; a dict that is itself a value (the email, a JSON
      reply) is a [VDict]; a [sqlite3.Row] is a [VRow].
    - Python numbers: [int] is [Z]; [float] is an exact rational [Qc], so the
      rounding of binary floating point is not represented.
    - Strings are [string]; [lower], [split] and [strip] act on ASCII.
    - The business store (sqlite3), the text-completion oracle, the clock,
      [datetime.strptime], [float] and [str] on values and [uuid4] are
      components of a [world] the nodes run in.
    - A node runs in a monad that threads the frame of local variables and the
      audit table; both survive a raised exception, as in Python. *)

From Stdlib Require Import ZArith QArith Qcanon Qround String Ascii List Lia.
From Stdlib Require Import Sorting.Sorted Sorting.Permutation.
From stdpp Require Import base gmap strings list sorting.
Import ListNotations.
Local Open Scope string_scope.
Local Open Scope Z_scope.
Set Warnings "-register-all".

(** ** Python values *)

Inductive value : Type :=
| VNone
| VBool (b : bool)
| VInt (z : Z)
| VFloat (q : Qc)
| VStr (s : string)
| VDate (ordinal : Z)
| VList (l : list value)
| VDict (d : list (string * value))
| VRow (d : list (string * value)).

(** A decimal literal [n/d], e.g. [0.78] is [dec 78 100]. *)
Definition dec (n : Z) (d : positive) : Qc := Q2Qc (n # d).

Definition qle (x y : Qc) : bool := Qle_bool x y.
Definition qlt (x y : Qc) : bool := negb (Qle_bool y x).
Definition qmin (x y : Qc) : Qc := if qle x y then x else y.

(** [bool(v)]: Python truthiness. *)
Definition truthy (v : value) : bool :=
  match v with
  | VNone => false
  | VBool b => b
  | VInt z => negb (z =? 0)
  | VFloat q => negb (Qc_eq_bool q 0%Qc)
  | VStr s => negb (String.eqb s "")
  | VDate _ => true
  | VList l => match l with [] => false | _ => true end
  | VDict d => match d with [] => false | _ => true end
  | VRow d => match d with [] => false | _ => true end
  end.

(** [v == "s"] for a string literal [s]. *)
Definition eq_str (v : value) (s : string) : bool :=
  match v with VStr x => String.eqb x s | _ => false end.

(** [v in (s1, s2, ...)] for string literals. *)
Definition in_strs (v : value) (l : list string) : bool :=
  existsb (eq_str v) l.

(** The number a value stands for in arithmetic ([bool] is an [int]). *)
Definition as_num (v : value) : option Qc :=
  match v with
  | VBool b => Some (Qc_of_Z (if b then 1 else 0))
  | VInt z => Some (Qc_of_Z z)
  | VFloat q => Some q
  | _ => None
  end.

Definition as_int (v : value) : option Z :=
  match v with
  | VBool b => Some (if b then 1 else 0)
  | VInt z => Some z
  | _ => None
  end.

(** ** Strings *)

Definition lower_ascii (c : ascii) : ascii :=
  let n := N_of_ascii c in
  if ((65 <=? n) && (n <=? 90))%N then ascii_of_N (n + 32) else c.

(** [s.lower()] *)
Fixpoint lower (s : string) : string :=
  match s with
  | EmptyString => EmptyString
  | String c r => String (lower_ascii c) (lower r)
  end.

(** [needle in hay] on strings: substring test. *)
Fixpoint contains (needle hay : string) : bool :=
  String.prefix needle hay
  || match hay with
     | EmptyString => false
     | String _ r => contains needle r
     end.

(** [any(k in text for k in ks)] *)
Definition any_in (ks : list string) (text : string) : bool :=
  existsb (fun k => contains k text) ks.

(** ASCII whitespace as [str.split] and [str.strip] see it. *)
Definition is_space (c : ascii) : bool :=
  let n := N_of_ascii c in
  (((9 <=? n) && (n <=? 13)) || ((28 <=? n) && (n <=? 32)))%N.

(** [split_aux cur s]: [cur] is the word being read, reversed. *)
Fixpoint split_aux (cur : list ascii) (s : string) : list string :=
  let flush := match cur with
               | [] => []
               | _ => [string_of_list_ascii (rev cur)]
               end in
  match s with
  | EmptyString => flush
  | String c r =>
      if is_space c then flush ++ split_aux [] r
      else split_aux (c :: cur) r
  end.

(** [s.split()]: the maximal runs of non-whitespace characters. *)
Definition split (s : string) : list string := split_aux [] s.

Fixpoint lstrip (s : string) : string :=
  match s with
  | String c r => if is_space c then lstrip r else s
  | EmptyString => EmptyString
  end.

(** [bool(s.strip())]: some character of [s] is not whitespace. *)
Definition nonblank (s : string) : bool :=
  negb (String.eqb (lstrip s) "").

Definition string_rev (s : string) : string :=
  string_of_list_ascii (rev (list_ascii_of_string s)).

(** [s.strip()] *)
Definition strip (s : string) : string :=
  string_rev (lstrip (string_rev (lstrip s))).

(** ** The run state and its merge *)

(** [_merged(state, updates)]: [dict(state)] followed by [update(updates)]. *)
Definition _merged (state updates : gmap string value) : gmap string value :=
  updates ∪ state.

(** A dict display [{k1: v1, ...}] used as a state update. *)
Definition mkdict (kvs : list (string * value)) : gmap string value :=
  list_to_map (rev kvs).

(** ** Exceptions, frames and the audit table *)

Inductive exn : Type :=
| KeyError (k : string)
| IndexError (k : string)
| TypeError
| ValueError
| AttributeError
| UnboundLocalError (x : string)
| StoreError.

Inductive res (A : Type) : Type :=
| Ok (a : A)
| Raise (e : exn).
Arguments Ok {A} a.
Arguments Raise {A} e.

(** One row of [agent_runs]; [created_at] (wall-clock text) is left out. *)
Record event : Type := mkEvent {
  ev_run_id : value;
  ev_step : string;
  ev_input : value;
  ev_output : value;
  ev_confidence : Qc;
  ev_evidence : list string
}.

(** What a running node can change: its local variables and the audit
    table.  Rows of the table are kept in insertion (rowid) order. *)
Record pstate : Type := mkPstate {
  locals : list (string * value);
  audit : list event
}.

Definition M (A : Type) : Type := pstate -> res A * pstate.

Definition ret {A} (a : A) : M A := fun st => (Ok a, st).

Definition raise {A} (e : exn) : M A := fun st => (Raise e, st).

Definition bind {A B} (c : M A) (k : A -> M B) : M B :=
  fun st =>
    match c st with
    | (Ok a, st') => k a st'
    | (Raise e, st') => (Raise e, st')
    end.

(** [try: body except Exception: handler] *)
Definition try_except {A} (body : M A) (handler : exn -> M A) : M A :=
  fun st =>
    match body st with
    | (Ok a, st') => (Ok a, st')
    | (Raise e, st') => handler e st'
    end.

(** A computation that only yields a result or raises, and leaves the frame
    and the audit table alone. *)
Definition lift {A} (r : res A) : M A := fun st => (r, st).
Coercion lift : res >-> M.

Declare Scope py_scope.
Delimit Scope py_scope with py.
Notation "x <- c ;; k" := (bind c (fun x => k))
  (at level 100, c at next level, right associativity) : py_scope.
Notation "c ;;; k" := (bind c (fun _ => k))
  (at level 100, right associativity) : py_scope.
Local Open Scope py_scope.

Fixpoint alookup (k : string) (d : list (string * value)) : option value :=
  match d with
  | [] => None
  | (k', v) :: r => if String.eqb k k' then Some v else alookup k r
  end.

(** [x = v] for a local variable [x]. *)
Definition assign (x : string) (v : value) : M unit :=
  fun st => (Ok tt, mkPstate ((x, v) :: locals st) (audit st)).

(** Reading the local variable [x]. *)
Definition load (x : string) : M value :=
  fun st =>
    match alookup x (locals st) with
    | Some v => (Ok v, st)
    | None => (Raise (UnboundLocalError x), st)
    end.

Notation "x ::= c ;;; k" := (bind c (fun v => bind (assign x v) (fun _ => k)))
  (at level 100, c at next level, right associativity) : py_scope.

(** [log_step(run_id, step_name, inp, out, confidence, evidence)]: one
    INSERT into [agent_runs]. *)
Definition log_step (run_id : value) (step_name : string) (inp out : value)
    (confidence : Qc) (evidence : list string) : M unit :=
  fun st =>
    (Ok tt,
     mkPstate (locals st)
       (audit st ++ [mkEvent run_id step_name inp out confidence evidence])).

(** [state[k]] *)
Definition state_item (state : gmap string value) (k : string) : res value :=
  match state !! k with
  | Some v => Ok v
  | None => Raise (KeyError k)
  end.

(** [state.get(k, default)] *)
Definition state_get (state : gmap string value) (k : string) (default : value)
    : value :=
  match state !! k with
  | Some v => v
  | None => default
  end.

(** [v[k]] for a string key: a dict, a row, or something that has no items. *)
Definition subscript (v : value) (k : string) : res value :=
  match v with
  | VDict d =>
      match alookup k d with Some x => Ok x | None => Raise (KeyError k) end
  | VRow d =>
      match alookup k d with Some x => Ok x | None => Raise (IndexError k) end
  | _ => Raise TypeError
  end.

(** [a + b] where the program concatenates strings. *)
Definition str_add (a b : value) : res value :=
  match a, b with
  | VStr x, VStr y => Ok (VStr (x ++ y))
  | _, _ => Raise TypeError
  end.

(** ** The world a node runs in *)

Record world : Type := mkWorld {
  (** [conn.execute(sql, params).fetchall()]: the rows (each a [VRow]) the
      store returns for a statement and its bound parameters, or the
      exception it raises. *)
  sql_rows : string -> list value -> res (list value);
  (** [get_chat_model()]: [None] without an API key.  Otherwise the oracle
      maps a node's prompt (named by the node, built from the email) to the
      reply after fence removal and [json.loads]; [None] when [json.loads]
      raises. *)
  chat_model : option (string -> value -> option value);
  (** [date.today()], as a day number. *)
  date_today : Z;
  (** [datetime.strptime(s, "%Y-%m-%dT%H:%M:%S.%f")]: the day number and the
      time of day in microseconds, [None] for [ValueError]. *)
  strptime : string -> option (Z * Z);
  (** [float(s)] on a string, [None] for [ValueError]. *)
  float_of_str : string -> option Qc;
  (** [str(v)] on a value that is not a string. *)
  str_of : value -> string;
  (** [uuid.uuid4().hex] *)
  uuid4_hex : string;
  (** [generate_answer(query, query_kb(query, top_k=5))]: the vector-store
      lookup followed by the oracle's answer, or the exception they raise. *)
  kb_answer : string -> res string
}.

(** [_sql_fetchall(sql, *params)] *)
Definition _sql_fetchall (w : world) (sql : string) (params : list value)
    : res value :=
  match sql_rows w sql params with
  | Ok rows => Ok (VList rows)
  | Raise e => Raise e
  end.

(** [_sql_fetchone(sql, *params)]: the first row, or [None]. *)
Definition _sql_fetchone (w : world) (sql : string) (params : list value)
    : res value :=
  match sql_rows w sql params with
  | Ok [] => Ok VNone
  | Ok (r :: _) => Ok r
  | Raise e => Raise e
  end.

(** [str(v)], and [{v}] inside an f-string. *)
Definition py_str (w : world) (v : value) : string :=
  match v with
  | VStr s => s
  | _ => str_of w v
  end.

(** [float(v)] *)
Definition py_float (w : world) (v : value) : res Qc :=
  match v with
  | VStr s =>
      match float_of_str w s with Some q => Ok q | None => Raise ValueError end
  | _ =>
      match as_num v with Some q => Ok q | None => Raise TypeError end
  end.

Fixpoint repeat_string (s : string) (n : nat) : string :=
  match n with
  | O => ""
  | S n' => s ++ repeat_string s n'
  end.

Definition repeat_list (l : list value) (n : nat) : list value :=
  concat (repeat l n).

(** [a * b] *)
Definition py_mul (a b : value) : res value :=
  match as_int a, as_int b with
  | Some x, Some y => Ok (VInt (x * y))
  | _, _ =>
      match as_num a, as_num b with
      | Some x, Some y => Ok (VFloat (x * y)%Qc)
      | _, _ =>
          match a, as_int b, as_int a, b with
          | VStr s, Some n, _, _ => Ok (VStr (repeat_string s (Z.to_nat n)))
          | _, _, Some n, VStr s => Ok (VStr (repeat_string s (Z.to_nat n)))
          | VList l, Some n, _, _ => Ok (VList (repeat_list l (Z.to_nat n)))
          | _, _, Some n, VList l => Ok (VList (repeat_list l (Z.to_nat n)))
          | _, _, _, _ => Raise TypeError
          end
      end
  end.

(** [a / n] for a non-zero int literal [n]. *)
Definition py_truediv (a : value) (n : Z) : res value :=
  match as_num a with
  | Some x => Ok (VFloat (x / Qc_of_Z n)%Qc)
  | None => Raise TypeError
  end.

(** [a >= n] where the right operand is an int. *)
Definition py_ge_int (a : value) (n : Z) : res bool :=
  match as_num a with
  | Some x => Ok (qle (Qc_of_Z n) x)
  | None => Raise TypeError
  end.

(** [datetime.strptime(v, "%Y-%m-%dT%H:%M:%S.%f").date()] *)
Definition parse_date (w : world) (v : value) : res value :=
  match v with
  | VStr s =>
      match strptime w s with
      | Some (d, _) => Ok (VDate d)
      | None => Raise ValueError
      end
  | _ => Raise TypeError
  end.

(** [(today - d).days] for two dates. *)
Definition days_between (today d : value) : res Z :=
  match today, d with
  | VDate t, VDate o => Ok (t - o)
  | _, _ => Raise TypeError
  end.

(** [data.get(k, default)] on the result of [json.loads]. *)
Definition dict_get (data : value) (k : string) (default : value)
    : res value :=
  match data with
  | VDict d => Ok (match alookup k d with Some v => v | None => default end)
  | _ => Raise AttributeError
  end.

(** [(email["subject"] + " " + email["body"]).lower()] *)
Definition email_text (email : value) : M string :=
  subject <- subscript email "subject" ;;
  a <- str_add subject (VStr " ") ;;
  body <- subscript email "body" ;;
  t <- str_add a body ;;
  match t with
  | VStr s => ret (lower s)
  | _ => raise TypeError
  end.

(** The lines of a prompt that read the email: [email['subject']] and
    [email['body']]. *)
Definition prompt_reads (email : value) : M unit :=
  _ <- subscript email "subject" ;;
  _ <- subscript email "body" ;;
  ret tt.

(** A node of a workflow graph: it returns a state, or Python's [None]. *)
Definition node : Type := world -> gmap string value -> M (option (gmap string value)).

(** The engine calls a node with a fresh frame; what it keeps is the result
    and the audit table. *)
Definition call (n : node) (w : world) (state : gmap string value)
    (log : list event) : res (option (gmap string value)) * list event :=
  let (r, st) := n w state (mkPstate [] log) in (r, audit st).

(** ** Intent heuristics of the fallback paths *)

(** The keyword cascade that [classify_node], [support_intent_node] and
    [extract_details_node] share when no chat model is configured:
    [(intent, conf, rationale)]. *)
Definition support_heuristic (txt : string) : string * Qc * string :=
  if any_in ["refund"; "return"; "chargeback"; "unused credits"; "damaged"] txt
  then ("Refund request", dec 78 100, "Refund-related keywords detected.")
  else if any_in ["access"; "login"; "license"; "subscription"; "activate"] txt
  then ("Access issue around product", dec 76 100,
        "Access/licensing keywords detected.")
  else if any_in ["verify"; "authenticate"; "who am i"; "identity"] txt
  then ("Account verification", dec 68 100, "Verification keywords detected.")
  else if any_in ["error"; "issue"; "problem"; "bug"; "not working"] txt
  then ("Technical issue", dec 70 100, "Technical-problem keywords detected.")
  else ("Other support", dec 55 100, "Fallback.").

(** The fallback branch those three nodes share: log under the step name
    ["support_intent"] and merge intent, confidence and rationale. *)
Definition heuristic_intent_step (state : gmap string value) (email : value)
    (inp : value) : M (option (gmap string value)) :=
  txt <- email_text email ;;
  let '(intent, conf, rationale) := support_heuristic txt in
  run_id <- state_item state "run_id" ;;
  log_step run_id "support_intent" inp
    (VDict [("intent", VStr intent); ("rationale", VStr rationale)])
    conf ["heuristic intent"] ;;;
  ret (Some (_merged state
    (mkdict [("intent", VStr intent); ("intent_confidence", VFloat conf);
             ("intent_rationale", VStr rationale)]))).

(** ** The refund sub-flow *)

(** [extract_details_node] (EXTRACT) *)
Definition extract_details_node : node := fun w state =>
  email <- state_item state "email" ;;
  match chat_model w with
  | None =>
      heuristic_intent_step state email (VDict [("email", email)])
  | Some model =>
      prompt_reads email ;;;
      let resp := model "data_extraction" email in
      try_except
        ("data" ::= match resp with
                    | Some d => ret d
                    | None => raise ValueError
                    end ;;;
         data <- load "data" ;;
         "customerEmailId" ::= dict_get data "customerEmailId" email ;;;
         customerEmailId <- load "customerEmailId" ;;
         placeholder <-
           (if negb (truthy customerEmailId) then ret true
            else match customerEmailId with
                 | VStr s =>
                     ret (existsb (String.eqb (lower (strip s)))
                            ["unidentified"; "unknown"; "n/a"])
                 | _ => raise AttributeError
                 end) ;;
         (if placeholder : bool
          then "customerEmailId" ::= subscript email "sender_email" ;;; ret tt
          else ret tt) ;;;
         "purchaseOrderNumber" ::=
           dict_get data "purchaseOrderNumber" (VStr "unidentified") ;;;
         "articleDoi" ::= dict_get data "articleDoi" (VStr "unidentified") ;;;
         "refundReason" ::=
           dict_get data "refundReason" (VStr "unidentified") ;;;
         c <- dict_get data "confidence" (VFloat (dec 6 10)) ;;
         q <- py_float w c ;;
         assign "refund_conf" (VFloat q) ;;;
         "refund_rationale" ::=
           dict_get data "rationale" (VStr "unidentified") ;;;
         ret tt)
        (fun _ =>
           assign "intent" (VStr "General") ;;;
           assign "refund_conf" (VFloat (dec 3 10)) ;;;
           assign "rationale"
             (VStr "Could not parse model output; defaulted.")) ;;;
      run_id <- state_item state "run_id" ;;
      refund_conf <- load "refund_conf" ;;
      refund_rationale <- load "refund_rationale" ;;
      conf <- py_float w refund_conf ;;
      log_step run_id "data_extraction" (VDict [("email", email)])
        (VDict [("refund_conf", refund_conf); ("rationale", refund_rationale)])
        conf ["LLM + DB"] ;;;
      customerEmailId <- load "customerEmailId" ;;
      purchaseOrderNumber <- load "purchaseOrderNumber" ;;
      articleDoi <- load "articleDoi" ;;
      refundReason <- load "refundReason" ;;
      ret (Some (_merged state
        (mkdict [("customerEmailId", customerEmailId);
                 ("purchaseOrderNumber", purchaseOrderNumber);
                 ("articleDoi", articleDoi);
                 ("refundReason", refundReason);
                 ("refund_conf", refund_conf);
                 ("refund_rationale", refund_rationale)])))
  end.

Definition validation_failure : string :=
  "User authetication failed. Could not validate refund eligibility due to missing or invalid data.".

(** The output snapshot both [log_step] calls of VALIDATE build. *)
Definition validation_output : M value :=
  purchaseOrderNumber <- load "purchaseOrderNumber" ;;
  customer_id <- load "customer_id" ;;
  product_id <- load "product_id" ;;
  is_refundable <- load "is_refundable" ;;
  order_amount <- load "order_amount" ;;
  validation_result <- load "validation_result" ;;
  ret (VDict [("purchaseOrderNumber", purchaseOrderNumber);
              ("customer_id", customer_id);
              ("product_id", product_id);
              ("is_refundable", is_refundable);
              ("order_amount", order_amount);
              ("rationale", validation_result)]).

(** The [try] block of [refund_validation_node]. *)
Definition refund_validation_try (w : world) (state : gmap string value)
    : M (option (gmap string value)) :=
  "customerEmailId" ::= state_item state "customerEmailId" ;;;
  "purchaseOrderNumber" ::= state_item state "purchaseOrderNumber" ;;;
  customerEmailId <- load "customerEmailId" ;;
  "cust" ::= _sql_fetchone w
    "SELECT * FROM customers WHERE email = ? LIMIT 1" [customerEmailId] ;;;
  cust <- load "cust" ;;
  "customer_id" ::= subscript cust "customer_id" ;;;
  "customer_name" ::= subscript cust "name" ;;;
  purchaseOrderNumber <- load "purchaseOrderNumber" ;;
  customer_id <- load "customer_id" ;;
  "order" ::= _sql_fetchone w
    "SELECT * FROM orders WHERE order_number = ? AND customer_id = ? LIMIT 1"
    [purchaseOrderNumber; customer_id] ;;;
  order <- load "order" ;;
  "product_id" ::= subscript order "product_id" ;;;
  "order_status" ::= subscript order "status" ;;;
  "order_amount" ::= subscript order "total_amount" ;;;
  order_status <- load "order_status" ;;
  (if negb (eq_str order_status "cancelled") then
     product_id <- load "product_id" ;;
     "product" ::= _sql_fetchone w
       "SELECT * FROM products WHERE product_id = ? LIMIT 1" [product_id] ;;;
     product <- load "product" ;;
     "product_name" ::= subscript product "name" ;;;
     "is_refundable" ::= subscript product "is_refundable" ;;;
     is_refundable <- load "is_refundable" ;;
     assign "validation_result"
       (VStr ("Order found with status " ++ py_str w order_status
              ++ ". Product refundable: " ++ py_str w is_refundable ++ "."))
   else ret tt) ;;;
  run_id <- state_item state "run_id" ;;
  out <- validation_output ;;
  log_step run_id "user_authetication" (VDict [("email", customerEmailId)])
    out 1%Qc ["Calculated from DB"] ;;;
  customerEmailId <- load "customerEmailId" ;;
  purchaseOrderNumber <- load "purchaseOrderNumber" ;;
  customer_id <- load "customer_id" ;;
  product_id <- load "product_id" ;;
  is_refundable <- load "is_refundable" ;;
  order_amount <- load "order_amount" ;;
  customer_name <- load "customer_name" ;;
  product_name <- load "product_name" ;;
  ret (Some (_merged state
    (mkdict [("customerEmailId", customerEmailId);
             ("purchaseOrderNumber", purchaseOrderNumber);
             ("customer_id", customer_id);
             ("product_id", product_id);
             ("is_refundable", is_refundable);
             ("order_amount", order_amount);
             ("customer_name", customer_name);
             ("product_name", product_name)]))).

(** The [except Exception] block of [refund_validation_node]. *)
Definition refund_validation_except (state : gmap string value)
    : M (option (gmap string value)) :=
  assign "customerEmailId" (VStr "General") ;;;
  assign "customer_id" (VFloat (dec 3 10)) ;;;
  assign "product_id" (VStr "Could not parse model output; defaulted.") ;;;
  assign "validation_result" (VStr validation_failure) ;;;
  assign "order_amount" (VFloat 0%Qc) ;;;
  assign "product_name" (VStr "unknown") ;;;
  run_id <- state_item state "run_id" ;;
  customerEmailId <- load "customerEmailId" ;;
  out <- validation_output ;;
  log_step run_id "user_authetication"
    (VDict [("email", customerEmailId)]) out (dec 3 10)
    ["Calculated from DB"] ;;;
  customerEmailId <- load "customerEmailId" ;;
  purchaseOrderNumber <- load "purchaseOrderNumber" ;;
  customer_id <- load "customer_id" ;;
  product_id <- load "product_id" ;;
  is_refundable <- load "is_refundable" ;;
  order_amount <- load "order_amount" ;;
  ret (Some (_merged state
    (mkdict [("customerEmailId", customerEmailId);
             ("purchaseOrderNumber", purchaseOrderNumber);
             ("customer_id", customer_id);
             ("product_id", product_id);
             ("is_refundable", is_refundable);
             ("order_amount", order_amount)]))).

(** [refund_validation_node] (VALIDATE) *)
Definition refund_validation_node : node := fun w state =>
  assign "is_refundable" (VBool false) ;;;
  try_except (refund_validation_try w state)
    (fun _ => refund_validation_except state).

(** [create_refund_case_node] (CASE_CREATE): falls off the end of the
    function, returning [None], when the state is not refundable. *)
Definition create_refund_case_node : node := fun w state =>
  customerEmailId <- state_item state "customerEmailId" ;;
  is_refundable <- state_item state "is_refundable" ;;
  if truthy is_refundable then
    let unique_id := uuid4_hex w in
    let case_node_info :=
      "Created refund case with OSC. Case ID: " ++ unique_id
      ++ " for email " ++ py_str w customerEmailId ++ "." in
    run_id <- state_item state "run_id" ;;
    log_step run_id "OSC_case_creation" (VDict [("email", customerEmailId)])
      (VDict [("oracle_service_ticket_number", VStr unique_id);
              ("rationale", VStr case_node_info)])
      1%Qc ["Created via OSC"] ;;;
    ret (Some (_merged state
      (mkdict [("oracle_service_ticket_number", VStr unique_id)])))
  else ret None.

Definition manual_review : string :=
  "Could not process refund. Please check manually.".

Definition window_passed : string :=
  "Refund cannot be processed as refund window has passed.".

(** The [try] block of [calculate_refund_node]. *)
Definition calculate_refund_try (w : world) (state : gmap string value)
    (customerEmailId : value) : M unit :=
  "total_price" ::= state_item state "order_amount" ;;;
  purchaseOrderNumber <- load "purchaseOrderNumber" ;;
  customer_id <- load "customer_id" ;;
  "order" ::= _sql_fetchone w
    "SELECT * FROM orders WHERE order_number = ? AND customer_id = ? LIMIT 1"
    [purchaseOrderNumber; customer_id] ;;;
  order <- load "order" ;;
  "order_created_at" ::= subscript order "created_at" ;;;
  product_id <- load "product_id" ;;
  "policies" ::= _sql_fetchone w
    "SELECT * FROM refund_policies WHERE product_id = ? LIMIT 1"
    [product_id] ;;;
  policies <- load "policies" ;;
  "refund_window_days" ::= subscript policies "refund_window_days" ;;;
  "refund_percentage" ::= subscript policies "refund_percentage" ;;;
  order_created_at <- load "order_created_at" ;;
  "order_date" ::= parse_date w order_created_at ;;;
  assign "today" (VDate (date_today w)) ;;;
  today <- load "today" ;;
  order_date <- load "order_date" ;;
  days <- days_between today order_date ;;
  assign "date_diff" (VInt days) ;;;
  refund_window_days <- load "refund_window_days" ;;
  in_window <- py_ge_int refund_window_days days ;;
  (if in_window : bool then
     total_price <- load "total_price" ;;
     refund_percentage <- load "refund_percentage" ;;
     product <- py_mul total_price refund_percentage ;;
     "refund_amount" ::= py_truediv product 100 ;;;
     refund_amount <- load "refund_amount" ;;
     assign "message"
       (VStr ("Allowed refund amount is " ++ py_str w refund_amount))
   else
     assign "is_refundable" (VBool false) ;;;
     assign "refund_amount" (VFloat 0%Qc) ;;;
     assign "message" (VStr window_passed)) ;;;
  run_id <- state_item state "run_id" ;;
  refund_amount <- load "refund_amount" ;;
  message <- load "message" ;;
  log_step run_id "refund_calculation"
    (VDict [("email", customerEmailId)])
    (VDict [("refund_amount", refund_amount); ("rationale", message)])
    1%Qc ["Calculated via DB"].

(** The [except Exception] block of [calculate_refund_node]. *)
Definition calculate_refund_except (state : gmap string value)
    (customerEmailId : value) : M unit :=
  assign "purchaseOrderNumber" (VStr "General") ;;;
  assign "customer_id" (VFloat (dec 55 100)) ;;;
  assign "product_id" (VStr "Could not parse model output; defaulted.") ;;;
  run_id <- state_item state "run_id" ;;
  log_step run_id "OSC_case_creation"
    (VDict [("email", customerEmailId)])
    (VDict [("refund_amount", VFloat 0%Qc);
            ("rationale", VStr manual_review)])
    (dec 3 10) ["Calculated via DB"].

(** [calculate_refund_node] (CALCULATE) *)
Definition calculate_refund_node : node := fun w state =>
  "is_refundable" ::= state_item state "is_refundable" ;;;
  "customerEmailId" ::= state_item state "customerEmailId" ;;;
  "customer_id" ::= state_item state "customer_id" ;;;
  "product_id" ::= state_item state "product_id" ;;;
  "purchaseOrderNumber" ::= state_item state "purchaseOrderNumber" ;;;
  is_refundable <- load "is_refundable" ;;
  customerEmailId <- load "customerEmailId" ;;
  if truthy is_refundable then
    try_except
      (calculate_refund_try w state customerEmailId)
      (fun _ => calculate_refund_except state customerEmailId) ;;;
    is_refundable <- load "is_refundable" ;;
    refund_amount <- load "refund_amount" ;;
    message <- load "message" ;;
    ret (Some (_merged state
      (mkdict [("is_refundable", is_refundable);
               ("refund_amount", refund_amount);
               ("message", message)])))
  else ret None.

Definition notification : string :=
  "Notification email sent to example@example.com for refund approval.".

(** [refund_info_node] (NOTIFY) *)
Definition refund_info_node : node := fun w state =>
  is_refundable <- state_item state "is_refundable" ;;
  customerEmailId <- state_item state "customerEmailId" ;;
  (if truthy is_refundable then
     run_id <- state_item state "run_id" ;;
     log_step run_id "refund_info_node" (VDict [("email", customerEmailId)])
       (VDict [("rationale", VStr notification)]) 1%Qc ["LLM"]
   else ret tt) ;;;
  ret (Some (_merged state (mkdict [("avg_confidence", VStr "Hello")]))).

(** [formulate_response] *)
Definition formulate_response : node := fun w state =>
  ret (Some (_merged state
    (mkdict [("kb_context", VStr "ctx"); ("kb_confidence", VStr "conf")]))).

(** ** Classification and routing *)

Definition support_intent_list : list string :=
  ["Access issue around product"; "Refund request"; "Technical issue";
   "Account verification"; "Need more info from customer"; "Other support"].

Definition sales_intent_list : list string :=
  ["Specific product related inquiry";
   "Customer requirement possible products";
   "Best price offer and bundling related query"; "Order related query";
   "Need more info from customer"; "Other sales"].

(** The value that stands for a node's prompt text in an audit row. *)
Definition prompt_of (who : string) (email : value) : value :=
  VDict [("node", VStr who); ("email", email)].

(** The keyword cascade of [classify_node_1]'s fallback:
    [(category, conf)]. *)
Definition keyword_category (text : string) : string * Qc :=
  if any_in ["refund"; "access"; "login"; "license"; "error"; "issue";
             "problem"] text
  then ("Support Type", dec 78 100)
  else if any_in ["price"; "quote"; "discount"; "buy"; "purchase";
                  "bundle"; "offer"; "order"] text
  then ("Sales Type", dec 76 100)
  else ("Other", dec 55 100).

(** [classify_node_1]: the category classifier (not wired into a graph). *)
Definition classify_node_1 : node := fun w state =>
  email <- state_item state "email" ;;
  match chat_model w with
  | None =>
      text <- email_text email ;;
      let '(category, conf) := keyword_category text in
      let out := VDict [("category", VStr category);
                        ("confidence", VFloat conf)] in
      run_id <- state_item state "run_id" ;;
      log_step run_id "classify" email out conf ["rule-based keywords"] ;;;
      ret (Some (_merged state
        (mkdict [("category", VStr category);
                 ("category_confidence", VFloat conf)])))
  | Some model =>
      _ <- subscript email "sender_email" ;;
      prompt_reads email ;;;
      let j := match model "classify" email with
               | Some d => d
               | None =>
                   VDict [("category", VStr "Other");
                          ("confidence", VFloat (dec 4 10));
                          ("rationale", VStr "Could not parse model output.")]
               end in
      c <- dict_get j "confidence" (VFloat (dec 4 10)) ;;
      conf <- py_float w c ;;
      category <- dict_get j "category" (VStr "Other") ;;
      rationale <- dict_get j "rationale" (VStr "") ;;
      let out := VDict [("category", category); ("confidence", VFloat conf);
                        ("rationale", rationale)] in
      run_id <- state_item state "run_id" ;;
      log_step run_id "classify"
        (VDict [("prompt", prompt_of "classify" email)]) out conf
        ["LLM JSON"] ;;;
      ret (Some (_merged state
        (mkdict [("category", category);
                 ("category_confidence", VFloat conf)])))
  end.

(** [classify_node]: the node the top-level graph runs first. *)
Definition classify_node : node := fun w state =>
  email <- state_item state "email" ;;
  let allowed := (support_intent_list ++ sales_intent_list)%list in
  match chat_model w with
  | None => heuristic_intent_step state email (VDict [("email", email)])
  | Some model =>
      prompt_reads email ;;;
      let resp := model "intent" email in
      parsed <-
        try_except
          (data <- match resp with
                   | Some d => ret d
                   | None => raise ValueError
                   end ;;
           intent <- dict_get data "intent" (VStr "General") ;;
           let intent :=
             if negb (in_strs intent allowed) then VStr "General"
             else intent in
           c <- dict_get data "confidence" (VFloat (dec 6 10)) ;;
           conf <- py_float w c ;;
           r <- dict_get data "rationale" (VStr "") ;;
           ret (intent, conf, py_str w r))
          (fun _ =>
             ret (VStr "General", dec 55 100,
                  "Could not parse model output; defaulted.")) ;;
      let '(intent, conf, rationale) := parsed in
      let category :=
        if in_strs intent sales_intent_list then "Sales Type"
        else if in_strs intent support_intent_list then "Support Type"
        else "Others" in
      run_id <- state_item state "run_id" ;;
      log_step run_id "support_intent" (VDict [("email", email)])
        (VDict [("intent", intent); ("rationale", VStr rationale)])
        conf ["LLM + KB"] ;;;
      ret (Some (_merged state
        (mkdict [("category", VStr category); ("intent", intent);
                 ("intent_confidence", VFloat conf);
                 ("category_confidence", VFloat conf);
                 ("intent_rationale", VStr rationale)])))
  end.

(** [route_node] *)
Definition route_node : node := fun w state =>
  let cat := state_get state "category" (VStr "Other") in
  let route :=
    if eq_str cat "Sales Type" then "sales"
    else if eq_str cat "Support Type" then "support"
    else "other" in
  let conf :=
    if existsb (String.eqb route) ["sales"; "support"] then dec 9 10
    else dec 6 10 in
  run_id <- state_item state "run_id" ;;
  log_step run_id "route" (VDict [("category", cat)])
    (VDict [("route", VStr route)]) conf
    ["mapped " ++ py_str w cat ++ " -> " ++ route] ;;;
  ret (Some (_merged state
    (mkdict [("route", VStr route); ("route_confidence", VFloat conf)]))).

(** The body [support_route_node] and [sales_route_node] share: the intent is
    copied into [route] as it is; the allow-list only sets the confidence of
    the audit row. *)
Definition intent_route_node (default : string) (allow : list string)
    : node := fun w state =>
  let route := state_get state "intent" (VStr default) in
  let cat := state_get state "category" (VStr "Other") in
  let conf := if in_strs route allow then dec 9 10 else dec 3 10 in
  let rationale := "Mapped from intent " ++ py_str w route in
  run_id <- state_item state "run_id" ;;
  log_step run_id "route" (VDict [("category", cat)])
    (VDict [("route", route); ("rationale", VStr rationale)]) conf
    ["mapped " ++ py_str w cat ++ " -> " ++ py_str w route] ;;;
  ret (Some (_merged state
    (mkdict [("route", route); ("route_confidence", VFloat 1%Qc)]))).

(** [support_route_node] *)
Definition support_route_node : node :=
  intent_route_node "Other support" support_intent_list.

(** [sales_route_node] *)
Definition sales_route_node : node :=
  intent_route_node "Other sales" sales_intent_list.

(** [other_node] *)
Definition other_node : node := fun w state =>
  email <- state_item state "email" ;;
  run_id <- state_item state "run_id" ;;
  subject <- subscript email "subject" ;;
  log_step run_id "other" (VDict [("subject", subject)])
    (VDict [("intent", VStr "Other")]) (dec 55 100) ["default bucket"] ;;;
  ret (Some (_merged state
    (mkdict [("intent", VStr "Other");
             ("summary", VStr "Email does not match sales/support. Logged for manual triage.");
             ("drafted_email", VNone); ("recommendations", VList []);
             ("offers", VList []);
             ("other_confidence", VFloat (dec 55 100))]))).

(** [unknown_node] *)
Definition unknown_node : node := other_node.

Definition confidence_fields : list string :=
  ["category_confidence"; "route_confidence"; "kb_confidence";
   "intent_confidence"; "sales_confidence"; "support_confidence";
   "other_confidence"].

(** [sum(vals) / len(vals) if vals else 0.0], on exact rationals: Python's
    float result is this value up to the rounding of the sum and of the
    quotient. *)
Definition average (vals : list Qc) : Qc :=
  match vals with
  | [] => 0%Qc
  | _ => (fold_left Qcplus vals 0%Qc / Qc_of_Z (Z.of_nat (length vals)))%Qc
  end.

(** [finalize_node] *)
Definition finalize_node : node := fun w state =>
  let conf_fields := map (fun k => state_get state k VNone) confidence_fields in
  let vals := omap as_num conf_fields in
  let avg := average vals in
  run_id <- state_item state "run_id" ;;
  log_step run_id "finalize"
    (VDict [("route", state_get state "route" VNone)])
    (VDict [("avg_confidence", VFloat avg)]) (dec 9 10)
    ["consolidated outputs"] ;;;
  ret (Some (_merged state (mkdict [("avg_confidence", VFloat avg)]))).

(** [present_node] *)
Definition present_node : node := fun w state =>
  run_id <- state_item state "run_id" ;;
  log_step run_id "present"
    (VDict [("route", state_get state "route" VNone)])
    (VDict [("status", VStr "done")]) (dec 95 100) ["ready to present"] ;;;
  ret (Some state).

(** ** Sorting and word sets *)

(** Insertion of [x] into a list sorted for [lt], before the first element
    that does not come strictly before [x]. *)
Fixpoint insert_sorted {A} (lt : A -> A -> bool) (x : A) (l : list A)
    : list A :=
  match l with
  | [] => [x]
  | y :: r => if lt y x then y :: insert_sorted lt x r else x :: l
  end.

(** A stable sort: elements that [lt] does not order keep their order. *)
Definition stable_sort {A} (lt : A -> A -> bool) (l : list A) : list A :=
  foldr (insert_sorted lt) [] l.

(** [sorted(l, key=key)] *)
Definition sort_asc {A} (key : A -> Qc) (l : list A) : list A :=
  stable_sort (fun y x => qlt (key y) (key x)) l.

(** [l.sort(key=key, reverse=True)] *)
Definition sort_desc {A} (key : A -> Qc) (l : list A) : list A :=
  stable_sort (fun y x => qlt (key x) (key y)) l.

(** [set(s.split())] *)
Definition word_set (s : string) : gset string := list_to_set (split s).

(** [a / max(1, n)] for two counts. *)
Definition ratio (a n : nat) : Qc :=
  Q2Qc (Z.of_nat a # Pos.of_nat (Nat.max 1 n)).

(** [len(q.intersection(w)) / max(1, len(q))] *)
Definition overlap_score (q w : gset string) : Qc :=
  ratio (size (q ∩ w)) (size q).

(** [round(x)] on an exact rational: to the nearest integer, ties to even. *)
Definition round_half_even (x : Q) : Z :=
  let f := Qfloor x in
  match (x - inject_Z f ?= 1 # 2)%Q with
  | Lt => f
  | Gt => f + 1
  | Eq => if Z.even f then f else f + 1
  end.

(** [round(x, 2)] *)
Definition round2 (x : Qc) : Qc :=
  Q2Qc (round_half_even (x * 100)%Q # 100).

Fixpoint mapM {A B} (f : A -> M B) (l : list A) : M (list B) :=
  match l with
  | [] => ret []
  | x :: r => y <- f x ;; ys <- mapM f r ;; ret (y :: ys)
  end.

(** ** Sales fulfilment *)

Definition nl : string := String (ascii_of_nat 10) "".

(** ["c" in row.keys()] *)
Definition has_column (r : value) (c : string) : bool :=
  match r with
  | VRow d => match alookup c d with Some _ => true | None => false end
  | _ => false
  end.

(** [float(r["base_price"] or 0.0)] *)
Definition base_price (w : world) (r : value) : M Qc :=
  bp <- subscript r "base_price" ;;
  py_float w (if truthy bp then bp else VFloat 0%Qc).

(** [float(p[c]) if c in p.keys() and p[c] is not None else default] *)
Definition policy_number (w : world) (p : value) (c : string) (default : Qc)
    : M Qc :=
  if has_column p c then
    v <- subscript p c ;;
    match v with
    | VNone => ret default
    | _ => v' <- subscript p c ;; py_float w v'
    end
  else ret default.

(** One iteration of the loop over [top5] in the pricing branch. *)
Definition make_offer (w : world) (tier : value) (max_disc approval_thr : Qc)
    (r : value) : M value :=
  base <- base_price w r ;;
  let disc := qmin max_disc (dec 8 10 * max_disc)%Qc in
  let total := (base * (1 - disc / Qc_of_Z 100))%Qc in
  let compliant := qle disc max_disc && qlt disc approval_thr in
  name <- subscript r "name" ;;
  ret (VDict
    [("option_name", VStr (py_str w name ++ " (bundle-ready)"));
     ("total_price", VFloat (round2 total));
     ("discount_percent", VFloat (round2 disc));
     ("compliant", VBool compliant);
     ("evidence",
      VList [VStr ("base_price=" ++ py_str w (VFloat base));
             VStr ("tier=" ++ py_str w tier);
             VStr ("max_discount=" ++ py_str w (VFloat max_disc));
             VStr ("approval_threshold=" ++ py_str w (VFloat approval_thr))]);
     ("reasoning",
      VStr "Discount proposed within policy limits; if approval needed, route to human approval.")]).

(** The [if policies:] block of the pricing branch: the discount limits of
    the first policy row, with the defaults 10.0 and 15.0, and the evidence
    line it adds. *)
Definition pricing_limits (w : world) (policies : value)
    (evidence : list string) : M (Qc * Qc * list string) :=
  let max_disc := Qc_of_Z 10 in
  let approval_thr := Qc_of_Z 15 in
  match policies with
  | VList (p :: _) =>
      max_disc' <- policy_number w p "max_discount_percent" max_disc ;;
      approval_thr' <- policy_number w p "approval_threshold" approval_thr ;;
      name <- (if has_column p "policy_name" then subscript p "policy_name"
               else Ok (VStr "n/a")) ;;
      ret (max_disc', approval_thr',
           app evidence
             ["pricing_policy: " ++ py_str w name
              ++ " max_discount=" ++ py_str w (VFloat max_disc')
              ++ " approval_threshold="
              ++ py_str w (VFloat approval_thr')])
  | _ => ret (max_disc, approval_thr, evidence)
  end.

(** The rest of the pricing branch: the products sorted by price, the
    first five of them, and one offer for each. *)
Definition bundle_offers (w : world) (tier : value)
    (max_disc approval_thr : Qc) (prows : list value) : M (list value) :=
  keyed <- mapM (fun r => k <- base_price w r ;; ret (k, r)) prows ;;
  let prows := map snd (sort_asc fst keyed) in
  let top5 := take 5 prows in
  mapM (make_offer w tier max_disc approval_thr) top5.

(** The pricing/bundling branch of [sales_node], from the policy lookup to
    the list of offers and the evidence. *)
Definition pricing_offers (w : world) (tier : value) (evidence : list string)
    : M (list value * list string) :=
  policies <- _sql_fetchall w
    "SELECT * FROM pricing_policies WHERE customer_tier = ? AND active = 1"
    [VList [tier]] ;;
  limits <- pricing_limits w policies evidence ;;
  let '(max_disc, approval_thr, evidence) := limits in
  prows <- _sql_fetchall w
    "SELECT product_id, name, base_price, category FROM products" [] ;;
  let prows := match prows with VList l => l | _ => [] end in
  offers <- bundle_offers w tier max_disc approval_thr prows ;;
  ret (offers, evidence).

Definition clarifying_draft (w : world) (subject : value) : string :=
  "Subject: Re: " ++ py_str w subject ++ nl ++ nl
  ++ "Hi," ++ nl ++ nl
  ++ "Thanks for reaching out. To recommend the best-fit options, could you share:" ++ nl
  ++ "1) Target use case / key requirements (top 3)" ++ nl
  ++ "2) Expected users / seats" ++ nl
  ++ "3) Desired contract duration" ++ nl
  ++ "4) Budget range (if any)" ++ nl
  ++ "5) Must-have integrations / compliance needs" ++ nl ++ nl
  ++ "Once I have this, I will propose the most suitable product(s) with pricing and bundling options." ++ nl ++ nl
  ++ "Regards," ++ nl
  ++ "Sales Team" ++ nl.

(** One iteration of the scoring loop of the recommendation branch. *)
Definition score_product (w : world) (q : gset string) (r : value)
    : M (Qc * value) :=
  name <- subscript r "name" ;;
  description <- subscript r "description" ;;
  category <- subscript r "category" ;;
  let words := word_set (lower (py_str w name ++ " " ++ py_str w description
                                ++ " " ++ py_str w category)) in
  ret (overlap_score q words, r).

Definition make_recommendation (w : world) (sr : Qc * value) : M value :=
  let '(s, r) := sr in
  product_id <- subscript r "product_id" ;;
  name <- subscript r "name" ;;
  category <- subscript r "category" ;;
  ret (VDict
    [("product_id", product_id);
     ("name", name);
     ("purpose", VStr ("Matches category " ++ py_str w category));
     ("score", VFloat (qmin 1 (s * Qc_of_Z 3))%Qc);
     ("reasoning",
      VStr "Keyword match between email and product metadata; refine with KB/LLM when available.")]).

(** [sales_node] *)
Definition sales_node : node := fun w state =>
  email <- state_item state "email" ;;
  text <- email_text email ;;
  let force_intent := state_get state "intent" VNone in
  sender <- subscript email "sender_email" ;;
  cust <- _sql_fetchone w "SELECT * FROM customers WHERE email = ? LIMIT 1"
    [VList [sender]] ;;
  tier <- (if truthy cust && has_column cust "tier" then subscript cust "tier"
           else ret (VStr "Standard")) ;;
  let evidence := ["Customer tier: " ++ py_str w tier] in
  if eq_str force_intent "Order related query"
     || (contains "order" text
         && (contains "where" text || contains "status" text
             || contains "track" text))
  then
    let intent := "Order related query" in
    orders <- (if truthy cust then
                 customer_id <- subscript cust "customer_id" ;;
                 _sql_fetchall w
                   "SELECT order_number, status, tracking_number, updated_at FROM orders WHERE customer_id = ?"
                   [VList [customer_id]]
               else ret (VList [])) ;;
    found <-
      match orders with
      | VList (top :: rest) =>
          order_number <- subscript top "order_number" ;;
          status <- subscript top "status" ;;
          tracking <- subscript top "tracking_number" ;;
          ret ("Found order " ++ py_str w order_number ++ " status="
               ++ py_str w status ++ " tracking=" ++ py_str w tracking ++ ".",
               app evidence
                 ["orders: "
                  ++ py_str w (VInt (Z.of_nat (length (top :: rest))))
                  ++ " rows"])
      | _ =>
          ret ("No order found for this customer in orders table.",
               app evidence ["orders: 0 rows"])
      end ;;
    let '(summary, evidence) := found in
    let conf := dec 8 10 in
    run_id <- state_item state "run_id" ;;
    log_step run_id "sales_fulfillment"
      (VDict [("text", VStr (substring 0 300 text))])
      (VDict [("intent", VStr intent)]) conf evidence ;;;
    ret (Some (_merged state
      (mkdict [("intent", VStr intent); ("summary", VStr summary);
               ("recommendations", VList []); ("offers", VList []);
               ("drafted_email", VNone); ("sales_confidence", VFloat conf)])))
  else if eq_str force_intent "Best price offer and bundling related query"
          || any_in ["price"; "discount"; "offer"; "bundle"; "bundling";
                     "quote"] text
  then
    let intent := "Best price offer and bundling related query" in
    priced <- pricing_offers w tier evidence ;;
    let '(offers, evidence) := priced in
    let summary :=
      "Prepared top pricing/bundling options honoring discount policy." in
    let conf := dec 77 100 in
    run_id <- state_item state "run_id" ;;
    log_step run_id "sales_pricing" (VDict [("tier", tier)])
      (VDict [("offers", VInt (Z.of_nat (length offers)))]) conf evidence ;;;
    ret (Some (_merged state
      (mkdict [("intent", VStr intent); ("summary", VStr summary);
               ("recommendations", VList []); ("offers", VList offers);
               ("drafted_email", VNone); ("sales_confidence", VFloat conf)])))
  else
    let intent := "Specific product related inquiry" in
    prows <- _sql_fetchall w
      "SELECT product_id, name, description, category FROM products" [] ;;
    let prows := match prows with VList l => l | _ => [] end in
    let q := word_set text in
    scored <- mapM (score_product w q) prows ;;
    let scored := sort_desc fst scored in
    recs <- mapM (make_recommendation w) (take 5 scored) ;;
    let summary :=
      "Recommended products based on customer ask and product catalog evidence." in
    let conf := match recs with [] => dec 5 10 | _ => dec 7 10 end in
    drafted <-
      (if contains "need" text || contains "requirement" text then
         subject <- subscript email "subject" ;;
         ret (VStr (clarifying_draft w subject))
       else ret VNone) ;;
    run_id <- state_item state "run_id" ;;
    log_step run_id "sales_recommend" (VDict [("email", email)])
      (VDict [("recs", VInt (Z.of_nat (length recs)))]) conf evidence ;;;
    ret (Some (_merged state
      (mkdict [("intent", VStr intent); ("summary", VStr summary);
               ("recommendations", VList recs); ("offers", VList []);
               ("drafted_email", drafted); ("sales_confidence", VFloat conf)]))).

(** [support_kb_node] *)
Definition support_kb_node : node := fun w state =>
  email <- state_item state "email" ;;
  subject <- subscript email "subject" ;;
  body <- subscript email "body" ;;
  let query := "[SUPPORT]" ++ nl ++ "Subject: " ++ py_str w subject ++ nl
               ++ "Body: " ++ py_str w body in
  answer <- lift (kb_answer w query) ;;
  let conf := if truthy (VStr answer) then dec 75 100 else dec 35 100 in
  run_id <- state_item state "run_id" ;;
  log_step run_id "support_kb_retrieve"
    (VDict [("query", VStr (substring 0 500 query))])
    (VDict [("num_chunks", VInt (Z.of_nat (String.length answer)))]) conf
    ["KB top-k retrieval (support)"] ;;;
  ret (Some (_merged state
    (mkdict [("kb_context", VStr answer); ("kb_confidence", VFloat conf)]))).

(** ** The compiled graphs *)

(** The state [chat()] in [app.py] hands to the top-level graph. *)
Definition initial_state (run_id sender subject body : string) (ok : bool)
    (flags : list string) : gmap string value :=
  mkdict
    [("run_id", VStr run_id);
     ("email", VDict [("sender_email", VStr sender); ("subject", VStr subject);
                      ("body", VStr body)]);
     ("guardrails", VDict [("ok", VBool ok);
                           ("flags", VList (map VStr flags))])].

(** A conditional fan-out: the selector's result is looked up in the path
    map given to [add_conditional_edges]; a result that is not a key of the
    map has no successor and the lookup raises. *)
Definition branch_target (w : world) (path_map : gmap string string)
    (selected : value) : res string :=
  match selected with
  | VStr k =>
      match path_map !! k with
      | Some target => Ok target
      | None => Raise (KeyError k)
      end
  | VList _ | VDict _ | VRow _ => Raise TypeError
  | _ => Raise (KeyError (py_str w selected))
  end.

(** [_after_route] of [build_graph] and its path map. *)
Definition top_after_route (state : gmap string value) : value :=
  state_get state "route" (VStr "unknown").

Definition top_path_map : gmap string string :=
  list_to_map [("sales", "sales"); ("support", "support");
               ("other", "unknown"); ("unknown", "unknown")].

(** [_after_route] of [build_support_graph] and its path map. *)
Definition support_after_route (state : gmap string value) : value :=
  state_get state "route" (VStr "Other support").

Definition support_path_map : gmap string string :=
  list_to_map [("Access issue around product", "access");
               ("Refund request", "refund");
               ("Technical issue", "technical");
               ("Account verification", "account");
               ("Need more info from customer", "moreinfo");
               ("Other support", "other")].

(** [_after_route] of [build_sales_graph] and its path map. *)
Definition sales_after_route (state : gmap string value) : value :=
  state_get state "route" (VStr "Other sales").

Definition sales_path_map : gmap string string :=
  list_to_map [("Specific product related inquiry", "product_inquiry");
               ("Customer requirement possible products",
                "customer_requirement");
               ("Best price offer and bundling related query", "best_price");
               ("Order related query", "order_quiry");
               ("Need more info from customer", "moreinfo");
               ("Other sales", "other")].

(** The engine runs a node and takes the dict it returns as the next state;
    a node that returns [None] leaves the state as it is. *)
Definition run_node (n : node) (w : world) (state : gmap string value)
    (log : list event) : res (gmap string value) * list event :=
  match call n w state log with
  | (Ok (Some state'), log') => (Ok state', log')
  | (Ok None, log') => (Ok state, log')
  | (Raise e, log') => (Raise e, log')
  end.

(** A chain of nodes joined by unconditional edges; a raised exception
    aborts the run and keeps the audit rows written so far. *)
Fixpoint run_chain (ns : list node) (w : world) (state : gmap string value)
    (log : list event) : res (gmap string value) * list event :=
  match ns with
  | [] => (Ok state, log)
  | n :: rest =>
      match run_node n w state log with
      | (Ok state', log') => run_chain rest w state' log'
      | (Raise e, log') => (Raise e, log')
      end
  end.

(** [build_refund_graph]: extract_details -> refund_validate ->
    refund_case_creation -> refund_calculate -> refund_info -> END. *)
Definition refund_graph : list node :=
  [extract_details_node; refund_validation_node; create_refund_case_node;
   calculate_refund_node; refund_info_node].

(** A router node followed by its conditional fan-out: the branch taken and
    the state handed to it. *)
Definition dispatch (router : node) (after : gmap string value -> value)
    (path_map : gmap string string) (w : world) (state : gmap string value)
    (log : list event) : res (string * gmap string value) * list event :=
  match run_node router w state log with
  | (Ok state', log') =>
      match branch_target w path_map (after state') with
      | Ok target => (Ok (target, state'), log')
      | Raise e => (Raise e, log')
      end
  | (Raise e, log') => (Raise e, log')
  end.

(** [build_graph] up to the fan-out: classify -> route -> branch. *)
Definition top_dispatch (w : world) (state : gmap string value)
    (log : list event) : res (string * gmap string value) * list event :=
  match run_node classify_node w state log with
  | (Ok state', log') =>
      dispatch route_node top_after_route top_path_map w state' log'
  | (Raise e, log') => (Raise e, log')
  end.

(** [build_support_graph] up to the fan-out: route -> branch. *)
Definition support_dispatch :=
  dispatch support_route_node support_after_route support_path_map.

(** [build_sales_graph] up to the fan-out: route -> branch. *)
Definition sales_dispatch :=
  dispatch sales_route_node sales_after_route sales_path_map.

(** The unknown branch of [build_graph] and the shared tail:
    unknown -> finalize -> present -> END. *)
Definition unknown_tail : list node :=
  [unknown_node; finalize_node; present_node].

(** The step functions that the compiled graphs reach. *)
Inductive step : Type :=
| Classify | Route | SalesRoute | SupportRoute | SupportKb | Formulate
| Extract | Validate | CaseCreate | Calculate | Notify
| Unknown | Finalize | Present.

Definition step_node (s : step) : node :=
  match s with
  | Classify => classify_node
  | Route => route_node
  | SalesRoute => sales_route_node
  | SupportRoute => support_route_node
  | SupportKb => support_kb_node
  | Formulate => formulate_response
  | Extract => extract_details_node
  | Validate => refund_validation_node
  | CaseCreate => create_refund_case_node
  | Calculate => calculate_refund_node
  | Notify => refund_info_node
  | Unknown => unknown_node
  | Finalize => finalize_node
  | Present => present_node
  end.

(** Whether a step that returns writes its audit row: the three gated refund
    steps only on a refundable state, [formulate_response] never. *)
Definition writes_event (s : step) (state : gmap string value) : bool :=
  match s with
  | CaseCreate | Calculate | Notify =>
      truthy (state_get state "is_refundable" VNone)
  | Formulate => false
  | _ => true
  end.

(** ** Knowledge retrieval ([kb.py]) *)

(** A row of [kb_chunks] joined with the file name of its document. *)
Record kb_row : Type := mkKbRow {
  chunk_id : Z;
  doc_id : Z;
  chunk_text : option string;
  embedding_json : option string;
  filename : option string
}.

(** [r["chunk_text"] or ""] *)
Definition text_or_empty (r : kb_row) : string :=
  match chunk_text r with
  | Some t => t
  | None => ""
  end.

(** [bool(r["embedding_json"])] *)
Definition has_embedding (r : kb_row) : bool :=
  match embedding_json r with
  | Some j => negb (String.eqb j "")
  | None => false
  end.

(** [[t for _, t in top if t.strip()]]: [None] has no [strip]. *)
Fixpoint keep_nonblank (top : list (Qc * option string))
    : res (list (option string)) :=
  match top with
  | [] => Ok []
  | (_, None) :: _ => Raise AttributeError
  | (_, Some t) :: rest =>
      match keep_nonblank rest with
      | Ok kept => Ok (if nonblank t then Some t :: kept else kept)
      | Raise e => Raise e
      end
  end.

(** The scored list of Path B of [retrieve_context], after the sort. *)
Definition lexical_ranking (rows : list kb_row) (query : string)
    : list (Qc * option string) :=
  let q := word_set (lower query) in
  sort_desc fst
    (map (fun r => (overlap_score q (word_set (lower (text_or_empty r))),
                    chunk_text r)) rows).

(** The loop of Path A of [retrieve_context]: one [(cosine, text)] pair for
    each row that has an embedding, in storage order.  [cosine] is
    [json.loads], [np.array] and [_cosine] on a stored embedding text; it
    raises on a text that is not JSON or on a vector of another dimension,
    and the loop has no handler. *)
Fixpoint embedding_scored (cosine : string -> res Qc) (rows : list kb_row)
    : res (list (Qc * option string)) :=
  match rows with
  | [] => Ok []
  | r :: rest =>
      if has_embedding r then
        match cosine (default "" (embedding_json r)) with
        | Ok c =>
            match embedding_scored cosine rest with
            | Ok scored => Ok ((c, chunk_text r) :: scored)
            | Raise e => Raise e
            end
        | Raise e => Raise e
        end
      else embedding_scored cosine rest
  end.

(** [retrieve_context(query, k)] over the rows of [kb_chunks].  [emb] is
    [get_embeddings()]; when present, [emb.embed_query(query)] returns the
    query's vector or raises, and with the vector each stored embedding
    text has a cosine or raises. *)
Definition retrieve_context (emb : option (string -> res (string -> res Qc)))
    (rows : list kb_row) (query : string) (k : nat)
    : res (list (option string)) :=
  match rows with
  | [] => Ok []
  | _ =>
      match emb with
      | Some embed_query =>
          if existsb has_embedding rows then
            match embed_query query with
            | Ok cosine =>
                match embedding_scored cosine rows with
                | Ok scored => Ok (map snd (take k (sort_desc fst scored)))
                | Raise e => Raise e
                end
            | Raise e => Raise e
            end
          else keep_nonblank (take k (lexical_ranking rows query))
      | None => keep_nonblank (take k (lexical_ranking rows query))
      end
  end.

(** An entry of the list [search_kb] returns. *)
Record hit : Type := mkHit {
  hit_chunk_id : Z;
  hit_doc_id : Z;
  hit_filename : option string;
  hit_score : Qc;
  hit_text : option string
}.

Definition make_hit (r : kb_row) (score : Qc) : hit :=
  mkHit (chunk_id r) (doc_id r) (filename r) score (chunk_text r).

(** [sum(1 for w in q_words if w in text) / max(1, len(q_words))]: a query
    word counts when it occurs anywhere in the text. *)
Definition substring_score (q_words : gset string) (text : string) : Qc :=
  ratio (length (filter (fun w => contains w text) (elements q_words)))
        (size q_words).

(** [search_kb(query, top_k)] over the joined rows.  [q_emb] is the query's
    embedding ([None] without an embedding model, or when embedding the
    query raised); when present it gives the score of a stored vector, or
    [None] for a row that is skipped. *)
Definition search_kb (q_emb : option (option string -> option Qc))
    (rows : list kb_row) (query : string) (top_k : nat) : list hit :=
  let query := strip query in
  if String.eqb query "" then []
  else
    match q_emb with
    | None =>
        let q_words := word_set (lower query) in
        let results :=
          omap (fun r =>
                  let text := lower (text_or_empty r) in
                  let score := substring_score q_words text in
                  if qlt 0%Qc score then Some (make_hit r score) else None)
               rows in
        take top_k (sort_desc hit_score results)
    | Some score_of =>
        let results :=
          omap (fun r =>
                  match score_of (embedding_json r) with
                  | Some score => Some (make_hit r score)
                  | None => None
                  end) rows in
        take top_k (sort_desc hit_score results)
    end.

(** ** Predicates used in the statements *)

(** An email dict whose subject and body are the given strings. *)
Definition well_formed_email (email : value) (subject body : string) : Prop :=
  exists d, email = VDict d
            /\ alookup "subject" d = Some (VStr subject)
            /\ alookup "body" d = Some (VStr body).

(** The text the keyword heuristics read. *)
Definition heuristic_text (subject body : string) : string :=
  lower ((subject ++ " ") ++ body).

(** [route_node]'s choice of route from the category. *)
Definition route_of (cat : value) : string :=
  if eq_str cat "Sales Type" then "sales"
  else if eq_str cat "Support Type" then "support"
  else "other".

(** The category [classify_node] derives from the oracle's intent. *)
Definition category_of (intent : value) : string :=
  if in_strs intent sales_intent_list then "Sales Type"
  else if in_strs intent support_intent_list then "Support Type"
  else "Others".

(** [outcome c st Q]: running [c] from [st] ends with a result and a state
    that satisfy [Q]. *)
Definition outcome {A} (c : M A) (st : pstate)
    (Q : res A -> pstate -> Prop) : Prop :=
  Q (c st).1 (c st).2.

(** [log'] is [log] followed by [n] more rows. *)
Definition appended (log log' : list event) (n : nat) : Prop :=
  exists evs, log' = app log evs /\ length evs = n.

(** Descending and ascending order of the sort keys. *)
Definition by_desc {A} (key : A -> Qc) (a b : A) : Prop :=
  (key b <= key a)%Qc.

Definition by_asc {A} (key : A -> Qc) (a b : A) : Prop :=
  (key a <= key b)%Qc.

(** The list Path B of [retrieve_context] scores, before the sort. *)
Definition lexical_scores (rows : list kb_row) (query : string)
    : list (Qc * option string) :=
  map (fun r => (overlap_score (word_set (lower query))
                   (word_set (lower (text_or_empty r))),
                 chunk_text r)) rows.

(** ** Sample worlds *)

(** A world without API key and with an empty store. *)
Definition offline_world : world :=
  mkWorld (fun _ _ => Ok []) None 0 (fun _ => None) (fun _ => None)
    (fun _ => "") "" (fun _ => Raise StoreError).

(** A world whose oracle answers every prompt with the given JSON value. *)
Definition oracle_world (reply : value) : world :=
  mkWorld (fun _ _ => Ok []) (Some (fun _ _ => Some reply)) 0
    (fun _ => None) (fun _ => None) (fun _ => "") "" (fun _ => Raise StoreError).

(** [column = ?] on a row, for text and integer values. *)
Definition where_eq (column : string) (v : value) (r : value) : bool :=
  match r with
  | VRow d =>
      match alookup column d, v with
      | Some (VStr x), VStr y => String.eqb x y
      | Some (VInt x), VInt y => Z.eqb x y
      | _, _ => false
      end
  | _ => false
  end.

(** A store with one customer, one order created on [created], one
    refundable product and, when [with_policy] holds, its refund policy
    (50 percent within 30 days); it answers the four point lookups of the
    refund sub-flow. *)
Definition sample_store (created : string) (with_policy : bool)
    (sql : string) (params : list value) : res (list value) :=
  let customers :=
    [VRow [("customer_id", VInt 7); ("email", VStr "ann@example.com");
           ("name", VStr "Ann")]] in
  let orders :=
    [VRow [("order_number", VStr "PO-1001"); ("customer_id", VInt 7);
           ("product_id", VInt 3); ("status", VStr "delivered");
           ("total_amount", VInt 1000); ("created_at", VStr created)]] in
  let products :=
    [VRow [("product_id", VInt 3); ("name", VStr "Journal access");
           ("is_refundable", VInt 1)]] in
  let refund_policies :=
    if with_policy
    then [VRow [("product_id", VInt 3); ("refund_window_days", VInt 30);
                ("refund_percentage", VInt 50)]]
    else [] in
  if String.eqb sql "SELECT * FROM customers WHERE email = ? LIMIT 1" then
    match params with
    | [e] => Ok (take 1 (filter (fun r => where_eq "email" e r) customers))
    | _ => Raise StoreError
    end
  else if String.eqb sql
    "SELECT * FROM orders WHERE order_number = ? AND customer_id = ? LIMIT 1"
  then
    match params with
    | [n; c] =>
        Ok (take 1 (filter (fun r => where_eq "order_number" n r
                                     && where_eq "customer_id" c r) orders))
    | _ => Raise StoreError
    end
  else if String.eqb sql "SELECT * FROM products WHERE product_id = ? LIMIT 1"
  then
    match params with
    | [i] => Ok (take 1 (filter (fun r => where_eq "product_id" i r) products))
    | _ => Raise StoreError
    end
  else if String.eqb sql
    "SELECT * FROM refund_policies WHERE product_id = ? LIMIT 1"
  then
    match params with
    | [i] =>
        Ok (take 1 (filter (fun r => where_eq "product_id" i r)
                      refund_policies))
    | _ => Raise StoreError
    end
  else Ok [].

(** A clock that reads 2026-11-03 (day 739923) and a parser that knows two
    timestamps: ten days and forty days before it. *)
Definition sample_strptime (s : string) : option (Z * Z) :=
  if String.eqb s "2026-10-24T09:30:00.000000" then Some (739913, 34200000000)
  else if String.eqb s "2026-09-24T18:00:00.000000"
  then Some (739883, 64800000000)
  else None.

Definition refund_world (created : string) (with_policy : bool) : world :=
  mkWorld (sample_store created with_policy) None 739923 sample_strptime
    (fun _ => None) (fun _ => "") "5f0c" (fun _ => Raise StoreError).

(** A refundable state for the sample order, with the fields VALIDATE
    sets. *)
Definition refundable_state : gmap string value :=
  mkdict [("run_id", VStr "run-1");
          ("customerEmailId", VStr "ann@example.com");
          ("purchaseOrderNumber", VStr "PO-1001");
          ("customer_id", VInt 7); ("product_id", VInt 3);
          ("is_refundable", VBool true); ("order_amount", VInt 1000)].

(** ** The pricing branch: rows and offers *)

(** The price the pricing branch sorts a product row by: its [base_price],
    or 0 when that is NULL or 0. *)
Definition price_of (r : value) : Qc :=
  match r with
  | VRow d =>
      match alookup "base_price" d with
      | Some bp =>
          match as_num bp with
          | Some q => if truthy bp then q else 0%Qc
          | None => 0%Qc
          end
      | None => 0%Qc
      end
  | _ => 0%Qc
  end.

(** A product row with a name and a numeric or NULL [base_price]. *)
Definition priced_row (r : value) : Prop :=
  exists d bp name,
    r = VRow d
    /\ alookup "base_price" d = Some bp
    /\ (bp = VNone \/ exists q, as_num bp = Some q)
    /\ alookup "name" d = Some name.

(** What the pricing branch puts into an offer for a product row. *)
Definition offer_for (disc max_disc approval_thr : Qc) (r offer : value)
    : Prop :=
  exists fields compliant,
    offer = VDict fields
    /\ alookup "discount_percent" fields = Some (VFloat (round2 disc))
    /\ alookup "compliant" fields = Some (VBool compliant)
    /\ (compliant = true <-> (disc <= max_disc)%Qc /\ (disc < approval_thr)%Qc)
    /\ alookup "total_price" fields
       = Some (VFloat (round2 (price_of r * (1 - disc / Qc_of_Z 100))%Qc)).

(** Six product rows and one pricing policy row (10 percent, threshold
    15). *)
Definition sample_products : list value :=
  [VRow [("product_id", VInt 1); ("name", VStr "Atlas"); ("base_price", VInt 900)];
   VRow [("product_id", VInt 2); ("name", VStr "Basic"); ("base_price", VInt 100)];
   VRow [("product_id", VInt 3); ("name", VStr "Core"); ("base_price", VInt 300)];
   VRow [("product_id", VInt 4); ("name", VStr "Duo"); ("base_price", VInt 200)];
   VRow [("product_id", VInt 5); ("name", VStr "Edge"); ("base_price", VNone)];
   VRow [("product_id", VInt 6); ("name", VStr "Flex"); ("base_price", VInt 500)]].

Definition sample_policy : list (string * value) :=
  [("policy_name", VStr "Standard list"); ("customer_tier", VStr "Standard");
   ("active", VInt 1); ("max_discount_percent", VInt 10);
   ("approval_threshold", VInt 15)].

(** ** A store for the sales lookups *)

(** Whether sqlite3 binds a value to a [?]: it binds [None], numbers and
    text, and raises on a sequence or a mapping. *)
Definition bindable (v : value) : bool :=
  match v with
  | VList _ | VDict _ | VRow _ => false
  | _ => true
  end.

(** A store with one active pricing policy for the tier Standard (10
    percent, threshold 15) and six products.  Like sqlite3 it raises on a
    bind value that is a sequence. *)
Definition sales_store (sql : string) (params : list value)
    : res (list value) :=
  if negb (forallb bindable params) then Raise StoreError
  else if String.eqb sql
    "SELECT * FROM pricing_policies WHERE customer_tier = ? AND active = 1"
  then
    match params with
    | [t] => Ok (filter (fun r => where_eq "customer_tier" t r)
                   [VRow sample_policy])
    | _ => Raise StoreError
    end
  else if String.eqb sql
    "SELECT product_id, name, base_price, category FROM products"
  then Ok sample_products
  else Ok [].

Definition sales_world : world :=
  mkWorld sales_store None 0 (fun _ => None) (fun _ => None) (fun _ => "")
    "" (fun _ => Raise StoreError).

(** A request for a quote, with the intent the sales classifier gives it. *)
Definition pricing_request : gmap string value :=
  mkdict [("run_id", VStr "run-1");
          ("email", VDict [("sender_email", VStr "ann@example.com");
                           ("subject", VStr "Quote");
                           ("body", VStr "Please send your best price")]);
          ("intent", VStr "Best price offer and bundling related query")].

(** ** Predicates of the refund sub-flow statements *)

(** The values of [customerEmailId] that EXTRACT replaces by the sender's
    address: the empty string and, after [strip().lower()], the three
    placeholders. *)
Definition is_placeholder (c : string) : bool :=
  String.eqb c ""
  || existsb (String.eqb (lower (strip c))) ["unidentified"; "unknown"; "n/a"].

(** The numeric confidence fields [finalize_node] averages. *)
Definition confidence_values (state : gmap string value) : list Qc :=
  omap as_num (map (fun k => state_get state k VNone) confidence_fields).

(** The steps of the refund sub-flow that follow EXTRACT. *)
Definition refund_tail : list node :=
  [refund_validation_node; create_refund_case_node; calculate_refund_node;
   refund_info_node].

(** The ways the lookups of VALIDATE fail to find a live order of the
    customer: no customer row, no order row, or an order whose status is
    ["cancelled"]. *)
Definition no_live_order (w : world) (email po : value) : Prop :=
  sql_rows w "SELECT * FROM customers WHERE email = ? LIMIT 1" [email] = Ok []
  \/ exists cust rest cid name,
       sql_rows w "SELECT * FROM customers WHERE email = ? LIMIT 1" [email]
       = Ok (cust :: rest)
       /\ subscript cust "customer_id" = Ok cid
       /\ subscript cust "name" = Ok name
       /\ (sql_rows w
             "SELECT * FROM orders WHERE order_number = ? AND customer_id = ? LIMIT 1"
             [po; cid] = Ok []
           \/ exists order rest' pid total,
                sql_rows w
                  "SELECT * FROM orders WHERE order_number = ? AND customer_id = ? LIMIT 1"
                  [po; cid] = Ok (order :: rest')
                /\ subscript order "product_id" = Ok pid
                /\ subscript order "status" = Ok (VStr "cancelled")
                /\ subscript order "total_amount" = Ok total).

(** ** Chunking of an uploaded document ([kb.py]) *)

(** [sep.join(ws)] *)
Fixpoint join (sep : string) (ws : list string) : string :=
  match ws with
  | [] => ""
  | [w] => w
  | w :: r => w +:+ sep +:+ join sep r
  end.

(** Where a slice bound lands in a sequence of length [len]: a negative
    bound counts from the end, and every bound is clamped to [0, len]. *)
Definition slice_index (len j : Z) : Z :=
  if j <? 0 then Z.max 0 (j + len) else Z.min j len.

(** [s[i:j]] *)
Definition py_slice (s : string) (i j : Z) : string :=
  let len := Z.of_nat (String.length s) in
  let a := slice_index len i in
  let b := slice_index len j in
  string_of_list_ascii
    (take (Z.to_nat (b - a)) (drop (Z.to_nat a) (list_ascii_of_string s))).

(** [" ".join(text.split())] *)
Definition normalize_spaces (text : string) : string := join " " (split text).

(** [max(1, chunk_size - overlap)] *)
Definition chunk_step (chunk_size overlap : Z) : Z :=
  Z.max 1 (chunk_size - overlap).

(** The [while i < len(text)] loop of [_chunk_text], from index [i]: the
    list of windows appended, or [None] when [fuel] iterations were not
    enough to leave the loop. *)
Fixpoint chunk_windows (fuel : nat) (text : string) (i chunk_size step : Z)
    : option (list string) :=
  if i <? Z.of_nat (String.length text) then
    match fuel with
    | O => None
    | S fuel' =>
        match chunk_windows fuel' text (i + step) chunk_size step with
        | Some rest => Some (py_slice text i (i + chunk_size) :: rest)
        | None => None
        end
    end
  else Some [].

(** [_chunk_text(text, chunk_size, overlap)] *)
Definition _chunk_text (fuel : nat) (text : string) (chunk_size overlap : Z)
    : option (list string) :=
  let text := normalize_spaces text in
  match chunk_windows fuel text 0 chunk_size (chunk_step chunk_size overlap)
  with
  | Some chunks => Some (List.filter nonblank chunks)
  | None => None
  end.

(** The characters of a string. *)
Definition chars (s : string) : list ascii := list_ascii_of_string s.

(** A non-empty run of characters none of which is whitespace. *)
Definition is_word (w : list ascii) : Prop :=
  w <> [] /\ Forall (fun c => is_space c = false) w.

(** Words separated by single spaces, as [" ".join(text.split())] builds
    them. *)
Inductive single_spaced : list ascii -> Prop :=
| spaced_word w : is_word w -> single_spaced w
| spaced_more w l :
    is_word w -> single_spaced l ->
    single_spaced (w ++ " "%char :: l)%list.

(** ** Input guardrails ([guardrails.py]) and the request handler *)

(** [s.replace("\x00", "")] *)
Fixpoint remove_nul (s : string) : string :=
  match s with
  | EmptyString => EmptyString
  | String c r =>
      if Ascii.eqb c zero then remove_nul r else String c (remove_nul r)
  end.

(** [sanitize_text(s)] *)
Definition sanitize_text (s : string) : string := strip (remove_nul s).

(** [INJECTION_PATTERNS], each with what [re.search] of it decides on a
    text: the first pattern is an alternation, the others are literal. *)
Definition INJECTION_PATTERNS : list (string * (string -> bool)) :=
  [("ignore (all|previous) instructions",
    fun low => contains "ignore all instructions" low
               || contains "ignore previous instructions" low);
   ("system prompt", contains "system prompt");
   ("developer message", contains "developer message");
   ("you are now", contains "you are now");
   ("act as", contains "act as");
   ("jailbreak", contains "jailbreak");
   ("do anything now", contains "do anything now")].

(** [basic_injection_check(text)] *)
Definition basic_injection_check (text : string) : bool * list string :=
  let low := lower text in
  let hits := map fst (List.filter (fun p => snd p low) INJECTION_PATTERNS) in
  (negb (Nat.eqb (length hits) 0), hits).

(** [str(hits)] for a list of pattern strings (none of them holds a quote
    or a backslash). *)
Definition repr_strs (l : list string) : string :=
  "[" +:+ join ", " (map (fun p => "'" +:+ p +:+ "'") l) +:+ "]".

Definition body_limit : nat := Z.to_nat 20000.

(** [guard_email_input(subject, body)] *)
Definition guard_email_input (subject body : string) : bool * list string :=
  let '(bad, hits) := basic_injection_check (subject +:+ nl +:+ body) in
  let flags :=
    app (if bad : bool
         then ["Possible prompt-injection patterns detected: "
               +:+ repr_strs hits]
         else [])
        (if (body_limit <? String.length body)%nat
         then ["Body too large; truncated."]
         else []) in
  (Nat.eqb (length flags) 0, flags).

(** The state [chat()] builds from the validated fields of the request
    and hands to the graph. *)
Definition chat_state (run_id sender subject body : string)
    : gmap string value :=
  let subject := sanitize_text subject in
  let body := sanitize_text body in
  let '(ok, flags) := guard_email_input subject body in
  initial_state run_id sender subject
    (if (String.length body <=? body_limit)%nat then body
     else py_slice body 0 (Z.of_nat body_limit))
    ok flags.

(** [l] without its leading whitespace. *)
Fixpoint lstrip_chars (l : list ascii) : list ascii :=
  match l with
  | [] => []
  | c :: r => if is_space c then lstrip_chars r else l
  end.

(** ** Reference lists of an answer ([answer_generator.py]) *)

(** [(u or "").strip()] *)
Definition clean_url (u : option string) : string := strip (default "" u).

(** The loop of [_dedupe]: [seen] is the set, [out] the list built so
    far. *)
Fixpoint dedupe_loop (urls : list (option string)) (seen : gset string)
    (out : list string) : list string :=
  match urls with
  | [] => out
  | u :: rest =>
      let u := clean_url u in
      if String.eqb u "" then dedupe_loop rest seen out
      else if decide (u ∈ seen) then dedupe_loop rest seen out
      else dedupe_loop rest ({[u]} ∪ seen) (app out [u])
  end.

(** [_dedupe(urls)]; [urls] may be [None]. *)
Definition _dedupe (urls : option (list (option string))) : list string :=
  dedupe_loop (default [] urls) ∅ [].

(** ** Intent identification after retrieval *)







(** ** The ticket log *)

Definition upper_ascii (c : ascii) : ascii :=
  let n := N_of_ascii c in
  if ((97 <=? n) && (n <=? 122))%N then ascii_of_N (n - 32) else c.

(** [s.upper()] *)
Fixpoint upper (s : string) : string :=
  match s with
  | EmptyString => EmptyString
  | String c r => String (upper_ascii c) (upper r)
  end.

(** The double quote. *)
Definition dq : string := String (ascii_of_nat 34) EmptyString.

(** ["k" in cols] for a string literal [k]. *)
Definition col_in (k : string) (cols : list value) : bool :=
  existsb (fun c => eq_str c k) cols.

(** ["Sales" if route=="sales" else "Support" if route=="support" else
    "Other"] *)
Definition ticket_category (route : value) : string :=
  if eq_str route "sales" then "Sales"
  else if eq_str route "support" then "Support"
  else "Other".

(** The columns [ticket_node] knows how to fill, in the order it fills
    them. *)
Definition ticket_columns : list string :=
  ["ticket_id"; "ticket_number"; "customer_email"; "email_subject";
   "email_content"; "category"; "status"; "priority"; "created_at";
   "updated_at"].

(** One [if "k" in cols: data["k"] = v] statement: [data] with the entry
    appended when the column exists. *)
Definition fill (k : string) (cols : list value)
    (data : list (string * value)) (v : M value)
    : M (list (string * value)) :=
  if col_in k cols then x <- v ;; ret (app data [(k, x)]) else ret data.

(** The statements of [ticket_node] that build [data].  The imports inside
    the function make [uuid] and [time] local variables of it; [ids] are the
    texts of the two UUIDs drawn, [now] the two readings of the clock. *)
Definition ticket_data (ids now : string * string) (email route : value)
    (cols : list value) : M (list (string * value)) :=
  data <- fill "ticket_id" cols []
            (assign "uuid" (VStr "module uuid") ;;;
             _ <- load "uuid" ;;
             ret (VStr (fst ids))) ;;
  data <- fill "ticket_number" cols data
            (_ <- load "uuid" ;;
             ret (VStr ("TCK-" +:+ upper (py_slice (snd ids) 0 8)))) ;;
  data <- fill "customer_email" cols data (subscript email "sender_email") ;;
  data <- fill "email_subject" cols data (subscript email "subject") ;;
  data <- fill "email_content" cols data (subscript email "body") ;;
  data <- fill "category" cols data (ret (VStr (ticket_category route))) ;;
  data <- fill "status" cols data (ret (VStr "OPEN")) ;;
  data <- fill "priority" cols data (ret (VStr "MEDIUM")) ;;
  data <- fill "created_at" cols data
            (assign "time" (VStr "module time") ;;;
             _ <- load "time" ;;
             ret (VStr (fst now))) ;;
  fill "updated_at" cols data
    (assign "time" (VStr "module time") ;;;
     _ <- load "time" ;;
     ret (VStr (snd now))).

(** The INSERT statement for the keys of [data]. *)
Definition ticket_insert (keys : list string) : string :=
  "INSERT INTO tickets ("
  +:+ join ", " (map (fun k => dq +:+ k +:+ dq) keys)
  +:+ ") VALUES ("
  +:+ join ", " (map (fun _ => "?") keys)
  +:+ ")".

(** [ticket_node] *)
Definition ticket_node (ids now : string * string) : node := fun w state =>
  email <- state_item state "email" ;;
  let route := state_get state "route" (VStr "other") in
  info <- lift (sql_rows w "PRAGMA table_info(tickets)" []) ;;
  cols <- mapM (fun r => lift (subscript r "name")) info ;;
  data <- ticket_data ids now email route cols ;;
  evidence <-
    match data with
    | [] => ret []
    | _ =>
        _ <- lift (sql_rows w (ticket_insert (map fst data)) (map snd data)) ;;
        ret ["Inserted ticket with fields: " +:+ repr_strs (map fst data)]
    end ;;
  let logged := match evidence with [] => false | _ => true end in
  run_id <- state_item state "run_id" ;;
  log_step run_id "ticket_log" (VDict [("route", route)])
    (VDict [("ticket_logged", VBool logged)])
    (if logged then dec 85 100 else dec 4 10) evidence ;;;
  ret (Some (_merged state
    (mkdict [("ticket_logged", VBool logged);
             ("ticket_evidence", VList (map VStr evidence))]))).

(** ** Predicates of the end-to-end statements *)


(** * Properties *)

Local Open Scope list_scope.

Arguments _merged : simpl never.
Arguments mkdict : simpl never.
Arguments initial_state : simpl never.
Arguments support_heuristic : simpl never.
Arguments heuristic_text : simpl never.
Arguments lower : simpl never.
Arguments top_path_map : simpl never.
Arguments support_path_map : simpl never.
Arguments sales_path_map : simpl never.
Arguments dec : simpl never.
Arguments py_str : simpl never.
Arguments in_strs : simpl never.
Arguments keyword_category : simpl never.
Arguments category_of : simpl never.
Arguments route_of : simpl never.
Arguments truthy : simpl never.

(** ** Running a computation step by step *)

Section Outcome.
Context {A B : Type}.

Lemma outcome_bind (c : M A) (k : A -> M B) st (Q : res B -> pstate -> Prop) :
  outcome c st (fun r st' =>
    match r with
    | Ok a => outcome (k a) st' Q
    | Raise e => Q (Raise e) st'
    end) ->
  outcome (bind c k) st Q.
Proof. unfold outcome, bind. destruct (c st) as [[a|e] st']; auto. Qed.

Lemma outcome_try (body : M B) (h : exn -> M B) st
    (Q : res B -> pstate -> Prop) :
  outcome body st (fun r st' =>
    match r with
    | Ok a => Q (Ok a) st'
    | Raise e => outcome (h e) st' Q
    end) ->
  outcome (try_except body h) st Q.
Proof. unfold outcome, try_except. destruct (body st) as [[a|e] st']; auto. Qed.

Lemma outcome_lift (r : res B) st (Q : res B -> pstate -> Prop) :
  Q r st -> outcome (lift r) st Q.
Proof. auto. Qed.

Lemma outcome_ret (b : B) st (Q : res B -> pstate -> Prop) :
  Q (Ok b) st -> outcome (ret b) st Q.
Proof. auto. Qed.

Lemma outcome_raise e st (Q : res B -> pstate -> Prop) :
  Q (Raise e) st -> outcome (raise e) st Q.
Proof. auto. Qed.

End Outcome.

Lemma outcome_assign x v st (Q : res unit -> pstate -> Prop) :
  Q (Ok tt) (mkPstate ((x, v) :: locals st) (audit st)) ->
  outcome (assign x v) st Q.
Proof. auto. Qed.

Lemma outcome_load x st (Q : res value -> pstate -> Prop) :
  match alookup x (locals st) with
  | Some v => Q (Ok v) st
  | None => Q (Raise (UnboundLocalError x)) st
  end ->
  outcome (load x) st Q.
Proof. unfold outcome, load. destruct (alookup x (locals st)); auto. Qed.

Lemma outcome_log_step run_id name inp out conf ev st
    (Q : res unit -> pstate -> Prop) :
  Q (Ok tt)
    (mkPstate (locals st)
       (audit st ++ [mkEvent run_id name inp out conf ev])) ->
  outcome (log_step run_id name inp out conf ev) st Q.
Proof. auto. Qed.

(** What the engine sees of a node is the outcome of its body run from a
    fresh frame. *)
Lemma call_outcome (n : node) w s log
    (Q : res (option (gmap string value)) -> list event -> Prop) :
  outcome (n w s) (mkPstate [] log) (fun r st' => Q r (audit st')) ->
  Q (call n w s log).1 (call n w s log).2.
Proof. unfold outcome, call. destruct (n w s _) as [r st']. auto. Qed.

Lemma state_item_get s k v d : state_item s k = Ok v -> state_get s k d = v.
Proof.
  unfold state_item, state_get. destruct (s !! k); congruence.
Qed.

Lemma state_item_lookup s k v : state_item s k = Ok v <-> s !! k = Some v.
Proof.
  unfold state_item. destruct (s !! k); split; congruence.
Qed.

Lemma state_item_missing s k : s !! k = None -> state_item s k = Raise (KeyError k).
Proof. unfold state_item. by intros ->. Qed.

Create HintDb py_blocks.
#[local] Hint Unfold heuristic_intent_step email_text prompt_reads
  validation_output refund_validation_try refund_validation_except
  calculate_refund_try calculate_refund_except : py_blocks.

(** One step of the run: the head of the computation decides the rule; the
    result of a pure operation is split into its two cases unless the
    context already tells it. *)
Ltac wp_step :=
  lazymatch goal with
  | |- outcome (bind _ _) _ _ => apply outcome_bind
  | |- outcome (try_except _ _) _ _ => apply outcome_try
  | |- outcome (ret _) _ _ => apply outcome_ret
  | |- outcome (raise _) _ _ => apply outcome_raise
  | |- outcome (assign _ _) _ _ => apply outcome_assign
  | |- outcome (load _) _ _ =>
      apply outcome_load;
      cbn [locals audit alookup String.eqb Ascii.eqb Bool.eqb]
  | |- outcome (log_step _ _ _ _ _ _) _ _ => apply outcome_log_step
  | |- outcome (lift ?r) _ _ =>
      apply outcome_lift;
      first [ match goal with H : r = _ |- _ => rewrite H end
            | destruct r eqn:? ]
  | |- outcome (if ?b then _ else _) _ _ =>
      first [ match goal with H : b = _ |- _ => rewrite H end
            | destruct b eqn:? ]
  | |- outcome (match ?x with _ => _ end) _ _ =>
      first [ match goal with H : x = _ |- _ => rewrite H end
            | destruct x eqn:? ]
  | |- outcome _ _ _ => progress autounfold with py_blocks
  end.

Ltac wp := repeat (cbn [locals audit]; wp_step); cbn [locals audit].

(** ** State merge *)

Section Merge.
Implicit Types (s u : gmap string value) (k : string).

Lemma merged_lookup_in s u k v :
  u !! k = Some v -> _merged s u !! k = Some v.
Proof. intros H. unfold _merged. by apply lookup_union_Some_l. Qed.

Lemma merged_lookup_notin s u k :
  u !! k = None -> _merged s u !! k = s !! k.
Proof. intros H. unfold _merged. by rewrite lookup_union_r. Qed.

Lemma merged_dom s u : dom (_merged s u) = dom u ∪ dom s.
Proof. unfold _merged. apply dom_union_L. Qed.

(** C9. The merge is a key-wise overwrite that keeps every key of the state:
    keys of [s] stay keys of the merged state, a key that [u] does not
    mention keeps the value it had in [s], a key that [u] mentions takes the
    value [u] gives it, and no key that was set is lost. *)
Theorem merged_keywise_overwrite s u :
  dom s ⊆ dom (_merged s u)
  /\ (forall k, u !! k = None -> _merged s u !! k = s !! k)
  /\ (forall k v, u !! k = Some v -> _merged s u !! k = Some v)
  /\ (forall k, is_Some (s !! k) -> is_Some (_merged s u !! k)).
Proof.
  split; [rewrite merged_dom; set_solver|].
  split; [intros k; apply merged_lookup_notin|].
  split; [intros k v; apply merged_lookup_in|].
  intros k [x Hx]. destruct (u !! k) as [v|] eqn:Hu.
  - exists v. by apply merged_lookup_in.
  - exists x. by rewrite merged_lookup_notin.
Qed.

Lemma list_to_map_alookup (l : list (string * value)) k :
  (list_to_map l : gmap string value) !! k = alookup k l.
Proof.
  induction l as [|[k' v] l IH]; simpl; [apply lookup_empty|].
  destruct (String.eqb_spec k k') as [->|Hne].
  - apply lookup_insert_eq.
  - rewrite lookup_insert_ne; [apply IH|congruence].
Qed.

Lemma mkdict_lookup kvs k : mkdict kvs !! k = alookup k (rev kvs).
Proof. unfold mkdict. apply list_to_map_alookup. Qed.

(** Reading a key of a merged state whose update is a dict display. *)
Lemma merged_mkdict_lookup s kvs k :
  _merged s (mkdict kvs) !! k =
  match alookup k (rev kvs) with Some v => Some v | None => s !! k end.
Proof.
  destruct (alookup k (rev kvs)) as [v|] eqn:H.
  - apply merged_lookup_in. by rewrite mkdict_lookup.
  - apply merged_lookup_notin. by rewrite mkdict_lookup.
Qed.

End Merge.

Lemma initial_state_lookup run_id sender subject body ok flags k :
  initial_state run_id sender subject body ok flags !! k =
  alookup k
    [("guardrails", VDict [("ok", VBool ok); ("flags", VList (map VStr flags))]);
     ("email", VDict [("sender_email", VStr sender); ("subject", VStr subject);
                      ("body", VStr body)]);
     ("run_id", VStr run_id)].
Proof. unfold initial_state. by rewrite mkdict_lookup. Qed.

Lemma initial_email_well_formed sender subject body :
  well_formed_email
    (VDict [("sender_email", VStr sender); ("subject", VStr subject);
            ("body", VStr body)]) subject body.
Proof. eexists. split; [reflexivity|]. split; reflexivity. Qed.

(** ** Classification and routing *)

Section Routing.
Variable w : world.
Implicit Types (s : gmap string value) (log : list event).

Lemma email_text_ok email subject body st :
  well_formed_email email subject body ->
  email_text email st = (Ok (heuristic_text subject body), st).
Proof.
  intros (d & -> & Hs & Hb). unfold email_text, bind, subscript.
  rewrite Hs. cbn. rewrite Hb. reflexivity.
Qed.

Lemma heuristic_intent_step_ok s email inp subject body run_id st :
  well_formed_email email subject body ->
  s !! "run_id" = Some run_id ->
  heuristic_intent_step s email inp st =
  let '(intent, conf, rationale) :=
    support_heuristic (heuristic_text subject body) in
  (Ok (Some (_merged s
     (mkdict [("intent", VStr intent); ("intent_confidence", VFloat conf);
              ("intent_rationale", VStr rationale)]))),
   mkPstate (locals st)
     (audit st ++ [mkEvent run_id "support_intent" inp
        (VDict [("intent", VStr intent); ("rationale", VStr rationale)])
        conf ["heuristic intent"]])).
Proof.
  intros He Hr. unfold heuristic_intent_step, bind at 1.
  rewrite (email_text_ok _ _ _ _ He).
  destruct (support_heuristic _) as [[intent conf] rationale].
  unfold bind, state_item. rewrite Hr. reflexivity.
Qed.

(** The fallback path of the wired classifier: intent, confidence and
    rationale are merged; the category is not part of the update. *)
Lemma classify_node_fallback s log email subject body run_id :
  chat_model w = None ->
  s !! "email" = Some email ->
  well_formed_email email subject body ->
  s !! "run_id" = Some run_id ->
  call classify_node w s log =
  let '(intent, conf, rationale) :=
    support_heuristic (heuristic_text subject body) in
  (Ok (Some (_merged s
     (mkdict [("intent", VStr intent); ("intent_confidence", VFloat conf);
              ("intent_rationale", VStr rationale)]))),
   log ++ [mkEvent run_id "support_intent" (VDict [("email", email)])
        (VDict [("intent", VStr intent); ("rationale", VStr rationale)])
        conf ["heuristic intent"]]).
Proof.
  intros Hm He Hw Hr. unfold call, classify_node, bind at 1, state_item.
  rewrite He. cbn. rewrite Hm.
  rewrite (heuristic_intent_step_ok _ _ _ _ _ _ _ Hw Hr).
  by destruct (support_heuristic _) as [[intent conf] rationale].
Qed.

Lemma route_node_run s log run_id :
  s !! "run_id" = Some run_id ->
  call route_node w s log =
  let cat := state_get s "category" (VStr "Other") in
  let conf :=
    if existsb (String.eqb (route_of cat)) ["sales"; "support"] then dec 9 10
    else dec 6 10 in
  (Ok (Some (_merged s
    (mkdict [("route", VStr (route_of cat));
             ("route_confidence", VFloat conf)]))),
   log ++ [mkEvent run_id "route" (VDict [("category", cat)])
    (VDict [("route", VStr (route_of cat))]) conf
    ["mapped " +:+ py_str w cat +:+ " -> " +:+ route_of cat]]).
Proof.
  intros Hr. unfold call, route_node, bind, state_item. rewrite Hr. reflexivity.
Qed.

End Routing.

Section Classification.
Variable w : world.
Implicit Types (s : gmap string value) (log : list event).

Lemma prompt_reads_ok email subject body st :
  well_formed_email email subject body ->
  prompt_reads email st = (Ok tt, st).
Proof.
  intros (d & -> & Hs & Hb). unfold prompt_reads, bind, subscript.
  rewrite Hs. cbn. rewrite Hb. reflexivity.
Qed.

(** The oracle path of the wired classifier: the intent is one of the
    allowed intents or ["General"], and the category is derived from it. *)
Lemma classify_node_oracle s log model email subject body run_id :
  chat_model w = Some model ->
  s !! "email" = Some email ->
  well_formed_email email subject body ->
  s !! "run_id" = Some run_id ->
  exists intent conf rationale,
    call classify_node w s log =
      (Ok (Some (_merged s
         (mkdict [("category", VStr (category_of intent)); ("intent", intent);
                  ("intent_confidence", VFloat conf);
                  ("category_confidence", VFloat conf);
                  ("intent_rationale", VStr rationale)]))),
       log ++ [mkEvent run_id "support_intent" (VDict [("email", email)])
                 (VDict [("intent", intent); ("rationale", VStr rationale)])
                 conf ["LLM + KB"]])
    /\ (in_strs intent (support_intent_list ++ sales_intent_list) = true
        \/ intent = VStr "General").
Proof.
  intros Hm He Hw Hr. unfold call, classify_node, bind at 1, state_item.
  rewrite He. cbn. rewrite Hm. unfold bind at 1.
  rewrite (prompt_reads_ok _ _ _ _ Hw).
  assert (Hgeneral : forall st : pstate,
    exists intent conf rationale,
      (let '(r, st') :=
         (run_id0 <- state_item s "run_id" ;;
          log_step run_id0 "support_intent" (VDict [("email", email)])
            (VDict [("intent", VStr "General");
                    ("rationale",
                     VStr "Could not parse model output; defaulted.")])
            (dec 55 100) ["LLM + KB"] ;;;
          ret (Some (_merged s
            (mkdict [("category", VStr (category_of (VStr "General")));
                     ("intent", VStr "General");
                     ("intent_confidence", VFloat (dec 55 100));
                     ("category_confidence", VFloat (dec 55 100));
                     ("intent_rationale",
                      VStr "Could not parse model output; defaulted.")]))))%py
           st in (r, audit st'))
      = (Ok (Some (_merged s
           (mkdict [("category", VStr (category_of intent));
                    ("intent", intent);
                    ("intent_confidence", VFloat conf);
                    ("category_confidence", VFloat conf);
                    ("intent_rationale", VStr rationale)]))),
         audit st ++ [mkEvent run_id "support_intent"
                        (VDict [("email", email)])
                        (VDict [("intent", intent);
                                ("rationale", VStr rationale)])
                        conf ["LLM + KB"]])
      /\ (in_strs intent (support_intent_list ++ sales_intent_list) = true
          \/ intent = VStr "General")).
  { intros st. exists (VStr "General"), (dec 55 100). eexists. split.
    - unfold bind, state_item. rewrite Hr. reflexivity.
    - by right. }
  unfold bind at 1, try_except.
  destruct (model "intent" email) as [data|]; cbn;
    [| apply (Hgeneral (mkPstate [] log))].
  destruct data as [| | | | | | |d|]; cbn;
    try apply (Hgeneral (mkPstate [] log)).
  set (i := match alookup "intent" d with Some v => v | None => VStr "General" end).
  set (c := match alookup "confidence" d with
            | Some v => v | None => VFloat (dec 6 10) end).
  set (r := match alookup "rationale" d with Some v => v | None => VStr "" end).
  unfold bind at 1, lift at 1.
  destruct (py_float w c) as [q|e]; cbn; [| apply (Hgeneral (mkPstate [] log))].
  exists (if negb (in_strs i (support_intent_list ++ sales_intent_list))
          then VStr "General" else i), q, (py_str w r).
  split.
  - unfold bind, state_item. rewrite Hr. reflexivity.
  - destruct (in_strs i _) eqn:Hi; cbn; [left; exact Hi | by right].
Qed.

(** What [classify_node_1] does without a chat model: the email falls into
    one of three categories by keywords, and the category is merged. *)
Lemma classify_node_1_fallback s log email subject body run_id :
  chat_model w = None ->
  s !! "email" = Some email ->
  well_formed_email email subject body ->
  s !! "run_id" = Some run_id ->
  let '(category, conf) := keyword_category (heuristic_text subject body) in
  call classify_node_1 w s log =
    (Ok (Some (_merged s
       (mkdict [("category", VStr category);
                ("category_confidence", VFloat conf)]))),
     log ++ [mkEvent run_id "classify" email
               (VDict [("category", VStr category);
                       ("confidence", VFloat conf)])
               conf ["rule-based keywords"]])
  /\ In (category, conf)
        [("Support Type", dec 78 100); ("Sales Type", dec 76 100);
         ("Other", dec 55 100)].
Proof.
  intros Hm He Hw Hr.
  destruct (keyword_category _) as [category conf] eqn:Hk.
  split.
  - unfold call, classify_node_1, bind at 1, state_item.
    rewrite He. cbn. rewrite Hm. unfold bind at 1.
    rewrite (email_text_ok _ _ _ _ Hw). rewrite Hk.
    unfold bind. rewrite Hr. reflexivity.
  - unfold keyword_category in Hk.
    destruct (any_in _ _); [inversion Hk; simpl; auto|].
    destruct (any_in _ _); inversion Hk; simpl; auto.
Qed.

End Classification.

(** ** Routing in the compiled graphs *)

Section Dispatch.
Variable w : world.
Implicit Types (s : gmap string value) (log : list event).

Lemma route_of_cases cat :
  route_of cat = "sales" /\ eq_str cat "Sales Type" = true
  \/ route_of cat = "support" /\ eq_str cat "Sales Type" = false
     /\ eq_str cat "Support Type" = true
  \/ route_of cat = "other".
Proof.
  unfold route_of. destruct (eq_str cat "Sales Type"); [by left|].
  destruct (eq_str cat "Support Type"); [right; left; done | by right; right].
Qed.

(** The top-level fan-out after [route_node]. *)
Lemma route_dispatch_run s log run_id :
  s !! "run_id" = Some run_id ->
  exists s' log',
    dispatch route_node top_after_route top_path_map w s log =
      (Ok (match route_of (state_get s "category" (VStr "Other")) with
           | "sales" => "sales"
           | "support" => "support"
           | _ => "unknown"
           end, s'), log')
    /\ s' !! "route"
       = Some (VStr (route_of (state_get s "category" (VStr "Other"))))
    /\ (forall k, k <> "route" -> k <> "route_confidence" ->
        s' !! k = s !! k).
Proof.
  intros Hr. unfold dispatch, run_node. rewrite (route_node_run w s log _ Hr).
  cbv zeta. unfold top_after_route, state_get at 1.
  rewrite merged_mkdict_lookup. cbn [rev app alookup String.eqb Ascii.eqb Bool.eqb].
  assert (Hfr : forall k, k <> "route" -> k <> "route_confidence" ->
            forall r c, _merged s (mkdict [("route", r); ("route_confidence", c)])
                          !! k = s !! k).
  { intros k H1 H2 r c. rewrite merged_mkdict_lookup. cbn.
    destruct (String.eqb_spec k "route_confidence"); [done|].
    destruct (String.eqb_spec k "route"); done. }
  destruct (route_of_cases (state_get s "category" (VStr "Other")))
    as [ [-> _] | [ (-> & _ & _) | -> ] ];
    (eexists _, _; split; [reflexivity|]; split;
     [rewrite merged_mkdict_lookup; reflexivity
     | intros k H1 H2; by apply Hfr]).
Qed.

(** An intent of the allow-list has a branch in the sub-graph's path map. *)
Lemma support_intent_mapped v :
  in_strs v support_intent_list = true ->
  exists target, branch_target w support_path_map v = Ok target.
Proof.
  destruct v as [| | | |x| | | |]; try discriminate.
  unfold in_strs, support_intent_list. cbn [existsb eq_str].
  intros H. repeat (apply orb_prop in H as [H|H];
    [apply String.eqb_eq in H as ->; eexists; reflexivity|]).
  discriminate.
Qed.

Lemma sales_intent_mapped v :
  in_strs v sales_intent_list = true ->
  exists target, branch_target w sales_path_map v = Ok target.
Proof.
  destruct v as [| | | |x| | | |]; try discriminate.
  unfold in_strs, sales_intent_list. cbn [existsb eq_str].
  intros H. repeat (apply orb_prop in H as [H|H];
    [apply String.eqb_eq in H as ->; eexists; reflexivity|]).
  discriminate.
Qed.

(** A sub-router copies the intent into [route] and dispatches on it. *)
Lemma intent_dispatch_run default allow after path_map s log run_id intent :
  s !! "run_id" = Some run_id ->
  s !! "intent" = Some intent ->
  (forall s', after s' = state_get s' "route" (VStr default)) ->
  dispatch (intent_route_node default allow) after path_map w s log =
    match branch_target w path_map intent with
    | Ok target =>
        (Ok (target,
             _merged s (mkdict [("route", intent);
                                ("route_confidence", VFloat 1%Qc)])),
         log ++ [mkEvent run_id "route"
                   (VDict [("category", state_get s "category" (VStr "Other"))])
                   (VDict [("route", intent);
                           ("rationale",
                            VStr ("Mapped from intent " +:+ py_str w intent))])
                   (if in_strs intent allow then dec 9 10 else dec 3 10)
                   ["mapped "
                    +:+ py_str w (state_get s "category" (VStr "Other"))
                    +:+ " -> " +:+ py_str w intent]])
    | Raise e =>
        (Raise e,
         log ++ [mkEvent run_id "route"
                   (VDict [("category", state_get s "category" (VStr "Other"))])
                   (VDict [("route", intent);
                           ("rationale",
                            VStr ("Mapped from intent " +:+ py_str w intent))])
                   (if in_strs intent allow then dec 9 10 else dec 3 10)
                   ["mapped "
                    +:+ py_str w (state_get s "category" (VStr "Other"))
                    +:+ " -> " +:+ py_str w intent]])
    end.
Proof.
  intros Hr Hi Hafter.
  assert (Hget : state_get s "intent" (VStr default) = intent)
    by (unfold state_get; by rewrite Hi).
  unfold dispatch, run_node, call, intent_route_node, bind, state_item.
  rewrite Hr, !Hget. cbn. rewrite Hafter. unfold state_get at 1.
  rewrite merged_mkdict_lookup. cbn [rev app alookup String.eqb Ascii.eqb Bool.eqb].
  destruct (branch_target w path_map intent); reflexivity.
Qed.

End Dispatch.

Section TopLevel.
Variable w : world.
Implicit Types (s : gmap string value) (log : list event).

(** Without a chat model the wired classifier leaves the category as it
    was and sets the intent fields. *)
Lemma classify_fallback_frame s log s1 l1 :
  chat_model w = None ->
  call classify_node w s log = (Ok (Some s1), l1) ->
  s1 !! "category" = s !! "category"
  /\ is_Some (s1 !! "intent")
  /\ is_Some (s1 !! "intent_confidence").
Proof.
  intros Hm. unfold call, classify_node, bind at 1, state_item.
  destruct (s !! "email") as [email|]; cbn; [|discriminate].
  rewrite Hm. unfold heuristic_intent_step, bind at 1.
  destruct (email_text email _) as [[t|e] st']; [|discriminate].
  destruct (support_heuristic t) as [[i c] r].
  unfold bind, state_item. destruct (s !! "run_id"); cbn; [|discriminate].
  intros [= <- <-]. rewrite !merged_mkdict_lookup. cbn. eauto.
Qed.

(** The outcome of classify -> route -> fan-out on the state [app.py]
    builds: with no chat model the unknown branch, otherwise the branch of
    the category derived from the oracle's intent. *)
Lemma top_dispatch_initial run_id sender subject body ok flags log :
  exists target s1 l1,
    top_dispatch w (initial_state run_id sender subject body ok flags) log
      = (Ok (target, s1), l1)
    /\ s1 !! "run_id" = Some (VStr run_id)
    /\ (chat_model w = None /\ target = "unknown"
        /\ s1 !! "category" = None
        /\ s1 !! "route" = Some (VStr "other")
        /\ is_Some (s1 !! "intent")
        /\ is_Some (s1 !! "intent_confidence")
        \/ exists intent,
             chat_model w <> None
             /\ s1 !! "intent" = Some intent
             /\ target = match route_of (VStr (category_of intent)) with
                         | "sales" => "sales"
                         | "support" => "support"
                         | _ => "unknown"
                         end).
Proof.
  set (s0 := initial_state run_id sender subject body ok flags).
  assert (He : s0 !! "email" = Some (VDict
            [("sender_email", VStr sender); ("subject", VStr subject);
             ("body", VStr body)]))
    by (unfold s0; by rewrite initial_state_lookup).
  assert (Hr : s0 !! "run_id" = Some (VStr run_id))
    by (unfold s0; by rewrite initial_state_lookup).
  assert (Hc : s0 !! "category" = None)
    by (unfold s0; by rewrite initial_state_lookup).
  pose proof (initial_email_well_formed sender subject body) as Hw.
  unfold top_dispatch, run_node.
  destruct (chat_model w) as [model|] eqn:Hm.
  - destruct (classify_node_oracle w s0 log model _ _ _ _ Hm He Hw Hr)
      as (intent & conf & rationale & -> & _).
    match goal with
    | |- context [dispatch _ _ _ _ ?s ?l] =>
        destruct (route_dispatch_run w s l (VStr run_id))
          as (s' & l' & -> & Hroute & Hframe)
    end.
    { rewrite merged_mkdict_lookup. cbn. exact Hr. }
    unfold state_get. rewrite merged_mkdict_lookup. cbn.
    eexists _, _, _. split; [reflexivity|]. split.
    + rewrite Hframe by done. rewrite merged_mkdict_lookup. cbn. exact Hr.
    + right. exists intent. split; [done|]. split; [|reflexivity].
      rewrite Hframe by done. rewrite merged_mkdict_lookup. reflexivity.
  - rewrite (classify_node_fallback w s0 log _ _ _ _ Hm He Hw Hr).
    destruct (support_heuristic _) as [[i c] r].
    match goal with
    | |- context [dispatch _ _ _ _ ?s ?l] =>
        destruct (route_dispatch_run w s l (VStr run_id))
          as (s' & l' & -> & Hroute & Hframe)
    end.
    { rewrite merged_mkdict_lookup. cbn. exact Hr. }
    revert Hroute. unfold state_get. rewrite merged_mkdict_lookup. cbn.
    rewrite Hc. intros Hroute.
    eexists _, _, _. split; [reflexivity|]. split.
    + rewrite Hframe by done. rewrite merged_mkdict_lookup. cbn. exact Hr.
    + left. split; [done|]. split; [reflexivity|].
      split; [rewrite Hframe by done; rewrite merged_mkdict_lookup;
              cbn; exact Hc|].
      split; [exact Hroute|].
      split; (rewrite Hframe by done; rewrite merged_mkdict_lookup; cbn; eauto).
Qed.

(** C10. With no chat model configured, the classifier wired into the
    top-level graph sets the intent and its confidence and leaves the
    category unset; on every run started from the state the API layer
    builds, the route node therefore writes the route ["other"] and the
    fan-out takes the unknown branch, never the sales or support
    sub-graph. *)
Theorem fallback_runs_take_unknown_branch :
  chat_model w = None ->
  (forall s log s1 l1,
     call classify_node w s log = (Ok (Some s1), l1) ->
     s1 !! "category" = s !! "category"
     /\ is_Some (s1 !! "intent")
     /\ is_Some (s1 !! "intent_confidence"))
  /\ (forall run_id sender subject body ok flags log,
        exists s1 l1,
          top_dispatch w (initial_state run_id sender subject body ok flags)
            log = (Ok ("unknown", s1), l1)
          /\ s1 !! "category" = None
          /\ s1 !! "route" = Some (VStr "other")
          /\ is_Some (s1 !! "intent")
          /\ is_Some (s1 !! "intent_confidence")).
Proof.
  intros Hm. split.
  - intros s log s1 l1. by apply classify_fallback_frame.
  - intros run_id sender subject body ok flags log.
    destruct (top_dispatch_initial run_id sender subject body ok flags log)
      as (target & s1 & l1 & Heq & _ & [(_ & -> & H)|(i & Hne & _)]).
    + by exists s1, l1.
    + congruence.
Qed.

End TopLevel.

Lemma fallback_runs_take_unknown_branch_witness :
  chat_model offline_world = None
  /\ exists s1 l1,
       top_dispatch offline_world
         (initial_state "run-1" "ann@example.com" "Refund"
            "Please refund my order" true []) []
       = (Ok ("unknown", s1), l1)
       /\ s1 !! "category" = None.
Proof.
  split; [reflexivity|].
  destruct (fallback_runs_take_unknown_branch offline_world eq_refl) as [_ H].
  destruct (H "run-1" "ann@example.com" "Refund" "Please refund my order"
              true [] []) as (s1 & l1 & Heq & Hc & _).
  exists s1, l1. split; assumption.
Defined.

(** C7. Evaluation of the wired classifier without a chat model on an email
    with a support keyword: it merges the intent ["Refund request"] with
    confidence 0.78 and records no category and no category confidence,
    where [classify_node_1] on the same state records the category
    ["Support Type"] with confidence 0.78. *)
Theorem classify_node_fallback_records_no_category :
  let s0 := initial_state "run-1" "ann@example.com" "Refund"
              "Please refund my order" true [] in
  (exists s1 l1,
     call classify_node offline_world s0 [] = (Ok (Some s1), l1)
     /\ s1 !! "category" = None
     /\ s1 !! "category_confidence" = None
     /\ s1 !! "intent" = Some (VStr "Refund request")
     /\ s1 !! "intent_confidence" = Some (VFloat (dec 78 100)))
  /\ (exists s2 l2,
        call classify_node_1 offline_world s0 [] = (Ok (Some s2), l2)
        /\ s2 !! "category" = Some (VStr "Support Type")
        /\ s2 !! "category_confidence" = Some (VFloat (dec 78 100))).
Proof.
  intros s0.
  assert (He : s0 !! "email" = Some (VDict
            [("sender_email", VStr "ann@example.com");
             ("subject", VStr "Refund");
             ("body", VStr "Please refund my order")]))
    by (unfold s0; by rewrite initial_state_lookup).
  assert (Hr : s0 !! "run_id" = Some (VStr "run-1"))
    by (unfold s0; by rewrite initial_state_lookup).
  assert (Hc : forall k, k = "category" \/ k = "category_confidence" ->
                         s0 !! k = None)
    by (intros k [->| ->]; unfold s0; by rewrite initial_state_lookup).
  pose proof (initial_email_well_formed "ann@example.com" "Refund"
                "Please refund my order") as Hw.
  split.
  - rewrite (classify_node_fallback offline_world s0 [] _ _ _ _
               eq_refl He Hw Hr).
    assert (Hh : support_heuristic
                   (heuristic_text "Refund" "Please refund my order")
                 = ("Refund request", dec 78 100,
                    "Refund-related keywords detected."))
      by (vm_compute; reflexivity).
    rewrite Hh. eexists _, _. split; [reflexivity|].
    rewrite !merged_mkdict_lookup. cbn. rewrite !Hc by auto. done.
  - pose proof (classify_node_1_fallback offline_world s0 [] _ _ _ _
                  eq_refl He Hw Hr) as H.
    assert (Hk : keyword_category
                   (heuristic_text "Refund" "Please refund my order")
                 = ("Support Type", dec 78 100))
      by (vm_compute; reflexivity).
    rewrite Hk in H. destruct H as [-> _].
    eexists _, _. split; [reflexivity|].
    rewrite !merged_mkdict_lookup. cbn. done.
Qed.

(** C2 (as stated, refuted). A support-flow state whose intent is outside
    the six support intents: the sub-router copies the intent into
    [route], the path map has no entry for it, and the fan-out raises. *)
Lemma unmapped_support_route_aborts :
  fst (support_dispatch offline_world
         (mkdict [("run_id", VStr "run-1"); ("intent", VStr "General")]) [])
  = Raise (KeyError "General").
Proof. vm_compute. reflexivity. Qed.

Section FanOut.
Variable w : world.

Lemma category_route_support intent :
  match route_of (VStr (category_of intent)) with
  | "sales" => "sales"
  | "support" => "support"
  | _ => "unknown"
  end = "support" ->
  in_strs intent support_intent_list = true.
Proof.
  unfold category_of.
  destruct (in_strs intent sales_intent_list); [discriminate|].
  destruct (in_strs intent support_intent_list); [done|discriminate].
Qed.

Lemma category_route_sales intent :
  match route_of (VStr (category_of intent)) with
  | "sales" => "sales"
  | "support" => "support"
  | _ => "unknown"
  end = "sales" ->
  in_strs intent sales_intent_list = true.
Proof.
  unfold category_of.
  destruct (in_strs intent sales_intent_list); [done|].
  destruct (in_strs intent support_intent_list); discriminate.
Qed.

(** C2 (amended). The path maps have no default entry.  What holds instead:
    the top-level fan-out always resolves, because [route_node] only writes
    routes that are keys of its path map; in a run of the compiled graph
    from the state the API layer builds, the support and sales sub-routers
    are only reached with an intent that is a key of their path map, so
    their fan-out resolves as well; a state without a [route] key takes the
    selector's default, which is mapped; and a route value that is not a
    key of the path map has no branch: the lookup raises. *)
Theorem fanout_resolves_on_mapped_routes :
  (forall s log run_id,
     s !! "run_id" = Some run_id ->
     exists target s' log',
       dispatch route_node top_after_route top_path_map w s log
         = (Ok (target, s'), log')
       /\ In target ["sales"; "support"; "unknown"])
  /\ (forall run_id sender subject body ok flags log s1 l1,
        top_dispatch w (initial_state run_id sender subject body ok flags) log
          = (Ok ("support", s1), l1) ->
        exists target s2 l2,
          support_dispatch w s1 l1 = (Ok (target, s2), l2))
  /\ (forall run_id sender subject body ok flags log s1 l1,
        top_dispatch w (initial_state run_id sender subject body ok flags) log
          = (Ok ("sales", s1), l1) ->
        exists target s2 l2,
          sales_dispatch w s1 l1 = (Ok (target, s2), l2))
  /\ (forall s : gmap string value,
        s !! "route" = None ->
        branch_target w top_path_map (top_after_route s) = Ok "unknown"
        /\ branch_target w support_path_map (support_after_route s)
           = Ok "other"
        /\ branch_target w sales_path_map (sales_after_route s) = Ok "other")
  /\ (forall (path_map : gmap string string) k,
        path_map !! k = None ->
        branch_target w path_map (VStr k) = Raise (KeyError k)).
Proof.
  split; [|split; [|split; [|split]]].
  - intros s log run_id Hr.
    destruct (route_dispatch_run w s log run_id Hr) as (s' & l' & Heq & _).
    eexists _, s', l'. split; [exact Heq|].
    destruct (route_of_cases (state_get s "category" (VStr "Other")))
      as [ [-> _] | [ (-> & _ & _) | -> ] ]; simpl; auto.
  - intros run_id sender subject body ok flags log s1 l1 Heq.
    destruct (top_dispatch_initial w run_id sender subject body ok flags log)
      as (target & s1' & l1' & Heq' & Hr & Hcase).
    rewrite Heq in Heq'. injection Heq' as <- <- <-.
    destruct Hcase as [(_ & Ht & _)|(intent & _ & Hi & Ht)]; [discriminate|].
    symmetry in Ht. apply category_route_support in Ht.
    destruct (support_intent_mapped w intent Ht) as [target Hb].
    unfold support_dispatch, support_route_node.
    rewrite (intent_dispatch_run w _ _ _ _ s1 l1 _ _ Hr Hi) by done.
    rewrite Hb. eauto.
  - intros run_id sender subject body ok flags log s1 l1 Heq.
    destruct (top_dispatch_initial w run_id sender subject body ok flags log)
      as (target & s1' & l1' & Heq' & Hr & Hcase).
    rewrite Heq in Heq'. injection Heq' as <- <- <-.
    destruct Hcase as [(_ & Ht & _)|(intent & _ & Hi & Ht)]; [discriminate|].
    symmetry in Ht. apply category_route_sales in Ht.
    destruct (sales_intent_mapped w intent Ht) as [target Hb].
    unfold sales_dispatch, sales_route_node.
    rewrite (intent_dispatch_run w _ _ _ _ s1 l1 _ _ Hr Hi) by done.
    rewrite Hb. eauto.
  - intros s Hs.
    unfold top_after_route, support_after_route, sales_after_route, state_get.
    rewrite Hs. done.
  - intros path_map k Hk. simpl. by rewrite Hk.
Qed.

End FanOut.

Lemma fanout_resolves_on_mapped_routes_witness :
  let w := oracle_world (VDict [("intent", VStr "Refund request")]) in
  let s0 := initial_state "run-1" "ann@example.com" "Refund"
              "Please refund my order" true [] in
  (exists s1 l1 target s2 l2,
     top_dispatch w s0 [] = (Ok ("support", s1), l1)
     /\ support_dispatch w s1 l1 = (Ok (target, s2), l2))
  /\ branch_target offline_world support_path_map (VStr "General")
     = Raise (KeyError "General").
Proof.
  intros w s0.
  pose proof (fanout_resolves_on_mapped_routes w) as (_ & Hsupport & _).
  pose proof (fanout_resolves_on_mapped_routes offline_world)
    as (_ & _ & _ & _ & Hnone).
  split.
  - assert (Hbranch : match fst (top_dispatch w s0 []) with
                      | Ok (t, _) => t
                      | Raise _ => ""
                      end = "support")
      by (vm_compute; reflexivity).
    destruct (top_dispatch w s0 []) as [[[t s1]|e] l1] eqn:Htop;
      [|discriminate Hbranch].
    cbn in Hbranch. subst t.
    destruct (Hsupport "run-1" "ann@example.com" "Refund"
                "Please refund my order" true [] [] s1 l1 Htop)
      as (target & s2 & l2 & Hsub).
    exists s1, l1, target, s2, l2. split; [reflexivity | exact Hsub].
  - apply Hnone. reflexivity.
Defined.

(** ** The refund sub-flow *)

Lemma call_outcome_eq (n : node) w s log X :
  outcome (n w s) (mkPstate [] log) (fun r st' => (r, audit st') = X) ->
  call n w s log = X.
Proof. unfold outcome, call. destruct (n w s _) as [r st']. auto. Qed.

Lemma call_outcome_pair (n : node) w s log
    (P : res (option (gmap string value)) * list event -> Prop) :
  outcome (n w s) (mkPstate [] log) (fun r st' => P (r, audit st')) ->
  P (call n w s log).
Proof. unfold outcome, call. destruct (n w s _) as [r st']. auto. Qed.

Lemma qle_spec x y : qle x y = true <-> (x <= y)%Qc.
Proof. unfold qle. apply Qle_bool_iff. Qed.

Lemma qlt_spec x y : qlt x y = true <-> (x < y)%Qc.
Proof.
  unfold qlt. rewrite negb_true_iff, <- not_true_iff_false, Qle_bool_iff.
  split; [apply Qnot_le_lt | apply Qlt_not_le].
Qed.

Lemma qle_false x y : qle x y = false <-> (y < x)%Qc.
Proof. rewrite <- qlt_spec. unfold qlt, qle. by rewrite negb_true_iff. Qed.

(** The product of two numbers is a number, the product of their values. *)
Lemma py_mul_num a b x y :
  as_num a = Some x -> as_num b = Some y ->
  exists v, py_mul a b = Ok v /\ as_num v = Some (x * y)%Qc.
Proof.
  intros Ha Hb. unfold py_mul.
  destruct (as_int a) as [i|] eqn:Hia, (as_int b) as [j|] eqn:Hib.
  - exists (VInt (i * j)). split; [done|]. cbn. f_equal.
    rewrite Z2Qc_inj_mul.
    destruct a; try discriminate; destruct b; try discriminate;
      cbn in *; congruence.
  - rewrite Ha, Hb. eauto.
  - rewrite Ha, Hb. eauto.
  - rewrite Ha, Hb. eauto.
Qed.

Section Calculate.
Variable w : world.
Variables (s : gmap string value) (log : list event).
Variables (run_id refundable email cid pid po total window pct : value).
Variables (order pol : list (string * value)) (rest rest' : list value).
Variables (created : string) (d tod : Z) (t p wn : Qc).

Hypothesis Hrun : s !! "run_id" = Some run_id.
Hypothesis Hrefundable : s !! "is_refundable" = Some refundable.
Hypothesis Htruthy : truthy refundable = true.
Hypothesis Hemail : s !! "customerEmailId" = Some email.
Hypothesis Hcid : s !! "customer_id" = Some cid.
Hypothesis Hpid : s !! "product_id" = Some pid.
Hypothesis Hpo : s !! "purchaseOrderNumber" = Some po.
Hypothesis Hamount : s !! "order_amount" = Some total.
Hypothesis Horder :
  sql_rows w
    "SELECT * FROM orders WHERE order_number = ? AND customer_id = ? LIMIT 1"
    [po; cid] = Ok (VRow order :: rest).
Hypothesis Htotal : alookup "total_amount" order = Some total.
Hypothesis Hcreated : alookup "created_at" order = Some (VStr created).
Hypothesis Hparse : strptime w created = Some (d, tod).
Hypothesis Hpolicy :
  sql_rows w "SELECT * FROM refund_policies WHERE product_id = ? LIMIT 1"
    [pid] = Ok (VRow pol :: rest').
Hypothesis Hwindow : alookup "refund_window_days" pol = Some window.
Hypothesis Hwn : as_num window = Some wn.
Hypothesis Hpct : alookup "refund_percentage" pol = Some pct.
Hypothesis Hp : as_num pct = Some p.
Hypothesis Ht : as_num total = Some t.

(** The run of CALCULATE when every lookup succeeds. *)
Lemma calculate_refund_run :
  call calculate_refund_node w s log =
  if qle (Qc_of_Z (date_today w - d)) wn then
    (Ok (Some (_merged s
       (mkdict [("is_refundable", refundable);
                ("refund_amount", VFloat (t * p / Qc_of_Z 100)%Qc);
                ("message",
                 VStr ("Allowed refund amount is "
                       +:+ py_str w (VFloat (t * p / Qc_of_Z 100)%Qc)))]))),
     log ++ [mkEvent run_id "refund_calculation" (VDict [("email", email)])
               (VDict [("refund_amount", VFloat (t * p / Qc_of_Z 100)%Qc);
                       ("rationale",
                        VStr ("Allowed refund amount is "
                              +:+ py_str w
                                    (VFloat (t * p / Qc_of_Z 100)%Qc)))])
               1%Qc ["Calculated via DB"]])
  else
    (Ok (Some (_merged s
       (mkdict [("is_refundable", VBool false);
                ("refund_amount", VFloat 0%Qc);
                ("message", VStr window_passed)]))),
     log ++ [mkEvent run_id "refund_calculation" (VDict [("email", email)])
               (VDict [("refund_amount", VFloat 0%Qc);
                       ("rationale", VStr window_passed)])
               1%Qc ["Calculated via DB"]]).
Proof.
  apply state_item_lookup in Hrun, Hrefundable, Hemail, Hcid, Hpid, Hpo,
    Hamount.
  assert (Ho : _sql_fetchone w
    "SELECT * FROM orders WHERE order_number = ? AND customer_id = ? LIMIT 1"
    [po; cid] = Ok (VRow order)) by (unfold _sql_fetchone; by rewrite Horder).
  assert (Hq : _sql_fetchone w
    "SELECT * FROM refund_policies WHERE product_id = ? LIMIT 1" [pid]
    = Ok (VRow pol)) by (unfold _sql_fetchone; by rewrite Hpolicy).
  assert (Hc : subscript (VRow order) "created_at" = Ok (VStr created))
    by (cbn; by rewrite Hcreated).
  assert (Hw1 : subscript (VRow pol) "refund_window_days" = Ok window)
    by (cbn; by rewrite Hwindow).
  assert (Hp1 : subscript (VRow pol) "refund_percentage" = Ok pct)
    by (cbn; by rewrite Hpct).
  assert (Hd : parse_date w (VStr created) = Ok (VDate d))
    by (cbn; by rewrite Hparse).
  assert (Hdays : days_between (VDate (date_today w)) (VDate d)
                  = Ok (date_today w - d)) by done.
  assert (Hge : py_ge_int window (date_today w - d)
                = Ok (qle (Qc_of_Z (date_today w - d)) wn))
    by (unfold py_ge_int; by rewrite Hwn).
  destruct (py_mul_num total pct t p Ht Hp) as (v & Hmul & Hv).
  assert (Hdiv : py_truediv v 100 = Ok (VFloat (t * p / Qc_of_Z 100)%Qc))
    by (unfold py_truediv; by rewrite Hv).
  apply call_outcome_eq.
  unfold calculate_refund_node. wp; reflexivity.
Qed.

End Calculate.

(** C1. CALCULATE on a refundable state whose order and policy rows
    resolve and whose [order_amount] is the order's [total_amount] (as
    VALIDATE stores it): the days elapsed are today's day number minus the
    day number of the order's creation date, whatever its time of day; the
    step returns and writes one audit row; when the refund window is at
    least the days elapsed, the refundability flag stays as it was and the
    refund amount is total_amount * refund_percentage / 100; when the window
    is shorter, the flag becomes [False] and the amount is 0. *)
Theorem calculate_refund_window_and_amount
    (w : world) (s : gmap string value) (log : list event)
    (run_id refundable email cid pid po total window pct : value)
    (order pol : list (string * value)) (rest rest' : list value)
    (created : string) (d tod : Z) (t p wn : Qc) :
  s !! "run_id" = Some run_id ->
  s !! "is_refundable" = Some refundable ->
  truthy refundable = true ->
  s !! "customerEmailId" = Some email ->
  s !! "customer_id" = Some cid ->
  s !! "product_id" = Some pid ->
  s !! "purchaseOrderNumber" = Some po ->
  s !! "order_amount" = Some total ->
  sql_rows w
    "SELECT * FROM orders WHERE order_number = ? AND customer_id = ? LIMIT 1"
    [po; cid] = Ok (VRow order :: rest) ->
  alookup "total_amount" order = Some total ->
  alookup "created_at" order = Some (VStr created) ->
  strptime w created = Some (d, tod) ->
  sql_rows w "SELECT * FROM refund_policies WHERE product_id = ? LIMIT 1"
    [pid] = Ok (VRow pol :: rest') ->
  alookup "refund_window_days" pol = Some window ->
  as_num window = Some wn ->
  alookup "refund_percentage" pol = Some pct ->
  as_num pct = Some p ->
  as_num total = Some t ->
  let days := date_today w - d in
  exists s' ev,
    call calculate_refund_node w s log = (Ok (Some s'), log ++ [ev])
    /\ ((Qc_of_Z days <= wn)%Qc ->
        s' !! "is_refundable" = Some refundable
        /\ s' !! "refund_amount" = Some (VFloat (t * p / Qc_of_Z 100)%Qc))
    /\ ((wn < Qc_of_Z days)%Qc ->
        s' !! "is_refundable" = Some (VBool false)
        /\ s' !! "refund_amount" = Some (VFloat 0%Qc)).
Proof.
  intros Hrun Hrefundable Htruthy Hemail Hcid Hpid Hpo Hamount Horder Htotal
    Hcreated Hparse Hpolicy Hwindow Hwn Hpct Hp Ht days.
  rewrite (calculate_refund_run w s log run_id refundable email cid pid po
             total window pct order pol rest rest' created d tod t p wn)
    by assumption.
  fold days. destruct (qle (Qc_of_Z days) wn) eqn:Hq.
  - eexists _, _. split; [reflexivity|]. split.
    + intros _. by rewrite !merged_mkdict_lookup.
    + intros Hlt. apply qle_spec in Hq.
      exfalso. exact (Qcle_not_lt _ _ Hq Hlt).
  - eexists _, _. split; [reflexivity|]. split.
    + intros Hle. apply qle_spec in Hle. congruence.
    + intros _. by rewrite !merged_mkdict_lookup.
Qed.


Lemma calculate_refund_window_and_amount_witness :
  (exists s1 ev1,
     call calculate_refund_node
       (refund_world "2026-10-24T09:30:00.000000" true) refundable_state []
     = (Ok (Some s1), [ev1])
     /\ s1 !! "is_refundable" = Some (VBool true)
     /\ s1 !! "refund_amount" = Some (VFloat (Qc_of_Z 500)))
  /\ (exists s2 ev2,
        call calculate_refund_node
          (refund_world "2026-09-24T18:00:00.000000" true) refundable_state []
        = (Ok (Some s2), [ev2])
        /\ s2 !! "is_refundable" = Some (VBool false)
        /\ s2 !! "refund_amount" = Some (VFloat 0%Qc)).
Proof.
  split.
  - destruct (calculate_refund_window_and_amount
                (refund_world "2026-10-24T09:30:00.000000" true)
                refundable_state [] (VStr "run-1") (VBool true)
                (VStr "ann@example.com") (VInt 7) (VInt 3) (VStr "PO-1001")
                (VInt 1000) (VInt 30) (VInt 50)
                [("order_number", VStr "PO-1001"); ("customer_id", VInt 7);
                 ("product_id", VInt 3); ("status", VStr "delivered");
                 ("total_amount", VInt 1000);
                 ("created_at", VStr "2026-10-24T09:30:00.000000")]
                [("product_id", VInt 3); ("refund_window_days", VInt 30);
                 ("refund_percentage", VInt 50)]
                [] [] "2026-10-24T09:30:00.000000" 739913 34200000000
                (Qc_of_Z 1000) (Qc_of_Z 50) (Qc_of_Z 30))
      as (s1 & ev1 & Hcall & Hin & _);
      try (vm_compute; reflexivity).
    exists s1, ev1. split; [exact Hcall|].
    destruct Hin as [H1 H2]; [apply Z2Qc_inj_le; vm_compute; discriminate|].
    split; [exact H1|]. rewrite H2. do 2 f_equal.
    apply Qc_is_canon. reflexivity.
  - destruct (calculate_refund_window_and_amount
                (refund_world "2026-09-24T18:00:00.000000" true)
                refundable_state [] (VStr "run-1") (VBool true)
                (VStr "ann@example.com") (VInt 7) (VInt 3) (VStr "PO-1001")
                (VInt 1000) (VInt 30) (VInt 50)
                [("order_number", VStr "PO-1001"); ("customer_id", VInt 7);
                 ("product_id", VInt 3); ("status", VStr "delivered");
                 ("total_amount", VInt 1000);
                 ("created_at", VStr "2026-09-24T18:00:00.000000")]
                [("product_id", VInt 3); ("refund_window_days", VInt 30);
                 ("refund_percentage", VInt 50)]
                [] [] "2026-09-24T18:00:00.000000" 739883 64800000000
                (Qc_of_Z 1000) (Qc_of_Z 50) (Qc_of_Z 30))
      as (s2 & ev2 & Hcall & _ & Hout);
      try (vm_compute; reflexivity).
    exists s2, ev2. split; [exact Hcall|].
    apply Hout. apply Z2Qc_inj_lt. vm_compute. reflexivity.
Defined.

(** C4. Evaluation of CALCULATE on a refundable state whose product has no
    refund policy row: the lookup of the window raises inside the [try],
    the handler writes the manual-review row, and the [return] after the
    handler reads [refund_amount], which was never assigned: the step
    raises instead of returning a state with the flag revoked. *)
Theorem calculate_refund_missing_policy_raises :
  call calculate_refund_node
    (refund_world "2026-10-24T09:30:00.000000" false) refundable_state []
  = (Raise (UnboundLocalError "refund_amount"),
     [mkEvent (VStr "run-1") "OSC_case_creation"
        (VDict [("email", VStr "ann@example.com")])
        (VDict [("refund_amount", VFloat 0%Qc);
                ("rationale", VStr manual_review)])
        (dec 3 10) ["Calculated via DB"]]).
Proof. vm_compute. reflexivity. Qed.

Ltac one_row_absurd H :=
  exfalso; apply (f_equal length) in H; rewrite ?length_app in H;
  simpl in H; lia.

(** Whenever CALCULATE writes the manual-review row, whatever the exception
    that led to the handler, it ends by raising. *)
Lemma calculate_handler_raises w s log :
  let r := call calculate_refund_node w s log in
  forall ev, r.2 = log ++ [ev] -> ev_step ev = "OSC_case_creation" ->
  r.1 = Raise (UnboundLocalError "refund_amount")
  /\ ev_output ev = VDict [("refund_amount", VFloat 0%Qc);
                           ("rationale", VStr manual_review)].
Proof.
  apply (call_outcome calculate_refund_node w s log
    (fun r l => forall ev, l = log ++ [ev] ->
       ev_step ev = "OSC_case_creation" ->
       r = Raise (UnboundLocalError "refund_amount")
       /\ ev_output ev = VDict [("refund_amount", VFloat 0%Qc);
                                ("rationale", VStr manual_review)])).
  unfold calculate_refund_node. wp.
  all: intros ev Hev Hstep.
  all: try congruence.
  all: try (one_row_absurd Hev).
  all: apply app_inv_head in Hev; injection Hev as <-; try discriminate Hstep.
  all: split; reflexivity.
Qed.

Section Validate.
Variable w : world.
Implicit Types (s : gmap string value) (log : list event).

(** VALIDATE on a state that lacks one of the identifying fields: the
    [KeyError] is caught, and the handler's audit call reads
    [purchaseOrderNumber], which was never assigned. *)
Lemma validate_missing_identifier s log run_id :
  s !! "customerEmailId" = None \/ s !! "purchaseOrderNumber" = None ->
  s !! "run_id" = Some run_id ->
  call refund_validation_node w s log
  = (Raise (UnboundLocalError "purchaseOrderNumber"), log).
Proof.
  intros Hid Hrun. apply state_item_lookup in Hrun.
  apply call_outcome_eq. unfold refund_validation_node.
  destruct Hid as [Hid|Hid]; apply state_item_missing in Hid.
  - wp. reflexivity.
  - wp; reflexivity.
Qed.

(** VALIDATE on a state that has the identifying fields: it returns and
    writes one audit row; either the flag is [False] and the row carries the
    validation-failure rationale, or the customer, the order and the product
    were found, the order is not cancelled, and the flag is the product's
    [is_refundable]. *)
Lemma validate_returns s log run_id email po :
  s !! "run_id" = Some run_id ->
  s !! "customerEmailId" = Some email ->
  s !! "purchaseOrderNumber" = Some po ->
  exists s' ev,
    call refund_validation_node w s log = (Ok (Some s'), log ++ [ev])
    /\ ev_step ev = "user_authetication"
    /\ (s' !! "is_refundable" = Some (VBool false)
        /\ ev_confidence ev = dec 3 10
        /\ (exists fields, ev_output ev = VDict fields
              /\ alookup "rationale" fields = Some (VStr validation_failure))
        \/ exists cust cid order status pid product refundable,
             _sql_fetchone w
               "SELECT * FROM customers WHERE email = ? LIMIT 1" [email]
             = Ok cust
             /\ subscript cust "customer_id" = Ok cid
             /\ _sql_fetchone w
                  "SELECT * FROM orders WHERE order_number = ? AND customer_id = ? LIMIT 1"
                  [po; cid] = Ok order
             /\ subscript order "status" = Ok status
             /\ eq_str status "cancelled" = false
             /\ subscript order "product_id" = Ok pid
             /\ _sql_fetchone w
                  "SELECT * FROM products WHERE product_id = ? LIMIT 1" [pid]
                = Ok product
             /\ subscript product "is_refundable" = Ok refundable
             /\ s' !! "is_refundable" = Some refundable).
Proof.
  intros Hrun Hemail Hpo.
  apply state_item_lookup in Hrun, Hemail, Hpo.
  pattern (call refund_validation_node w s log). apply call_outcome_pair.
  unfold refund_validation_node. wp.
  all: eexists _, _; split; [reflexivity|]; split; [reflexivity|].
  all: rewrite merged_mkdict_lookup;
       cbn [rev app alookup String.eqb Ascii.eqb Bool.eqb
            ev_confidence ev_output].
  all: first [ left; split; [reflexivity|]; split; [reflexivity|];
               eexists; split; reflexivity
             | right ].
  all: match goal with H : negb _ = true |- _ => apply negb_true_iff in H end.
  all: eauto 20.
Qed.

(** EXTRACT without a chat model merges the intent fields only. *)
Lemma extract_details_fallback s log email subject body run_id :
  chat_model w = None ->
  s !! "email" = Some email ->
  well_formed_email email subject body ->
  s !! "run_id" = Some run_id ->
  call extract_details_node w s log =
  let '(intent, conf, rationale) :=
    support_heuristic (heuristic_text subject body) in
  (Ok (Some (_merged s
     (mkdict [("intent", VStr intent); ("intent_confidence", VFloat conf);
              ("intent_rationale", VStr rationale)]))),
   log ++ [mkEvent run_id "support_intent" (VDict [("email", email)])
        (VDict [("intent", VStr intent); ("rationale", VStr rationale)])
        conf ["heuristic intent"]]).
Proof.
  intros Hm He Hw Hr. unfold call, extract_details_node, bind at 1.
  apply state_item_lookup in He. rewrite He. cbn. rewrite Hm.
  rewrite (heuristic_intent_step_ok _ _ _ _ _ _ _ Hw Hr).
  by destruct (support_heuristic _) as [[intent conf] rationale].
Qed.

End Validate.

(** C3. Evaluation of the refund sub-flow without a chat model on the
    state the API layer builds: EXTRACT returns a state without
    [customerEmailId] and [purchaseOrderNumber]; VALIDATE on that state
    catches the [KeyError], and its handler raises past the step boundary
    before any audit row is written. *)
Theorem validation_raises_on_missing_identifiers :
  exists s1 l1,
    call extract_details_node offline_world
      (initial_state "run-1" "ann@example.com" "Refund"
         "Please refund my order" true []) []
    = (Ok (Some s1), l1)
    /\ s1 !! "customerEmailId" = None
    /\ s1 !! "purchaseOrderNumber" = None
    /\ call refund_validation_node offline_world s1 l1
       = (Raise (UnboundLocalError "purchaseOrderNumber"), l1).
Proof.
  set (s0 := initial_state "run-1" "ann@example.com" "Refund"
               "Please refund my order" true []).
  assert (He : s0 !! "email" = Some (VDict
            [("sender_email", VStr "ann@example.com");
             ("subject", VStr "Refund");
             ("body", VStr "Please refund my order")]))
    by (unfold s0; by rewrite initial_state_lookup).
  assert (Hr : s0 !! "run_id" = Some (VStr "run-1"))
    by (unfold s0; by rewrite initial_state_lookup).
  rewrite (extract_details_fallback offline_world s0 [] _ _ _ _ eq_refl He
             (initial_email_well_formed _ _ _) Hr).
  destruct (support_heuristic _) as [[intent conf] rationale].
  eexists _, _. split; [reflexivity|].
  assert (Hc : _merged s0
                 (mkdict [("intent", VStr intent);
                          ("intent_confidence", VFloat conf);
                          ("intent_rationale", VStr rationale)])
               !! "customerEmailId" = None)
    by (rewrite merged_mkdict_lookup; unfold s0;
        by rewrite initial_state_lookup).
  split; [exact Hc|]. split.
  - rewrite merged_mkdict_lookup. unfold s0. by rewrite initial_state_lookup.
  - apply (validate_missing_identifier offline_world _ _ (VStr "run-1")).
    + by left.
    + rewrite merged_mkdict_lookup. exact Hr.
Qed.

(** ** One audit row per step *)

(** C5 (as stated, refuted). CASE_CREATE on a state that is not refundable
    returns [None] and writes no audit row. *)
Lemma case_creation_without_refund_writes_no_row :
  call create_refund_case_node offline_world
    (mkdict [("run_id", VStr "run-1");
             ("customerEmailId", VStr "ann@example.com");
             ("is_refundable", VBool false)]) []
  = (Ok None, []).
Proof. vm_compute. reflexivity. Qed.

Lemma gated_true s v :
  state_item s "is_refundable" = Ok v -> truthy v = true ->
  truthy (state_get s "is_refundable" VNone) = true.
Proof. intros H Ht. by rewrite (state_item_get _ _ _ VNone H). Qed.

Lemma gated_false s v :
  state_item s "is_refundable" = Ok v -> truthy v = false ->
  truthy (state_get s "is_refundable" VNone) = false.
Proof. intros H Ht. by rewrite (state_item_get _ _ _ VNone H). Qed.

Ltac audit_leaf :=
  split;
  [ first [ exists []; split; [symmetry; apply app_nil_r | simpl; lia]
          | eexists [_]; split; [reflexivity | simpl; lia] ]
  | intros x Hx;
    first [ discriminate Hx
          | exists []; split; [symmetry; apply app_nil_r | reflexivity]
          | eexists [_]; split; reflexivity ] ].

(** What one invocation of a step does to the audit table. *)
Lemma step_audit (n : step) (w : world) s log :
  let r := call (step_node n) w s log in
  (exists evs, r.2 = log ++ evs /\ (length evs <= 1)%nat)
  /\ (forall x, r.1 = Ok x ->
      appended log r.2 (if writes_event n s then 1%nat else 0%nat)).
Proof.
  apply (call_outcome (step_node n) w s log
    (fun r l =>
       (exists evs, l = log ++ evs /\ (length evs <= 1)%nat)
       /\ (forall x, r = Ok x ->
           appended log l (if writes_event n s then 1%nat else 0%nat)))).
  destruct n; cbn [step_node];
    unfold classify_node, route_node, sales_route_node, support_route_node,
      intent_route_node, support_kb_node, formulate_response,
      extract_details_node, refund_validation_node, create_refund_case_node,
      calculate_refund_node, refund_info_node, unknown_node, other_node,
      finalize_node, present_node;
    wp; unfold appended, writes_event;
    try (erewrite gated_true by eassumption);
    try (erewrite gated_false by eassumption);
    try congruence;
    audit_leaf.
Qed.

Lemma run_node_log (n : node) w s log :
  (run_node n w s log).2 = (call n w s log).2.
Proof.
  unfold run_node. by destruct (call n w s log) as [[[s'|]|e] l].
Qed.

(** A chain of steps only appends to the audit table, at most one row per
    step, in the order the steps run. *)
Lemma chain_audit (w : world) (ns : list step) s log :
  exists evs,
    (run_chain (map step_node ns) w s log).2 = log ++ evs
    /\ (length evs <= length ns)%nat.
Proof.
  revert s log. induction ns as [|n ns IH]; intros s log; simpl.
  - exists []. split; [by rewrite app_nil_r | done].
  - destruct (step_audit n w s log) as [(evs & Hevs & Hlen) _].
    rewrite <- run_node_log in Hevs.
    destruct (run_node (step_node n) w s log) as [[s'|e] l]; simpl in Hevs.
    + destruct (IH s' l) as (evs' & -> & Hlen').
      exists (evs ++ evs'). rewrite Hevs, app_assoc, length_app.
      split; [done | lia].
    + exists evs. split; [done | lia].
Qed.

(** C5 (amended). Every step invocation appends at most one row to the
    audit table before the engine goes on.  A step that returns has written
    exactly one row, except CASE_CREATE, CALCULATE and NOTIFY on a state that
    is not refundable and [formulate_response], which write none.  The
    table is only appended to, so along any chain of steps the rows of a run
    are in execution order. *)
Theorem steps_append_at_most_one_row (w : world) :
  (forall (n : step) s log,
     let r := call (step_node n) w s log in
     (exists evs, r.2 = log ++ evs /\ (length evs <= 1)%nat)
     /\ (forall x, r.1 = Ok x ->
         appended log r.2 (if writes_event n s then 1%nat else 0%nat)))
  /\ (forall (ns : list step) s log,
        exists evs,
          (run_chain (map step_node ns) w s log).2 = log ++ evs
          /\ (length evs <= length ns)%nat).
Proof.
  split.
  - intros n s log. apply step_audit.
  - intros ns s log. apply chain_audit.
Qed.

Lemma steps_append_at_most_one_row_witness :
  appended []
    (call create_refund_case_node offline_world
       (mkdict [("run_id", VStr "run-1");
                ("customerEmailId", VStr "ann@example.com");
                ("is_refundable", VBool true)]) []).2 1
  /\ appended []
       (call create_refund_case_node offline_world
          (mkdict [("run_id", VStr "run-1");
                   ("customerEmailId", VStr "ann@example.com");
                   ("is_refundable", VBool false)]) []).2 0.
Proof.
  split.
  - destruct (steps_append_at_most_one_row offline_world) as [H _].
    eapply (H CaseCreate
              (mkdict [("run_id", VStr "run-1");
                       ("customerEmailId", VStr "ann@example.com");
                       ("is_refundable", VBool true)]) []).
    vm_compute. reflexivity.
  - destruct (steps_append_at_most_one_row offline_world) as [H _].
    eapply (H CaseCreate
              (mkdict [("run_id", VStr "run-1");
                       ("customerEmailId", VStr "ann@example.com");
                       ("is_refundable", VBool false)]) []).
    vm_compute. reflexivity.
Defined.

(** ** Stable sorting *)

Section StableSort.
Context {A : Type} (lt : A -> A -> bool) (key : A -> Qc).
Hypothesis lt_negtrans :
  forall x y z, lt y x = false -> lt z y = false -> lt z x = false.
Hypothesis lt_asym : forall x y, lt y x = true -> lt x y = false.
Hypothesis lt_key : forall x y, lt y x = true -> key y <> key x.

Lemma insert_sorted_perm x l : Permutation (insert_sorted lt x l) (x :: l).
Proof.
  induction l as [|y l IH]; simpl; [done|].
  destruct (lt y x); [|done].
  rewrite IH. apply perm_swap.
Qed.

Lemma stable_sort_perm l : Permutation (stable_sort lt l) l.
Proof.
  induction l as [|x l IH]; simpl; [done|].
  rewrite insert_sorted_perm. by constructor.
Qed.

Lemma insert_sorted_sorted x l :
  StronglySorted (fun a b => lt b a = false) l ->
  StronglySorted (fun a b => lt b a = false) (insert_sorted lt x l).
Proof.
  induction 1 as [|y l Hs IH Hall]; simpl.
  - constructor; constructor.
  - destruct (lt y x) eqn:Hlt.
    + constructor; [exact IH|].
      rewrite insert_sorted_perm. constructor; [|exact Hall].
      by apply lt_asym.
    + constructor; [by constructor|].
      constructor; [exact Hlt|].
      eapply Forall_impl; [exact Hall|].
      intros z Hz. by eapply lt_negtrans.
Qed.

Lemma stable_sort_sorted l :
  StronglySorted (fun a b => lt b a = false) (stable_sort lt l).
Proof.
  induction l as [|x l IH]; [constructor|].
  simpl. by apply insert_sorted_sorted.
Qed.

Lemma insert_sorted_stable c x l :
  filter (fun a => key a = c) (insert_sorted lt x l)
  = filter (fun a => key a = c) (x :: l).
Proof.
  induction l as [|y l IH]; simpl; [done|].
  destruct (lt y x) eqn:Hlt; [|done].
  rewrite filter_cons, IH, !filter_cons.
  apply lt_key in Hlt.
  repeat case_decide; congruence.
Qed.

Lemma stable_sort_stable c l :
  filter (fun a => key a = c) (stable_sort lt l)
  = filter (fun a => key a = c) l.
Proof.
  induction l as [|x l IH]; [done|].
  simpl. rewrite insert_sorted_stable, !filter_cons, IH. done.
Qed.

End StableSort.

Section SortByKey.
Context {A : Type} (key : A -> Qc).

Lemma StronglySorted_weaken (R R' : A -> A -> Prop) l :
  (forall a b, R a b -> R' a b) ->
  StronglySorted R l -> StronglySorted R' l.
Proof.
  intros HR. induction 1 as [|x l Hs IH Hall]; constructor; [done|].
  eapply Forall_impl; [exact Hall|]. intros b. apply HR.
Qed.

Lemma qlt_false x y : qlt x y = false <-> (y <= x)%Qc.
Proof.
  unfold qlt. rewrite negb_false_iff. apply Qle_bool_iff.
Qed.

Lemma qlt_negtrans x y z : qlt x y = false -> qlt y z = false -> qlt x z = false.
Proof.
  rewrite !qlt_false. intros H1 H2. by eapply Qcle_trans.
Qed.

Lemma qlt_asym x y : qlt x y = true -> qlt y x = false.
Proof.
  rewrite qlt_spec, qlt_false. apply Qclt_le_weak.
Qed.

Lemma sort_desc_perm l : Permutation (sort_desc key l) l.
Proof. apply stable_sort_perm. Qed.

Lemma sort_asc_perm l : Permutation (sort_asc key l) l.
Proof. apply stable_sort_perm. Qed.

Lemma sort_desc_sorted l : StronglySorted (by_desc key) (sort_desc key l).
Proof.
  eapply StronglySorted_weaken; [|apply stable_sort_sorted].
  - intros a b H. by apply qlt_false in H.
  - intros x y z H1 H2. by eapply qlt_negtrans.
  - intros x y. apply qlt_asym.
Qed.

Lemma sort_asc_sorted l : StronglySorted (by_asc key) (sort_asc key l).
Proof.
  eapply StronglySorted_weaken; [|apply stable_sort_sorted].
  - intros a b H. by apply qlt_false in H.
  - intros x y z H1 H2. by eapply qlt_negtrans.
  - intros x y. apply qlt_asym.
Qed.

Lemma sort_desc_stable c l :
  filter (fun a => key a = c) (sort_desc key l)
  = filter (fun a => key a = c) l.
Proof.
  apply stable_sort_stable.
  intros x y H. apply qlt_spec in H. by apply Qclt_not_eq in H.
Qed.

Lemma sort_asc_stable c l :
  filter (fun a => key a = c) (sort_asc key l)
  = filter (fun a => key a = c) l.
Proof.
  apply stable_sort_stable.
  intros x y H. apply qlt_spec in H. by apply Qclt_not_eq in H.
Qed.

End SortByKey.

(** ** Knowledge retrieval *)

Section Retrieval.
Implicit Types (rows : list kb_row) (query : string) (k : nat).

Lemma lexical_ranking_sorted rows query :
  lexical_ranking rows query = sort_desc fst (lexical_scores rows query).
Proof. reflexivity. Qed.








End Retrieval.



(** ** The pricing branch *)

Section Pricing.
Variable w : world.

Lemma mapM_Forall2 {A B} (f : A -> M B) (P : A -> B -> Prop) l st :
  (forall x, x ∈ l -> forall st, exists y, f x st = (Ok y, st) /\ P x y) ->
  exists ys, mapM f l st = (Ok ys, st) /\ Forall2 P l ys.
Proof.
  induction l as [|x l IH]; simpl; intros Hf.
  - exists []. split; [done|constructor].
  - destruct (Hf x (list_elem_of_here _ _) st) as (y & Hy & HP).
    destruct IH as (ys & Hys & HF); [intros z Hz; apply Hf; by right|].
    exists (y :: ys). unfold bind. rewrite Hy, Hys. split; [done|].
    by constructor.
Qed.

Lemma Forall2_eq_map {A B} (g : A -> B) l ys :
  Forall2 (fun x y => y = g x) l ys -> ys = map g l.
Proof. induction 1; simpl; congruence. Qed.

Lemma base_price_ok r st :
  priced_row r -> base_price w r st = (Ok (price_of r), st).
Proof.
  intros (d & bp & name & -> & Hbp & Hnum & _).
  unfold base_price, bind, price_of. cbn. rewrite Hbp. cbn.
  destruct Hnum as [->|[q Hq]]; [done|]. rewrite Hq.
  destruct (truthy bp); [|done].
  unfold py_float. destruct bp; try discriminate; by rewrite Hq.
Qed.

Lemma insert_sorted_map {A B} (g : A -> B) (lt : A -> A -> bool)
    (lt' : B -> B -> bool) x l :
  (forall a b, lt' (g a) (g b) = lt a b) ->
  insert_sorted lt' (g x) (map g l) = map g (insert_sorted lt x l).
Proof.
  intros Hlt. induction l as [|y l IH]; simpl; [done|].
  rewrite Hlt. destruct (lt y x); simpl; [by rewrite IH|done].
Qed.

Lemma sort_asc_decorated (l : list value) :
  map snd (sort_asc fst (map (fun r => (price_of r, r)) l))
  = sort_asc price_of l.
Proof.
  unfold sort_asc.
  assert (H : stable_sort (fun y x : Qc * value => qlt y.1 x.1)
                (map (fun r => (price_of r, r)) l)
              = map (fun r => (price_of r, r))
                  (stable_sort (fun y x => qlt (price_of y) (price_of x)) l)).
  { induction l as [|x l IH]; simpl; [done|].
    rewrite IH.
    by apply (insert_sorted_map (fun r => (price_of r, r))
                (fun y x => qlt (price_of y) (price_of x))). }
  rewrite H, map_map. simpl. apply map_id.
Qed.

Lemma bind_ok {A B} (c : M A) (k : A -> M B) a st st' :
  c st = (Ok a, st') -> bind c k st = k a st'.
Proof. intros H. unfold bind. by rewrite H. Qed.

Lemma keyed_ok (prows : list value) st :
  Forall priced_row prows ->
  mapM (fun r => bind (base_price w r) (fun k => ret (k, r))) prows st
  = (Ok (map (fun r => (price_of r, r)) prows), st).
Proof.
  intros Hrows.
  destruct (mapM_Forall2 (fun r => bind (base_price w r) (fun k => ret (k, r)))
              (fun r y => y = (price_of r, r)) prows st) as (keyed & -> & HF).
  { intros r Hr st'. exists (price_of r, r). split; [|done].
    rewrite (bind_ok _ _ _ _ _ (base_price_ok r st' ltac:(
      rewrite Forall_forall in Hrows; by apply Hrows))). done. }
  apply Forall2_eq_map in HF. by subst keyed.
Qed.

Lemma policy_number_ok p d c v q default st :
  p = VRow d -> alookup c d = Some v -> as_num v = Some q ->
  policy_number w p c default st = (Ok q, st).
Proof.
  intros -> Hv Hq. unfold policy_number, has_column, bind. rewrite Hv.
  unfold lift, subscript. rewrite Hv.
  destruct v; try discriminate Hq; unfold py_float; by rewrite Hq.
Qed.

Lemma qmin_spec x y :
  (qmin x y <= x)%Qc /\ (qmin x y <= y)%Qc /\ (qmin x y = x \/ qmin x y = y).
Proof.
  unfold qmin. destruct (qle x y) eqn:H.
  - apply qle_spec in H. split; [apply Qcle_refl|]. split; [done|by left].
  - apply qle_false in H. split; [by apply Qclt_le_weak|].
    split; [apply Qcle_refl|by right].
Qed.

Lemma make_offer_ok tier max_disc approval_thr r st :
  priced_row r ->
  exists offer,
    make_offer w tier max_disc approval_thr r st = (Ok offer, st)
    /\ offer_for (qmin max_disc (dec 8 10 * max_disc)%Qc)
         max_disc approval_thr r offer.
Proof.
  intros Hr. pose proof (base_price_ok r st Hr) as Hb.
  destruct Hr as (d & bp & name & -> & Hbp & Hnum & Hname).
  unfold make_offer, bind. rewrite Hb. cbn. rewrite Hname.
  eexists. split; [reflexivity|].
  eexists _, _. split; [reflexivity|].
  split; [reflexivity|]. split; [reflexivity|]. split; [|reflexivity].
  rewrite andb_true_iff, qle_spec, qlt_spec. done.
Qed.

(** The computation of the pricing/bundling branch, on the rows its two
    lookups ask for:
    with a first policy row whose [max_discount_percent] is M and whose
    [approval_threshold] is T, the limits are M and T; the proposed discount
    is min(M, 0.8 * M); one offer is built for each of the first five
    products in ascending order of price (products of equal price in catalog
    order), so no product left out is cheaper than one that is offered;
    each offer carries the discount rounded to two decimals and is marked
    compliant iff discount <= M and discount < T.  With M = 10 the
    discount_percent of every offer is 8, and the offer is compliant
    whenever T > 8. *)
Lemma pricing_offers_follow_policy
    (tier p : value) (ps prows : list value) (d : list (string * value))
    (vM vT : value) (M T : Qc) (evidence : list string) (st : pstate) :
  p = VRow d ->
  alookup "max_discount_percent" d = Some vM -> as_num vM = Some M ->
  alookup "approval_threshold" d = Some vT -> as_num vT = Some T ->
  Forall priced_row prows ->
  let disc := qmin M (dec 8 10 * M)%Qc in
  let sorted := sort_asc price_of prows in
  (exists evidence',
     pricing_limits w (VList (p :: ps)) evidence st
     = (Ok (M, T, evidence'), st))
  /\ ((disc <= M)%Qc /\ (disc <= dec 8 10 * M)%Qc
      /\ (disc = M \/ disc = (dec 8 10 * M)%Qc))
  /\ (exists offers,
        bundle_offers w tier M T prows st = (Ok offers, st)
        /\ Forall2 (offer_for disc M T) (take 5 sorted) offers
        /\ length offers = Nat.min 5 (length prows))
  /\ Permutation sorted prows
  /\ StronglySorted (by_asc price_of) sorted
  /\ (forall c, filter (fun r => price_of r = c) sorted
                = filter (fun r => price_of r = c) prows)
  /\ (forall a b, a ∈ take 5 sorted -> b ∈ drop 5 sorted ->
        (price_of a <= price_of b)%Qc)
  /\ (M = Qc_of_Z 10 ->
      round2 disc = Qc_of_Z 8
      /\ ((Qc_of_Z 8 < T)%Qc ->
          forall r offer, offer_for disc M T r offer ->
          exists fields, offer = VDict fields
            /\ alookup "discount_percent" fields
               = Some (VFloat (Qc_of_Z 8))
            /\ alookup "compliant" fields = Some (VBool true))).
Proof.
  intros Hp HvM HM HvT HT Hrows disc sorted.
  split; [|split; [|split; [|split; [|split; [|split; [|split]]]]]].
  - unfold pricing_limits, bind.
    rewrite (policy_number_ok p d _ vM M _ st Hp HvM HM).
    rewrite (policy_number_ok p d _ vT T _ st Hp HvT HT).
    subst p. unfold has_column.
    destruct (alookup "policy_name" d) as [name|] eqn:Hn; cbn.
    + rewrite Hn. cbn. eauto.
    + eauto.
  - apply qmin_spec.
  - unfold bundle_offers.
    rewrite (bind_ok _ _ _ _ _ (keyed_ok prows st Hrows)).
    rewrite sort_asc_decorated. fold sorted.
    destruct (mapM_Forall2 (make_offer w tier M T) (offer_for disc M T)
                (take 5 sorted) st) as (offers & -> & HF).
    { intros r Hr st'. apply make_offer_ok.
      apply subseteq_take in Hr. unfold sorted in Hr.
      rewrite (sort_asc_perm price_of) in Hr.
      rewrite Forall_forall in Hrows. by apply Hrows. }
    exists offers. split; [done|]. split; [done|].
    rewrite <- (Forall2_length _ _ _ HF), length_take.
    unfold sorted. by rewrite (sort_asc_perm price_of).
  - apply sort_asc_perm.
  - apply sort_asc_sorted.
  - intros c. apply (sort_asc_stable price_of).
  - intros a b Ha Hb.
    pose proof (sort_asc_sorted price_of prows) as Hs. fold sorted in Hs.
    rewrite <- (take_drop 5 sorted) in Hs.
    exact (StronglySorted_app_1_elem_of (by_asc price_of) (take 5 sorted)
             (drop 5 sorted) a b Hs Ha Hb).
  - intros ->.
    assert (Hd : disc = Qc_of_Z 8).
    { unfold disc. apply Qc_is_canon. reflexivity. }
    assert (Hr8 : round2 (Qc_of_Z 8) = Qc_of_Z 8)
      by (apply Qc_is_canon; reflexivity).
    rewrite Hd. split; [exact Hr8|].
    intros HT8 r offer (fields & compliant & -> & Hdp & Hc & Hiff & _).
    exists fields. split; [done|]. rewrite Hr8 in Hdp. split; [done|].
    rewrite Hc. do 2 f_equal. apply Hiff. split; [|done].
    apply Z2Qc_inj_le. vm_compute. discriminate.
Qed.

End Pricing.

(** ** The customer lookup of [sales_node] *)

Section SalesLookup.
Variable w : world.
Implicit Types (s : gmap string value) (log : list event).

(** [sales_node] hands [_sql_fetchone] a one-element tuple, and
    [_sql_fetchone] binds its [*params] as they are: the bind value of the
    customer lookup is the tuple.  Whatever the store raises on it leaves
    [sales_node], before any branch and any audit row. *)
Lemma sales_node_lookup_raises s log email subject body sender e :
  s !! "email" = Some email ->
  well_formed_email email subject body ->
  subscript email "sender_email" = Ok sender ->
  sql_rows w "SELECT * FROM customers WHERE email = ? LIMIT 1"
    [VList [sender]] = Raise e ->
  call sales_node w s log = (Raise e, log).
Proof.
  intros He (ed & -> & Hsub & Hbody) Hsender Hsql.
  assert (Hs1 : subscript (VDict ed) "subject" = Ok (VStr subject))
    by (cbn; by rewrite Hsub).
  assert (Hs2 : subscript (VDict ed) "body" = Ok (VStr body))
    by (cbn; by rewrite Hbody).
  assert (Hf : _sql_fetchone w
                 "SELECT * FROM customers WHERE email = ? LIMIT 1"
                 [VList [sender]] = Raise e)
    by (unfold _sql_fetchone; by rewrite Hsql).
  apply state_item_lookup in He.
  assert (Ha1 : str_add (VStr subject) (VStr " ")
                = Ok (VStr (subject +:+ " "))) by reflexivity.
  assert (Ha2 : str_add (VStr (subject +:+ " ")) (VStr body)
                = Ok (VStr ((subject +:+ " ") +:+ body))) by reflexivity.
  apply call_outcome_eq. unfold sales_node. wp. reflexivity.
Qed.

End SalesLookup.

(** C8. Evaluation of [sales_node] on a request for a quote.  The store
    holds an active policy of 10 percent with threshold 15 for the tier
    Standard and six products, and raises on a sequence as a bind value, as
    sqlite3 does.  [sales_node] raises at its customer lookup, which binds a
    one-element tuple: no offer is emitted and no audit row is written.  On
    the rows of the same store the computation of the pricing branch gives
    five offers of 8 percent, all compliant. *)
Theorem sales_node_raises_at_customer_lookup :
  call sales_node sales_world pricing_request [] = (Raise StoreError, [])
  /\ sql_rows sales_world
       "SELECT * FROM customers WHERE email = ? LIMIT 1"
       [VStr "ann@example.com"] = Ok []
  /\ sql_rows sales_world
       "SELECT * FROM pricing_policies WHERE customer_tier = ? AND active = 1"
       [VStr "Standard"] = Ok [VRow sample_policy]
  /\ exists offers,
       (limits <- pricing_limits sales_world (VList [VRow sample_policy]) [] ;;
        let '(max_disc, approval_thr, _) := limits in
        bundle_offers sales_world (VStr "Standard") max_disc approval_thr
          sample_products)%py (mkPstate [] [])
       = (Ok offers, mkPstate [] [])
       /\ length offers = 5%nat
       /\ Forall (fun offer =>
            exists fields, offer = VDict fields
              /\ alookup "discount_percent" fields = Some (VFloat (Qc_of_Z 8))
              /\ alookup "compliant" fields = Some (VBool true)) offers.
Proof.
  split.
  { apply (sales_node_lookup_raises sales_world pricing_request []
             (VDict [("sender_email", VStr "ann@example.com");
                     ("subject", VStr "Quote");
                     ("body", VStr "Please send your best price")])
             "Quote" "Please send your best price" (VStr "ann@example.com")).
    - unfold pricing_request. by rewrite mkdict_lookup.
    - apply initial_email_well_formed.
    - reflexivity.
    - reflexivity. }
  split; [reflexivity|]. split; [reflexivity|].
  assert (Hrows : Forall priced_row sample_products).
  { repeat constructor; eexists _, _, _;
      (split; [reflexivity|]); (split; [reflexivity|]);
      (split; [|reflexivity]); first [by left | right; eexists; reflexivity]. }
  destruct (pricing_offers_follow_policy sales_world (VStr "Standard")
              (VRow sample_policy) [] sample_products sample_policy
              (VInt 10) (VInt 15) (Qc_of_Z 10) (Qc_of_Z 15) []
              (mkPstate [] []) eq_refl eq_refl eq_refl eq_refl eq_refl Hrows)
    as ((ev' & Hlim) & _ & (offers & Hrun & HF & Hlen) & _ & _ & _ & _
        & H10).
  destruct (H10 eq_refl) as [_ H8].
  assert (H15 : (Qc_of_Z 8 < Qc_of_Z 15)%Qc)
    by (apply Z2Qc_inj_lt; vm_compute; reflexivity).
  specialize (H8 H15).
  exists offers. split.
  { unfold bind at 1. rewrite Hlim. exact Hrun. }
  split; [exact Hlen|].
  clear Hrun Hlen. induction HF; constructor; eauto.
Qed.

(** ** The shared tail: the average confidence *)

Section Finalize.
Variable w : world.

Lemma fold_left_Qcplus_acc (l : list Qc) (a : Qc) :
  fold_left Qcplus l a = (a + fold_left Qcplus l 0)%Qc.
Proof.
  revert a. induction l as [|x l IH]; intros a; simpl.
  - by rewrite Qcplus_0_r.
  - rewrite IH, (IH (0 + x)%Qc), Qcplus_0_l. ring.
Qed.

Lemma sum_bounds (lo hi : Qc) (l : list Qc) :
  (forall v, v ∈ l -> (lo <= v)%Qc /\ (v <= hi)%Qc) ->
  (lo * Qc_of_Z (Z.of_nat (length l)) <= fold_left Qcplus l 0)%Qc
  /\ (fold_left Qcplus l 0 <= hi * Qc_of_Z (Z.of_nat (length l)))%Qc.
Proof.
  induction l as [|x l IH]; intros H.
  - cbn [length fold_left]. change (Z.of_nat 0) with 0%Z.
    rewrite Z2Qc_inj_0, !Qcmult_0_r. split; apply Qcle_refl.
  - destruct IH as [IHlo IHhi]; [intros v Hv; apply H; by right|].
    destruct (H x) as [Hlo Hhi]; [by left|].
    cbn [fold_left length]. rewrite fold_left_Qcplus_acc, Qcplus_0_l.
    rewrite Nat2Z.inj_succ, <- Z.add_1_l, Z2Qc_inj_add, Z2Qc_inj_1.
    rewrite !Qcmult_plus_distr_r, !Qcmult_1_r.
    split; by apply Qcplus_le_compat.
Qed.

Lemma average_bounds (lo hi : Qc) (l : list Qc) :
  l <> [] ->
  (forall v, v ∈ l -> (lo <= v)%Qc /\ (v <= hi)%Qc) ->
  (lo <= average l)%Qc /\ (average l <= hi)%Qc.
Proof.
  intros Hne H. destruct (sum_bounds lo hi l H) as [Hlo Hhi].
  unfold average. destruct l as [|x l]; [done|].
  set (n := Qc_of_Z (Z.of_nat (length (x :: l)))) in *.
  set (total := fold_left Qcplus (x :: l) 0%Qc) in *.
  assert (Hn : (0 < n)%Qc).
  { unfold n. rewrite <- Z2Qc_inj_0. apply (proj1 (Z2Qc_inj_lt 0 _)). simpl length. lia. }
  assert (Hd : (total / n * n = total)%Qc).
  { rewrite Qcmult_comm. apply Qcmult_div_r. by apply Qclt_not_eq in Hn. }
  split; apply (Qcmult_le_mono_pos_r _ _ n Hn); by rewrite Hd.
Qed.


End Finalize.


(** ** EXTRACT with a chat model *)

Section Extract.
Variable w : world.
Implicit Types (s : gmap string value) (log : list event).

Lemma well_formed_email_truthy email subject body :
  well_formed_email email subject body -> truthy email = true.
Proof.
  intros (d & -> & Hs & _). destruct d; [discriminate Hs | reflexivity].
Qed.

(** X2. [extract_details_node] with a chat model either completes its [try]
    block, writes one ["data_extraction"] row and returns a state with the
    six extracted fields, or raises [UnboundLocalError]: the handler of the
    [try] binds [intent], [refund_conf] and [rationale], and the audit call
    after it reads [refund_rationale], so no failure of the [try] block is
    rescued and no audit row is written.  This is what happens when the
    reply is not JSON, and when the reply has no [customerEmailId] (the
    default is the email dict, which has no [strip]). *)
Theorem extract_details_handler_does_not_rescue
    s log model email subject body run_id :
  chat_model w = Some model ->
  s !! "email" = Some email ->
  well_formed_email email subject body ->
  s !! "run_id" = Some run_id ->
  let r := call extract_details_node w s log in
  (r = (Raise (UnboundLocalError "refund_rationale"), log)
   \/ exists s' ev,
        r = (Ok (Some s'), log ++ [ev])
        /\ ev_step ev = "data_extraction"
        /\ Forall (fun k => is_Some (s' !! k))
             ["customerEmailId"; "purchaseOrderNumber"; "articleDoi";
              "refundReason"; "refund_conf"; "refund_rationale"])
  /\ (model "data_extraction" email = None ->
      r = (Raise (UnboundLocalError "refund_rationale"), log))
  /\ (forall d,
        model "data_extraction" email = Some (VDict d) ->
        alookup "customerEmailId" d = None ->
        r = (Raise (UnboundLocalError "refund_rationale"), log)).
Proof.
  intros Hm He Hw Hr r. subst r.
  pose proof (well_formed_email_truthy _ _ _ Hw) as Htruthy.
  destruct Hw as (ed & -> & Hsub & Hbody).
  assert (Hs1 : subscript (VDict ed) "subject" = Ok (VStr subject))
    by (cbn; by rewrite Hsub).
  assert (Hs2 : subscript (VDict ed) "body" = Ok (VStr body))
    by (cbn; by rewrite Hbody).
  apply state_item_lookup in He, Hr.
  pattern (call extract_details_node w s log). apply call_outcome_pair.
  unfold extract_details_node. wp. cbv zeta. wp.
  all: try match goal with
       | H : py_float _ (VFloat _) = Raise _ |- _ => discriminate H
       end.
  all: split; [|split].
  all: try (left; reflexivity).
  all: try (right; eexists _, _; split; [reflexivity|]; split; [reflexivity|];
            repeat constructor; rewrite merged_mkdict_lookup; cbn; eauto).
  all: try (intros Hnone; first [reflexivity | discriminate Hnone]).
  all: intros d Hd Hnone; try reflexivity; injection Hd as ->.
  all: try match goal with
       | H : dict_get (VDict _) "customerEmailId" _ = Ok _ |- _ =>
           cbn in H; rewrite Hnone in H;
           first [discriminate H | injection H as <-]
       end.
  all: try match goal with
       | H : negb (truthy _) = true |- _ =>
           rewrite Htruthy in H; discriminate H
       end.
  all: congruence.
Qed.

(** X3. When the reply is a JSON object whose [customerEmailId] is a string
    and whose confidence (0.6 if absent) converts to a float,
    [extract_details_node] returns: [customerEmailId] is the sender's
    address if the extracted value is empty or, once stripped and
    lower-cased, one of "unidentified", "unknown", "n/a", and the extracted
    value unchanged otherwise; every other field absent from the reply is
    "unidentified"; the audit row carries the confidence of the reply. *)
Theorem extract_details_placeholder_is_sender
    s log model email subject body run_id d c sender q :
  chat_model w = Some model ->
  s !! "email" = Some email ->
  well_formed_email email subject body ->
  s !! "run_id" = Some run_id ->
  model "data_extraction" email = Some (VDict d) ->
  alookup "customerEmailId" d = Some (VStr c) ->
  subscript email "sender_email" = Ok sender ->
  py_float w (match alookup "confidence" d with
              | Some v => v
              | None => VFloat (dec 6 10)
              end) = Ok q ->
  let field k := match alookup k d with
                 | Some v => v
                 | None => VStr "unidentified"
                 end in
  call extract_details_node w s log
  = (Ok (Some (_merged s
       (mkdict [("customerEmailId",
                 if is_placeholder c then sender else VStr c);
                ("purchaseOrderNumber", field "purchaseOrderNumber");
                ("articleDoi", field "articleDoi");
                ("refundReason", field "refundReason");
                ("refund_conf", VFloat q);
                ("refund_rationale", field "rationale")]))),
     log ++ [mkEvent run_id "data_extraction" (VDict [("email", email)])
               (VDict [("refund_conf", VFloat q);
                       ("rationale", field "rationale")])
               q ["LLM + DB"]]).
Proof.
  intros Hm He Hw Hr Hreply Hc Hsender Hq field.
  destruct Hw as (ed & -> & Hsub & Hbody).
  assert (Hs1 : subscript (VDict ed) "subject" = Ok (VStr subject))
    by (cbn; by rewrite Hsub).
  assert (Hs2 : subscript (VDict ed) "body" = Ok (VStr body))
    by (cbn; by rewrite Hbody).
  apply state_item_lookup in He, Hr.
  assert (Hg1 : dict_get (VDict d) "customerEmailId" (VDict ed)
                = Ok (VStr c))
    by (cbn; by rewrite Hc).
  assert (Hg2 : dict_get (VDict d) "purchaseOrderNumber" (VStr "unidentified")
                = Ok (field "purchaseOrderNumber")) by done.
  assert (Hg3 : dict_get (VDict d) "articleDoi" (VStr "unidentified")
                = Ok (field "articleDoi")) by done.
  assert (Hg4 : dict_get (VDict d) "refundReason" (VStr "unidentified")
                = Ok (field "refundReason")) by done.
  assert (Hg5 : dict_get (VDict d) "rationale" (VStr "unidentified")
                = Ok (field "rationale")) by done.
  assert (Hg6 : dict_get (VDict d) "confidence" (VFloat (dec 6 10))
                = Ok (match alookup "confidence" d with
                      | Some v => v
                      | None => VFloat (dec 6 10)
                      end)) by done.
  assert (Hq' : py_float w (VFloat q) = Ok q) by done.
  apply call_outcome_eq. unfold extract_details_node, is_placeholder.
  destruct (String.eqb_spec c "") as [->|Hne]; cbn [orb].
  - assert (Hnt : negb (truthy (VStr "")) = true) by reflexivity.
    wp. reflexivity.
  - assert (Hnt : negb (truthy (VStr c)) = false).
    { unfold truthy. destruct (String.eqb_spec c ""); done. }
    destruct (existsb (String.eqb (lower (strip c))) _) eqn:Hex;
      wp; reflexivity.
Qed.

End Extract.

Lemma extract_details_handler_does_not_rescue_witness :
  let w := mkWorld (fun _ _ => Ok []) (Some (fun _ _ => None)) 0
             (fun _ => None) (fun _ => None) (fun _ => "") ""
             (fun _ => Raise StoreError) in
  call extract_details_node w
    (initial_state "run-1" "ann@example.com" "Refund"
       "Please refund my order" true []) []
  = (Raise (UnboundLocalError "refund_rationale"), []).
Proof.
  intros w.
  set (s0 := initial_state "run-1" "ann@example.com" "Refund"
               "Please refund my order" true []).
  assert (He : s0 !! "email" = Some (VDict
            [("sender_email", VStr "ann@example.com");
             ("subject", VStr "Refund");
             ("body", VStr "Please refund my order")]))
    by (unfold s0; by rewrite initial_state_lookup).
  assert (Hr : s0 !! "run_id" = Some (VStr "run-1"))
    by (unfold s0; by rewrite initial_state_lookup).
  destruct (extract_details_handler_does_not_rescue w s0 [] _ _ _ _ _
              eq_refl He (initial_email_well_formed _ _ _) Hr)
    as (_ & Hnone & _).
  apply Hnone. reflexivity.
Defined.

Lemma extract_details_placeholder_is_sender_witness :
  let w := oracle_world
             (VDict [("customerEmailId", VStr " Unknown ");
                     ("purchaseOrderNumber", VStr "PO-1001")]) in
  exists s' l',
    call extract_details_node w
      (initial_state "run-1" "ann@example.com" "Refund"
         "Please refund my order" true []) []
    = (Ok (Some s'), l')
    /\ s' !! "customerEmailId" = Some (VStr "ann@example.com")
    /\ s' !! "purchaseOrderNumber" = Some (VStr "PO-1001")
    /\ s' !! "articleDoi" = Some (VStr "unidentified").
Proof.
  intros w.
  set (s0 := initial_state "run-1" "ann@example.com" "Refund"
               "Please refund my order" true []).
  assert (He : s0 !! "email" = Some (VDict
            [("sender_email", VStr "ann@example.com");
             ("subject", VStr "Refund");
             ("body", VStr "Please refund my order")]))
    by (unfold s0; by rewrite initial_state_lookup).
  assert (Hr : s0 !! "run_id" = Some (VStr "run-1"))
    by (unfold s0; by rewrite initial_state_lookup).
  eexists _, _. split.
  - apply (extract_details_placeholder_is_sender w s0 [] _ _ _ _ _ _
             " Unknown " (VStr "ann@example.com") (dec 6 10)
             eq_refl He (initial_email_well_formed _ _ _) Hr eq_refl
             eq_refl eq_refl eq_refl).
  - rewrite !merged_mkdict_lookup. cbn. done.
Defined.

(** ** The refund sub-flow when validation fails *)

Section Refused.
Variable w : world.
Implicit Types (s : gmap string value) (log : list event).

(** VALIDATE ends in its handler when there is no live order: the state
    takes the handler's placeholders. *)
Lemma validate_without_live_order s log run_id e po :
  s !! "run_id" = Some run_id ->
  s !! "customerEmailId" = Some e ->
  s !! "purchaseOrderNumber" = Some po ->
  no_live_order w e po ->
  call refund_validation_node w s log
  = (Ok (Some (_merged s
       (mkdict [("customerEmailId", VStr "General");
                ("purchaseOrderNumber", po);
                ("customer_id", VFloat (dec 3 10));
                ("product_id",
                 VStr "Could not parse model output; defaulted.");
                ("is_refundable", VBool false);
                ("order_amount", VFloat 0%Qc)]))),
     log ++ [mkEvent run_id "user_authetication"
               (VDict [("email", VStr "General")])
               (VDict [("purchaseOrderNumber", po);
                       ("customer_id", VFloat (dec 3 10));
                       ("product_id",
                        VStr "Could not parse model output; defaulted.");
                       ("is_refundable", VBool false);
                       ("order_amount", VFloat 0%Qc);
                       ("rationale", VStr validation_failure)])
               (dec 3 10) ["Calculated from DB"]]).
Proof.
  intros Hrun He Hpo Hfail.
  apply state_item_lookup in Hrun, He, Hpo.
  assert (Hn1 : subscript VNone "customer_id" = Raise TypeError) by done.
  assert (Hn2 : subscript VNone "product_id" = Raise TypeError) by done.
  assert (Hcan : negb (eq_str (VStr "cancelled") "cancelled") = false)
    by done.
  apply call_outcome_eq. unfold refund_validation_node.
  destruct Hfail as [Hc|(cust & rest & cid & name & Hc & Hcid & Hname & Ho)].
  - assert (Hf : _sql_fetchone w
        "SELECT * FROM customers WHERE email = ? LIMIT 1" [e] = Ok VNone)
      by (unfold _sql_fetchone; by rewrite Hc).
    wp; try congruence; reflexivity.
  - assert (Hf : _sql_fetchone w
        "SELECT * FROM customers WHERE email = ? LIMIT 1" [e] = Ok cust)
      by (unfold _sql_fetchone; by rewrite Hc).
    destruct Ho as [Ho|(order & rest' & pid & total & Ho & Hpid & Hst & Htot)].
    + assert (Hg : _sql_fetchone w
          "SELECT * FROM orders WHERE order_number = ? AND customer_id = ? LIMIT 1"
          [po; cid] = Ok VNone)
        by (unfold _sql_fetchone; by rewrite Ho).
      wp; try congruence; reflexivity.
    + assert (Hg : _sql_fetchone w
          "SELECT * FROM orders WHERE order_number = ? AND customer_id = ? LIMIT 1"
          [po; cid] = Ok order)
        by (unfold _sql_fetchone; by rewrite Ho).
      wp; try congruence; reflexivity.
Qed.

(** The three gated steps on a state that is not refundable: CASE_CREATE
    and CALCULATE return [None], NOTIFY sets [avg_confidence]; no audit
    row is written. *)
Lemma gated_steps_not_refundable s log e flag cid pid po :
  s !! "customerEmailId" = Some e ->
  s !! "is_refundable" = Some flag ->
  truthy flag = false ->
  s !! "customer_id" = Some cid ->
  s !! "product_id" = Some pid ->
  s !! "purchaseOrderNumber" = Some po ->
  run_chain [create_refund_case_node; calculate_refund_node; refund_info_node]
    w s log
  = (Ok (_merged s (mkdict [("avg_confidence", VStr "Hello")])), log).
Proof.
  intros He Hf Ht Hcid Hpid Hpo.
  apply state_item_lookup in He, Hf, Hcid, Hpid, Hpo.
  assert (H1 : call create_refund_case_node w s log = (Ok None, log)).
  { apply call_outcome_eq. unfold create_refund_case_node. wp; try congruence; reflexivity. }
  assert (H2 : call calculate_refund_node w s log = (Ok None, log)).
  { apply call_outcome_eq. unfold calculate_refund_node. wp; try congruence; reflexivity. }
  assert (H3 : call refund_info_node w s log
               = (Ok (Some (_merged s
                    (mkdict [("avg_confidence", VStr "Hello")]))), log)).
  { apply call_outcome_eq. unfold refund_info_node. wp; try congruence; reflexivity. }
  unfold run_chain, run_node. by rewrite H1, H2, H3.
Qed.

(** X4. The refund sub-flow from VALIDATE on, for a state that names a
    customer and an order for which the store has no live order (no such
    customer, no such order of that customer, or an order whose status is
    "cancelled"): the flow runs to its end and writes exactly one audit row,
    the ["user_authetication"] row with confidence 0.3 and the
    validation-failure rationale; the final state is not refundable, has no
    refund amount and no case number, keeps the order number, and holds the
    handler's placeholders: [customerEmailId] is "General", [customer_id]
    is 0.3, [order_amount] is 0.0, and [avg_confidence] is the string
    "Hello". *)
Theorem refund_refused_without_live_order s log run_id e po :
  s !! "run_id" = Some run_id ->
  s !! "customerEmailId" = Some e ->
  s !! "purchaseOrderNumber" = Some po ->
  no_live_order w e po ->
  exists s' ev,
    run_chain refund_tail w s log = (Ok s', log ++ [ev])
    /\ ev_step ev = "user_authetication"
    /\ ev_confidence ev = dec 3 10
    /\ (exists fields, ev_output ev = VDict fields
          /\ alookup "rationale" fields = Some (VStr validation_failure))
    /\ s' !! "is_refundable" = Some (VBool false)
    /\ s' !! "customerEmailId" = Some (VStr "General")
    /\ s' !! "customer_id" = Some (VFloat (dec 3 10))
    /\ s' !! "order_amount" = Some (VFloat 0%Qc)
    /\ s' !! "purchaseOrderNumber" = Some po
    /\ s' !! "avg_confidence" = Some (VStr "Hello")
    /\ s' !! "refund_amount" = s !! "refund_amount"
    /\ s' !! "oracle_service_ticket_number"
       = s !! "oracle_service_ticket_number".
Proof.
  intros Hrun He Hpo Hfail.
  pose proof (validate_without_live_order s log run_id e po Hrun He Hpo Hfail)
    as Hv.
  change (run_chain refund_tail w s log)
    with (match run_node refund_validation_node w s log with
          | (Ok s1, l1) =>
              run_chain [create_refund_case_node; calculate_refund_node;
                         refund_info_node] w s1 l1
          | (Raise e, l1) => (Raise e, l1)
          end).
  unfold run_node. rewrite Hv.
  rewrite (gated_steps_not_refundable _ _ (VStr "General") (VBool false)
             (VFloat (dec 3 10))
             (VStr "Could not parse model output; defaulted.") po)
    by (rewrite ?merged_mkdict_lookup; reflexivity).
  eexists _, _. split; [reflexivity|].
  split; [reflexivity|]. split; [reflexivity|].
  split; [eexists; split; reflexivity|].
  repeat split; rewrite !merged_mkdict_lookup; reflexivity.
Qed.

End Refused.

Lemma refund_refused_without_live_order_witness :
  exists s' ev,
    run_chain refund_tail (refund_world "2026-10-24T10:00:00.000000" true)
      (mkdict [("run_id", VStr "run-1");
               ("customerEmailId", VStr "bob@example.com");
               ("purchaseOrderNumber", VStr "PO-1001")]) []
    = (Ok s', [ev])
    /\ s' !! "is_refundable" = Some (VBool false)
    /\ s' !! "customerEmailId" = Some (VStr "General").
Proof.
  set (s := mkdict [("run_id", VStr "run-1");
                    ("customerEmailId", VStr "bob@example.com");
                    ("purchaseOrderNumber", VStr "PO-1001")]).
  destruct (refund_refused_without_live_order
              (refund_world "2026-10-24T10:00:00.000000" true) s []
              (VStr "run-1") (VStr "bob@example.com") (VStr "PO-1001"))
    as (s' & ev & Hrun & _ & _ & _ & Hflag & Hmail & _).
  - unfold s. by rewrite mkdict_lookup.
  - unfold s. by rewrite mkdict_lookup.
  - unfold s. by rewrite mkdict_lookup.
  - left. reflexivity.
  - exists s', ev. split; [exact Hrun|]. split; assumption.
Defined.

(** ** Retrieval with embeddings *)

Section EmbeddingRetrieval.
Implicit Types (rows : list kb_row) (query : string) (k : nat).

Lemma StronglySorted_take {A} (R : A -> A -> Prop) n (l : list A) :
  StronglySorted R l -> StronglySorted R (take n l).
Proof.
  intros Hs. rewrite <- (take_drop n l) in Hs.
  by apply StronglySorted_app_1_l in Hs.
Qed.

(** In a sorted list every element of a prefix is related to every element
    of the rest. *)
Lemma StronglySorted_take_drop {A} (R : A -> A -> Prop) n (l : list A) x y :
  StronglySorted R l -> x ∈ take n l -> y ∈ drop n l -> R x y.
Proof.
  intros Hs Hx Hy. rewrite <- (take_drop n l) in Hs.
  by apply (StronglySorted_app_1_elem_of R (take n l) (drop n l)).
Qed.

(** The loop of Path A returns when every embedded row can be scored. *)
Lemma embedding_scored_ok cosine rows scored :
  Forall2 (fun r p => cosine (default "" (embedding_json r)) = Ok p.1
                      /\ p.2 = chunk_text r)
    (filter (fun r => has_embedding r = true) rows) scored ->
  embedding_scored cosine rows = Ok scored.
Proof.
  revert scored. induction rows as [|r rows IH]; intros scored.
  - rewrite filter_nil. intros H. by apply Forall2_nil_inv_l in H as ->.
  - rewrite filter_cons. cbn [embedding_scored].
    destruct (has_embedding r).
    + rewrite decide_True by done. intros H.
      apply Forall2_cons_inv_l in H as ([c t] & rest & [Hc Ht] & H & ->).
      cbn in Hc, Ht. rewrite Hc, (IH rest H), Ht. reflexivity.
    + rewrite decide_False by done. apply IH.
Qed.

(** The loop of Path A raises at the first embedded row that cannot be
    scored. *)
Lemma embedding_scored_raises cosine pre r post e :
  Forall (fun r' => has_embedding r' = true ->
                    exists c, cosine (default "" (embedding_json r')) = Ok c)
    pre ->
  has_embedding r = true ->
  cosine (default "" (embedding_json r)) = Raise e ->
  embedding_scored cosine (pre ++ r :: post) = Raise e.
Proof.
  intros Hpre Hemb Hr. induction Hpre as [|r' pre Hr' _ IH]; cbn.
  - by rewrite Hemb, Hr.
  - destruct (has_embedding r'); [|exact IH].
    destruct (Hr' eq_refl) as [c ->]. by rewrite IH.
Qed.

(** X5. [retrieve_context] when an embedding model is configured and some
    stored chunk has an embedding.  Nothing on this path is guarded: when
    embedding the query raises, or when a stored embedding cannot be scored
    (its text is not JSON, or its vector has another dimension), the
    exception of the first such failure leaves [retrieve_context].  When
    every embedded chunk can be scored, only those chunks are ranked, by
    descending cosine, chunks of equal cosine in storage order, and the
    result is the texts of the first [k] of the ranking: min(k, number of
    embedded chunks) entries, and, unlike the lexical path, blank and NULL
    texts are not left out. *)
Theorem retrieve_context_embedding_ranking
    (embed_query : string -> res (string -> res Qc)) rows query k :
  existsb has_embedding rows = true ->
  (forall e,
     embed_query query = Raise e ->
     retrieve_context (Some embed_query) rows query k = Raise e)
  /\ (forall cosine pre r post e,
        embed_query query = Ok cosine ->
        rows = pre ++ r :: post ->
        Forall (fun r' => has_embedding r' = true ->
                          exists c,
                            cosine (default "" (embedding_json r')) = Ok c)
          pre ->
        has_embedding r = true ->
        cosine (default "" (embedding_json r)) = Raise e ->
        retrieve_context (Some embed_query) rows query k = Raise e)
  /\ (forall cosine scored,
        embed_query query = Ok cosine ->
        Forall2 (fun r p => cosine (default "" (embedding_json r)) = Ok p.1
                            /\ p.2 = chunk_text r)
          (filter (fun r => has_embedding r = true) rows) scored ->
        exists ranking,
          retrieve_context (Some embed_query) rows query k
          = Ok (map snd (take k ranking))
          /\ Permutation ranking scored
          /\ StronglySorted (by_desc fst) ranking
          /\ (forall c, filter (fun a => a.1 = c) ranking
                        = filter (fun a => a.1 = c) scored)
          /\ length (map snd (take k ranking))
             = Nat.min k
                 (length (filter (fun r => has_embedding r = true) rows))
          /\ (forall t, t ∈ map snd (take k ranking) ->
                exists r, r ∈ rows /\ has_embedding r = true
                          /\ chunk_text r = t)).
Proof.
  intros Hex.
  assert (Hstart : retrieve_context (Some embed_query) rows query k
                   = match embed_query query with
                     | Ok cosine =>
                         match embedding_scored cosine rows with
                         | Ok scored =>
                             Ok (map snd (take k (sort_desc fst scored)))
                         | Raise e => Raise e
                         end
                     | Raise e => Raise e
                     end).
  { unfold retrieve_context. destruct rows as [|r rows]; [discriminate|].
    by rewrite Hex. }
  rewrite Hstart. split; [by intros e ->|]. split.
  - intros cosine pre r post e -> -> Hpre Hemb Hr.
    by rewrite (embedding_scored_raises cosine pre r post e Hpre Hemb Hr).
  - intros cosine scored -> HF.
    rewrite (embedding_scored_ok cosine rows scored HF).
    exists (sort_desc fst scored).
    assert (Hperm : Permutation (sort_desc fst scored) scored)
      by apply sort_desc_perm.
    split; [reflexivity|]. split; [exact Hperm|].
    split; [apply sort_desc_sorted|].
    split; [intros c; apply (sort_desc_stable fst)|].
    split.
    { rewrite length_map, length_take, Hperm.
      by rewrite (Forall2_length _ _ _ HF). }
    intros t Ht. apply list_elem_of_fmap in Ht as ([c t'] & -> & Hin).
    apply subseteq_take in Hin. rewrite Hperm in Hin.
    apply list_elem_of_lookup in Hin as [i Hi].
    destruct (Forall2_lookup_r _ _ _ _ _ HF Hi) as (r & Hr & _ & Ht).
    apply list_elem_of_lookup_2 in Hr.
    apply list_elem_of_filter in Hr as [Hemb Hr]. by exists r.
Qed.

(** X6. [search_kb]: a query that is blank once stripped has no hits,
    whatever the store holds.  When the query could be embedded, every row
    for which a score can be computed is a candidate; the candidates are
    ranked by descending score, rows of equal score in storage order, and
    the hits are the first [top_k] of that ranking, so no candidate that is
    cut scores above a hit.  No score threshold applies in this mode: a row
    whose score is zero or negative is a candidate like any other. *)
Theorem search_kb_embedding_hits
    (q_emb : option (option string -> option Qc)) rows query top_k :
  (strip query = "" -> search_kb q_emb rows query top_k = [])
  /\ (forall score_of,
        q_emb = Some score_of ->
        strip query <> "" ->
        let candidates :=
          omap (fun r => make_hit r <$> score_of (embedding_json r)) rows in
        exists ranking,
          search_kb q_emb rows query top_k = take top_k ranking
          /\ Permutation ranking candidates
          /\ StronglySorted (by_desc hit_score) ranking
          /\ (forall c, filter (fun h => hit_score h = c) ranking
                        = filter (fun h => hit_score h = c) candidates)
          /\ (forall h h', h ∈ take top_k ranking ->
                h' ∈ drop top_k ranking ->
                (hit_score h' <= hit_score h)%Qc)
          /\ (forall h, h ∈ ranking <->
                exists r, r ∈ rows
                  /\ score_of (embedding_json r) = Some (hit_score h)
                  /\ h = make_hit r (hit_score h))
          /\ length (take top_k ranking)
             = Nat.min top_k
                 (length (filter (fun r =>
                                    is_Some (score_of (embedding_json r)))
                            rows))).
Proof.
  split.
  { intros Hblank. unfold search_kb. by rewrite Hblank. }
  intros score_of -> Hq candidates.
  assert (Hrun : search_kb (Some score_of) rows query top_k
                 = take top_k (sort_desc hit_score candidates)).
  { unfold search_kb.
    destruct (String.eqb_spec (strip query) "") as [Heq|_]; [done|].
    reflexivity. }
  assert (Hperm : Permutation (sort_desc hit_score candidates) candidates)
    by apply sort_desc_perm.
  assert (Hlen : length candidates
                 = length (filter (fun r =>
                                     is_Some (score_of (embedding_json r)))
                             rows)).
  { unfold candidates. clear. induction rows as [|r rows IH]; [done|].
    cbn [omap list_omap]. rewrite filter_cons.
    destruct (score_of (embedding_json r)) as [q|]; cbn [fmap option_fmap
      option_map].
    - rewrite decide_True by eauto. cbn [length]. by rewrite IH.
    - rewrite decide_False by (by intros [? ?]). exact IH. }
  assert (Hel : forall h, h ∈ candidates <->
            exists r, r ∈ rows
              /\ score_of (embedding_json r) = Some (hit_score h)
              /\ h = make_hit r (hit_score h)).
  { intros h. unfold candidates. rewrite list_elem_of_omap. split.
    - intros (r & Hr & Hh). exists r. split; [done|].
      destruct (score_of (embedding_json r)) as [q|]; [|discriminate].
      injection Hh as <-. done.
    - intros (r & Hr & Hs & ->). exists r. split; [done|].
      cbn in Hs. by rewrite Hs. }
  exists (sort_desc hit_score candidates).
  split; [exact Hrun|]. split; [exact Hperm|].
  split; [apply sort_desc_sorted|].
  split; [intros c; apply (sort_desc_stable hit_score)|].
  split.
  { intros h h' Hh Hh'.
    exact (StronglySorted_take_drop (by_desc hit_score) top_k _ h h'
             (sort_desc_sorted hit_score candidates) Hh Hh'). }
  split; [intros h; by rewrite Hperm|].
  by rewrite length_take, Hperm, Hlen.
Qed.

End EmbeddingRetrieval.

Lemma retrieve_context_embedding_ranking_witness :
  let cosine := fun j : string =>
                  if String.eqb j "[1]" then Ok 1%Qc
                  else if String.eqb j "[0]" then Ok 0%Qc
                  else Raise ValueError in
  let rows := [mkKbRow 1 1 (Some "Hello world") None (Some "a.pdf");
               mkKbRow 2 1 (Some "") (Some "[0]") (Some "a.pdf");
               mkKbRow 3 1 (Some "Refund policy") (Some "[1]")
                 (Some "a.pdf")] in
  (exists ranking : list (Qc * option string),
     retrieve_context (Some (fun _ => Ok cosine)) rows "refund" 4
     = Ok (map snd (take 4 ranking))
     /\ Permutation ranking [(0%Qc, Some ""); (1%Qc, Some "Refund policy")]
     /\ length (map snd (take 4 ranking)) = 2%nat)
  /\ retrieve_context (Some (fun _ => Ok cosine))
       (rows ++ [mkKbRow 4 1 (Some "Terms") (Some "oops") (Some "a.pdf")])
       "refund" 4
     = Raise ValueError.
Proof.
  intros cosine rows. split.
  - destruct (retrieve_context_embedding_ranking (fun _ => Ok cosine) rows
                "refund" 4 eq_refl) as (_ & _ & Hrank).
    destruct (Hrank cosine [(0%Qc, Some ""); (1%Qc, Some "Refund policy")]
                eq_refl) as (ranking & Hrun & Hperm & _ & _ & Hlen & _).
    { repeat constructor. }
    exists ranking. split; [exact Hrun|]. split; [exact Hperm|].
    rewrite Hlen. reflexivity.
  - destruct (retrieve_context_embedding_ranking (fun _ => Ok cosine)
                (rows ++ [mkKbRow 4 1 (Some "Terms") (Some "oops")
                            (Some "a.pdf")])
                "refund" 4 eq_refl) as (_ & Hraise & _).
    apply (Hraise cosine rows
             (mkKbRow 4 1 (Some "Terms") (Some "oops") (Some "a.pdf")) []
             ValueError eq_refl eq_refl); [|reflexivity|reflexivity].
    repeat constructor; intros H;
      first [discriminate H | eexists; reflexivity].
Defined.

Lemma search_kb_embedding_hits_witness :
  let score_of := fun j : option string =>
                    match j with
                    | Some "[1]" => Some 1%Qc
                    | Some "[0]" => Some 0%Qc
                    | _ => None
                    end in
  let rows := [mkKbRow 1 1 (Some "Hello world") None (Some "a.pdf");
               mkKbRow 2 1 (Some "") (Some "[0]") (Some "a.pdf");
               mkKbRow 3 1 (Some "Refund policy") (Some "[1]")
                 (Some "a.pdf")] in
  search_kb (Some score_of) rows "   " 4 = []
  /\ length (search_kb (Some score_of) rows "refund" 1) = 1%nat.
Proof.
  intros score_of rows.
  destruct (search_kb_embedding_hits (Some score_of) rows "   " 4)
    as [Hblank _].
  destruct (search_kb_embedding_hits (Some score_of) rows "refund" 1)
    as [_ Hhits].
  split; [apply Hblank; reflexivity|].
  destruct (Hhits score_of eq_refl) as (ranking & Hrun & _ & _ & _ & _ & _
                                        & Hlen); [discriminate|].
  rewrite Hrun, Hlen. reflexivity.
Defined.

(** ** Chunking *)

Section Chunking.
Implicit Types (text : string) (size overlap step i : Z) (fuel : nat).

Lemma length_chars s : length (chars s) = String.length s.
Proof. unfold chars. induction s; simpl; congruence. Qed.

Lemma string_of_chars l : chars (string_of_list_ascii l) = l.
Proof. apply list_ascii_of_string_of_list_ascii. Qed.

Lemma chunk_windows_returns fuel text i size step :
  1 <= step -> 0 <= i ->
  Z.of_nat (String.length text) - i <= Z.of_nat fuel ->
  exists windows, chunk_windows fuel text i size step = Some windows.
Proof.
  intros Hstep. revert i. induction fuel as [|fuel IH]; intros i Hi Hfuel.
  - simpl. destruct (Z.ltb_spec i (Z.of_nat (String.length text))); [lia|].
    eauto.
  - cbn [chunk_windows].
    destruct (Z.ltb_spec i (Z.of_nat (String.length text))); [|eauto].
    destruct (IH (i + step)) as [rest ->]; [lia|lia|]. eauto.
Qed.

Lemma chunk_windows_cover fuel text i size step windows :
  1 <= step -> step <= size -> 0 <= i ->
  chunk_windows fuel text i size step = Some windows ->
  concat (map (fun c => take (Z.to_nat step) (chars c)) windows)
  = drop (Z.to_nat i) (chars text).
Proof.
  intros Hstep Hsize. revert i windows.
  induction fuel as [|fuel IH]; intros i windows Hi; cbn [chunk_windows];
    destruct (Z.ltb_spec i (Z.of_nat (String.length text))) as [Hlt|Hge];
    try discriminate.
  - intros [= <-]. rewrite drop_ge; [done|]. rewrite length_chars. lia.
  - destruct (chunk_windows fuel text (i + step) size step) as [rest|] eqn:Hr;
      [|discriminate].
    intros [= <-]. cbn [map concat]. rewrite (IH (i + step) rest ltac:(lia) Hr).
    unfold py_slice. rewrite string_of_chars. fold (chars text).
    unfold slice_index.
    destruct (Z.ltb_spec i 0); [lia|].
    destruct (Z.ltb_spec (i + size) 0); [lia|].
    rewrite (Z.min_l i) by lia.
    rewrite take_take.
    assert (Hmin : (Z.to_nat step `min`
                      Z.to_nat (Z.min (i + size)
                                  (Z.of_nat (String.length text)) - i))%nat
                   = (Z.to_nat step `min` (length (chars text) - Z.to_nat i))%nat)
      by (rewrite length_chars; lia).
    rewrite Hmin.
    rewrite <- (take_drop (Z.to_nat step) (drop (Z.to_nat i) (chars text)))
      at 2.
    rewrite drop_drop. f_equal.
    + destruct (Nat.le_gt_cases (Z.to_nat step)
                  (length (chars text) - Z.to_nat i)).
      * by rewrite Nat.min_l.
      * rewrite Nat.min_r by lia.
        rewrite !take_ge; [done| |]; rewrite length_drop; lia.
    + f_equal. lia.
  - intros [= <-]. rewrite drop_ge; [done|]. rewrite length_chars. lia.
Qed.

Lemma chunk_windows_bounded fuel text i size step windows :
  0 <= size -> 0 <= i ->  1 <= step ->
  chunk_windows fuel text i size step = Some windows ->
  forall c, c ∈ windows ->
    (String.length c <= Z.to_nat size)%nat
    /\ exists n, chars c = take (Z.to_nat size) (drop n (chars text)).
Proof.
  intros Hsize Hi Hstep. revert i Hi windows.
  induction fuel as [|fuel IH]; intros i Hi windows; cbn [chunk_windows];
    destruct (Z.ltb_spec i (Z.of_nat (String.length text))) as [Hlt|Hge];
    try discriminate.
  - intros [= <-] c Hc. by apply elem_of_nil in Hc.
  - destruct (chunk_windows fuel text (i + step) size step) as [rest|] eqn:Hr;
      [|discriminate].
    intros [= <-] c Hc. apply elem_of_cons in Hc as [->|Hc].
    + assert (Hs : chars (py_slice text i (i + size))
                   = take (Z.to_nat size) (drop (Z.to_nat i) (chars text))).
      { unfold py_slice. rewrite string_of_chars. fold (chars text).
        unfold slice_index.
        destruct (Z.ltb_spec i 0); [lia|].
        destruct (Z.ltb_spec (i + size) 0); [lia|].
        rewrite (Z.min_l i) by lia.
        destruct (Z.le_gt_cases (i + size) (Z.of_nat (String.length text))).
        - rewrite Z.min_l by lia. f_equal. lia.
        - rewrite Z.min_r by lia.
          rewrite !take_ge; [done| |]; rewrite length_drop, length_chars; lia. }
      split; [|eauto].
      rewrite <- length_chars, Hs, length_take. lia.
    + by apply (IH (i + step) ltac:(lia) rest Hr).
  - intros [= <-] c Hc. by apply elem_of_nil in Hc.
Qed.

(** X7. [_chunk_text] always leaves its loop: the step is at least 1
    whatever the chunk size and the overlap, so as many iterations as the
    normalised text has characters suffice.  With a positive chunk size and
    an overlap that is not negative, the windows the loop cuts cover the
    normalised text (their first [step] characters, concatenated, are the
    text), each window is a piece of at most [chunk_size] consecutive
    characters of it, and the result is the windows that are not blank, in
    order. *)
Theorem chunk_text_windows_cover fuel text size overlap :
  (String.length (normalize_spaces text) <= fuel)%nat ->
  exists windows,
    chunk_windows fuel (normalize_spaces text) 0 size (chunk_step size overlap)
    = Some windows
    /\ _chunk_text fuel text size overlap
       = Some (List.filter nonblank windows)
    /\ (0 < size -> 0 <= overlap ->
        concat (map (fun c => take (Z.to_nat (chunk_step size overlap))
                                (chars c)) windows)
        = chars (normalize_spaces text))
    /\ (0 <= size ->
        forall c, c ∈ windows ->
          (String.length c <= Z.to_nat size)%nat
          /\ exists n, chars c
                       = take (Z.to_nat size)
                           (drop n (chars (normalize_spaces text)))).
Proof.
  intros Hfuel.
  assert (Hstep : 1 <= chunk_step size overlap)
    by (unfold chunk_step; lia).
  destruct (chunk_windows_returns fuel (normalize_spaces text) 0 size
              (chunk_step size overlap) Hstep ltac:(lia) ltac:(lia))
    as [windows Hw].
  exists windows. split; [exact Hw|].
  split; [unfold _chunk_text; cbv zeta; by rewrite Hw|].
  split.
  - intros Hsize Hov.
    rewrite (chunk_windows_cover _ _ 0 size _ _ Hstep
               ltac:(unfold chunk_step; lia) ltac:(lia) Hw).
    reflexivity.
  - intros Hsize.
    apply (chunk_windows_bounded _ _ 0 size _ _ Hsize ltac:(lia) Hstep Hw).
Qed.

End Chunking.

Lemma chunk_text_windows_cover_witness :
  _chunk_text 13 "  Refund   policy " 8 3
  = Some ["Refund p"; "d policy"; "icy"].
Proof.
  destruct (chunk_text_windows_cover 13 "  Refund   policy " 8 3)
    as (windows & Hw & Hrun & _).
  - apply Nat.leb_le. vm_compute. reflexivity.
  - rewrite Hrun. f_equal.
    assert (Hc : chunk_windows 13 (normalize_spaces "  Refund   policy ") 0 8
                   (chunk_step 8 3)
                 = Some ["Refund p"; "d policy"; "icy"])
      by (vm_compute; reflexivity).
    rewrite Hc in Hw. injection Hw as <-. reflexivity.
Defined.

(** ** Normalised text has no blank window *)

Section Normalised.

Lemma chars_app a b : chars (a ++ b)%string = chars a ++ chars b.
Proof.
  unfold chars. induction a as [|c a IH]; [done|].
  change (String c a ++ b)%string with (String c (a ++ b)%string).
  cbn [list_ascii_of_string]. by rewrite IH.
Qed.

Lemma split_aux_words cur s w :
  Forall (fun c => is_space c = false) cur ->
  w ∈ split_aux cur s -> is_word (chars w).
Proof.
  revert cur. induction s as [|c s IH]; intros cur Hcur; cbn [split_aux].
  - destruct cur as [|x cur]; [intros H; by apply elem_of_nil in H|].
    intros H. apply list_elem_of_singleton in H as ->.
    rewrite string_of_chars. split.
    + intros Hnil. apply (f_equal length) in Hnil.
      rewrite length_rev in Hnil. discriminate Hnil.
    + apply Forall_rev. exact Hcur.
  - destruct (is_space c) eqn:Hc.
    + intros H. apply elem_of_app in H as [H|H].
      * destruct cur as [|x cur]; [by apply elem_of_nil in H|].
        apply list_elem_of_singleton in H as ->.
        rewrite string_of_chars. split.
        -- intros Hnil. apply (f_equal length) in Hnil.
           rewrite length_rev in Hnil. discriminate Hnil.
        -- apply Forall_rev. exact Hcur.
      * apply (IH []); [constructor|exact H].
    + apply IH. by constructor.
Qed.

Lemma join_words ws :
  ws <> [] -> Forall (fun w => is_word (chars w)) ws ->
  single_spaced (chars (join " " ws)).
Proof.
  induction ws as [|w ws IH]; [done|]. intros _ Hall.
  apply Forall_cons in Hall as [Hw Hall].
  destruct ws as [|w' ws].
  - by apply spaced_word.
  - change (join " " (w :: w' :: ws))
      with (w +:+ " " +:+ join " " (w' :: ws)).
    rewrite chars_app.
    change (chars (" " +:+ join " " (w' :: ws)))
      with (" "%char :: chars (join " " (w' :: ws))).
    apply spaced_more; [exact Hw|]. by apply IH.
Qed.

Lemma normalize_spaces_shape text :
  chars (normalize_spaces text) = []
  \/ single_spaced (chars (normalize_spaces text)).
Proof.
  unfold normalize_spaces. destruct (split text) as [|w ws] eqn:Hs.
  - by left.
  - right. apply join_words; [done|].
    apply Forall_forall. intros x Hx. rewrite <- Hs in Hx.
    by apply (split_aux_words [] text x).
Qed.

Lemma single_spaced_head l :
  single_spaced l -> exists c r, l = c :: r /\ is_space c = false.
Proof.
  intros [w [Hne Hw]|w l' [Hne Hw] _]; destruct w as [|c w]; try done;
    apply Forall_cons in Hw as [Hc _]; eauto.
Qed.

(** Every non-empty suffix of a single-spaced text starts with a character
    that is not whitespace, or with one space followed by such a
    character. *)
Lemma single_spaced_suffix l i :
  single_spaced l -> (i < length l)%nat ->
  exists c r, drop i l = c :: r
    /\ (is_space c = false
        \/ exists c' r', r = c' :: r' /\ is_space c' = false).
Proof.
  intros Hl. revert i. induction Hl as [w [Hne Hw]|w l [Hne Hw] Hl IH];
    intros i Hi.
  - destruct (drop i w) as [|c r] eqn:Hd.
    { apply (f_equal length) in Hd. rewrite length_drop in Hd. simpl in Hd.
      lia. }
    exists c, r. split; [done|]. left.
    rewrite Forall_forall in Hw. apply Hw.
    apply (subseteq_drop i w). rewrite Hd. by left.
  - destruct (Nat.lt_trichotomy i (length w)) as [Hlt|[->|Hgt]].
    + rewrite drop_app_le by lia.
      destruct (drop i w) as [|c r] eqn:Hd.
      { apply (f_equal length) in Hd. rewrite length_drop in Hd.
        simpl in Hd. lia. }
      exists c, (r ++ " "%char :: l). split; [done|]. left.
      rewrite Forall_forall in Hw. apply Hw.
      apply (subseteq_drop i w). rewrite Hd. by left.
    + rewrite drop_app_length.
      exists " "%char, l. split; [done|]. right.
      destruct (single_spaced_head l Hl) as (c' & r' & -> & Hc'). eauto.
    + rewrite drop_app_ge by lia.
      replace (i - length w)%nat with (S (i - length w - 1)) by lia.
      cbn [drop]. apply IH. rewrite length_app in Hi. simpl in Hi. lia.
Qed.

Lemma nonblank_chars s :
  nonblank s = true <-> Exists (fun c => is_space c = false) (chars s).
Proof.
  unfold nonblank, chars. induction s as [|c s IH]; cbn [lstrip].
  - split; [discriminate|]. intros H. by apply Exists_nil in H.
  - destruct (is_space c) eqn:Hc.
    + rewrite IH. cbn [list_ascii_of_string]. rewrite Exists_cons.
      split; [by right|]. intros [H|H]; [congruence|done].
    + split; [|done]. intros _. cbn [list_ascii_of_string].
      apply Exists_cons. by left.
Qed.

Lemma chunk_windows_nonblank fuel text i size step windows :
  single_spaced (chars text) ->
  2 <= size -> 0 <= i -> 1 <= step ->
  chunk_windows fuel text i size step = Some windows ->
  Forall (fun c => nonblank c = true) windows.
Proof.
  intros Htext Hsize. revert i windows.
  induction fuel as [|fuel IH]; intros i windows Hi Hstep;
    cbn [chunk_windows];
    destruct (Z.ltb_spec i (Z.of_nat (String.length text))) as [Hlt|Hge];
    try discriminate; try (intros [= <-]; constructor).
  destruct (chunk_windows fuel text (i + step) size step) as [rest|] eqn:Hr;
    [|discriminate].
  intros [= <-]. constructor; [|by apply (IH (i + step) rest); [lia|lia|]].
  apply nonblank_chars.
  assert (Hs : chars (py_slice text i (i + size))
               = take (Z.to_nat size) (drop (Z.to_nat i) (chars text))).
  { unfold py_slice. rewrite string_of_chars. fold (chars text).
    unfold slice_index.
    destruct (Z.ltb_spec i 0); [lia|].
    destruct (Z.ltb_spec (i + size) 0); [lia|].
    rewrite (Z.min_l i) by lia.
    destruct (Z.le_gt_cases (i + size) (Z.of_nat (String.length text))).
    - rewrite Z.min_l by lia. f_equal. lia.
    - rewrite Z.min_r by lia.
      rewrite !take_ge; [done| |]; rewrite length_drop, length_chars; lia. }
  rewrite Hs.
  destruct (single_spaced_suffix (chars text) (Z.to_nat i) Htext)
    as (c & r & -> & Hc); [rewrite length_chars; lia|].
  replace (Z.to_nat size) with (S (S (Z.to_nat size - 2))) by lia.
  destruct Hc as [Hc|(c' & r' & -> & Hc')]; cbn [take].
  - apply Exists_cons. by left.
  - apply Exists_cons. right. apply Exists_cons. by left.
Qed.

(** X8. With a chunk size of at least 2 and an overlap that is not
    negative, [_chunk_text] drops nothing: whitespace runs of the input are
    first collapsed to single spaces, so no window is blank, the chunks
    returned are all the windows, and their first [step] characters,
    concatenated, are the normalised text.  A text made of whitespace only
    has no chunks. *)
Theorem chunk_text_keeps_every_window fuel text size overlap :
  (String.length (normalize_spaces text) <= fuel)%nat ->
  2 <= size -> 0 <= overlap ->
  exists chunks,
    _chunk_text fuel text size overlap = Some chunks
    /\ Forall (fun c => nonblank c = true
                        /\ (String.length c <= Z.to_nat size)%nat) chunks
    /\ concat (map (fun c => take (Z.to_nat (chunk_step size overlap))
                               (chars c)) chunks)
       = chars (normalize_spaces text)
    /\ (Forall (fun c => is_space c = true) (chars text) -> chunks = []).
Proof.
  intros Hfuel Hsize Hov.
  assert (Hstep : 1 <= chunk_step size overlap) by (unfold chunk_step; lia).
  destruct (chunk_windows_returns fuel (normalize_spaces text) 0 size
              (chunk_step size overlap) Hstep ltac:(lia) ltac:(lia))
    as [windows Hw].
  assert (Hrun : _chunk_text fuel text size overlap
                 = Some (List.filter nonblank windows))
    by (unfold _chunk_text; cbv zeta; by rewrite Hw).
  pose proof (chunk_windows_cover _ _ 0 size _ _ Hstep
                ltac:(unfold chunk_step; lia) ltac:(lia) Hw) as Hcover.
  pose proof (chunk_windows_bounded _ _ 0 size _ _ ltac:(lia) ltac:(lia)
                Hstep Hw) as Hbound.
  assert (Hnb : Forall (fun c => nonblank c = true) windows).
  { destruct (normalize_spaces_shape text) as [Hnil|Hsp].
    - assert (Hlen : String.length (normalize_spaces text) = 0%nat)
        by (rewrite <- length_chars, Hnil; done).
      destruct fuel; cbn [chunk_windows] in Hw; rewrite Hlen in Hw;
        cbn in Hw; injection Hw as <-; constructor.
    - apply (chunk_windows_nonblank fuel _ 0 size _ windows Hsp Hsize
               ltac:(lia) Hstep Hw). }
  assert (Hall : List.filter nonblank windows = windows).
  { clear -Hnb. induction Hnb as [|c l Hc _ IH]; [done|].
    cbn [List.filter]. by rewrite Hc, IH. }
  exists windows. rewrite Hrun, Hall. split; [done|].
  split.
  { apply Forall_forall. intros c Hc. split.
    - rewrite Forall_forall in Hnb. by apply Hnb.
    - by apply (Hbound c Hc). }
  split; [exact Hcover|].
  intros Hblank.
  assert (Hsplit : forall s, Forall (fun c => is_space c = true) (chars s) ->
                             split_aux [] s = []).
  { clear. induction s as [|c s IH]; [done|]. cbn [chars list_ascii_of_string].
    intros H. apply Forall_cons in H as [Hc H]. cbn [split_aux].
    rewrite Hc. cbn. by apply IH. }
  assert (Hnorm : normalize_spaces text = "").
  { unfold normalize_spaces, split. by rewrite (Hsplit _ Hblank). }
  rewrite Hnorm in Hw. destruct fuel; cbn in Hw; by injection Hw as <-.
Qed.

End Normalised.

Lemma chunk_text_keeps_every_window_witness :
  exists chunks,
    _chunk_text 13 "  Refund   policy " 8 3 = Some chunks
    /\ concat (map (fun c => take 5 (chars c)) chunks)
       = chars "Refund policy".
Proof.
  destruct (chunk_text_keeps_every_window 13 "  Refund   policy " 8 3)
    as (chunks & Hrun & _ & Hcover & _).
  - apply Nat.leb_le. vm_compute. reflexivity.
  - lia.
  - lia.
  - exists chunks. split; [exact Hrun|]. exact Hcover.
Defined.

(** ** Guardrails *)

Section Guardrails.

Lemma chars_lstrip s : chars (lstrip s) = lstrip_chars (chars s).
Proof.
  unfold chars. induction s as [|c s IH]; [done|].
  cbn [lstrip list_ascii_of_string lstrip_chars].
  by destruct (is_space c).
Qed.

Lemma chars_string_rev s : chars (string_rev s) = rev (chars s).
Proof. unfold string_rev. apply string_of_chars. Qed.

Lemma chars_strip s :
  chars (strip s) = rev (lstrip_chars (rev (lstrip_chars (chars s)))).
Proof.
  unfold strip.
  by rewrite chars_string_rev, chars_lstrip, chars_string_rev, chars_lstrip.
Qed.

Lemma chars_inj s t : chars s = chars t -> s = t.
Proof.
  unfold chars. intros H.
  rewrite <- (string_of_list_ascii_of_string s),
          <- (string_of_list_ascii_of_string t). by rewrite H.
Qed.

Lemma lstrip_chars_head l c r :
  lstrip_chars l = c :: r -> is_space c = false.
Proof.
  induction l as [|x l IH]; [done|]. cbn [lstrip_chars].
  destruct (is_space x) eqn:Hx; [exact IH|]. by intros [= <- <-].
Qed.

Lemma lstrip_chars_fixed c r :
  is_space c = false -> lstrip_chars (c :: r) = c :: r.
Proof. intros H. cbn. by rewrite H. Qed.

Lemma lstrip_chars_snoc l c :
  is_space c = false -> lstrip_chars (l ++ [c]) = lstrip_chars l ++ [c].
Proof.
  intros Hc. induction l as [|x l IH]; cbn [app lstrip_chars].
  - by rewrite Hc.
  - by destruct (is_space x).
Qed.

Lemma lstrip_chars_sublist l : sublist (lstrip_chars l) l.
Proof.
  induction l as [|x l IH]; [done|]. cbn [lstrip_chars].
  destruct (is_space x); [by apply sublist_cons|done].
Qed.

(** The two ends of a stripped text. *)
Lemma strip_chars_ends l :
  let r := rev (lstrip_chars (rev (lstrip_chars l))) in
  lstrip_chars r = r /\ lstrip_chars (rev r) = rev r.
Proof.
  cbv zeta. rewrite rev_involutive.
  destruct (lstrip_chars l) as [|c t] eqn:Ht; [done|].
  pose proof (lstrip_chars_head _ _ _ Ht) as Hc.
  cbn [rev]. rewrite (lstrip_chars_snoc _ _ Hc).
  rewrite rev_app_distr. cbn [rev app].
  split; [by apply lstrip_chars_fixed|].
  destruct (lstrip_chars (rev t)) as [|x u] eqn:Hu; cbn [app].
  - by apply lstrip_chars_fixed.
  - apply lstrip_chars_fixed. exact (lstrip_chars_head _ _ _ Hu).
Qed.

Lemma strip_fixed s :
  lstrip_chars (chars s) = chars s ->
  lstrip_chars (rev (chars s)) = rev (chars s) ->
  strip s = s.
Proof.
  intros H1 H2. apply chars_inj.
  by rewrite chars_strip, H1, H2, rev_involutive.
Qed.

Lemma chars_remove_nul s :
  chars (remove_nul s) = List.filter (fun c => negb (Ascii.eqb c zero)) (chars s).
Proof.
  unfold chars. induction s as [|c s IH]; [done|].
  cbn [remove_nul list_ascii_of_string List.filter].
  destruct (Ascii.eqb c zero); cbn; [exact IH | by rewrite IH].
Qed.

Lemma remove_nul_fixed s :
  Forall (fun c => c <> zero) (chars s) -> remove_nul s = s.
Proof.
  unfold chars. induction s as [|c s IH]; [done|].
  cbn [list_ascii_of_string remove_nul]. intros H.
  apply Forall_cons in H as [Hc H].
  destruct (Ascii.eqb_spec c zero); [done|]. by rewrite IH.
Qed.

Lemma sanitize_text_facts s :
  let r := sanitize_text s in
  sanitize_text r = r
  /\ Forall (fun c => c <> zero) (chars r)
  /\ (forall c rest, chars r = c :: rest -> is_space c = false)
  /\ (forall c init, chars r = init ++ [c] -> is_space c = false)
  /\ sublist (chars r) (chars s).
Proof.
  cbv zeta. unfold sanitize_text.
  set (t := remove_nul s).
  destruct (strip_chars_ends (chars t)) as [Hl Hr].
  rewrite <- chars_strip in Hl, Hr.
  assert (Hsub : sublist (chars (strip t)) (chars t)).
  { rewrite chars_strip.
    assert (Hrev : forall a b : list ascii, sublist a b -> sublist (rev a) (rev b)).
    { intros a b H. induction H as [|x a b _ IH|x a b _ IH]; [done| |].
      - cbn [rev]. by apply sublist_app.
      - cbn [rev]. rewrite <- (app_nil_r (rev a)). by apply sublist_app;
          [|apply sublist_nil_l]. }
    etrans; [apply Hrev, lstrip_chars_sublist|].
    rewrite rev_involutive. apply lstrip_chars_sublist. }
  assert (Hnul : Forall (fun c => c <> zero) (chars (strip t))).
  { apply Forall_forall. intros c Hc.
    assert (Hin : c ∈ chars t) by (by eapply elem_of_sublist).
    unfold t in Hin. rewrite chars_remove_nul in Hin.
    apply list_elem_of_In, filter_In in Hin as [_ Hne].
    destruct (Ascii.eqb_spec c zero); [discriminate|done]. }
  split; [|split; [|split; [|split]]].
  - rewrite (remove_nul_fixed _ Hnul). by apply strip_fixed.
  - exact Hnul.
  - intros c rest Hc. rewrite Hc in Hl. by apply (lstrip_chars_head _ _ _ Hl).
  - intros c init Hc. rewrite Hc, rev_app_distr in Hr. cbn [rev app] in Hr.
    by apply (lstrip_chars_head _ _ _ Hr).
  - etrans; [exact Hsub|]. unfold t. rewrite chars_remove_nul.
    clear. induction (chars s) as [|c l IH]; [done|]. cbn [List.filter].
    destruct (negb _); [by apply sublist_skip | by apply sublist_cons].
Qed.

(** The whitespace [lstrip] drops. *)
Lemma lstrip_chars_split l :
  exists pre, l = pre ++ lstrip_chars l
              /\ Forall (fun c => is_space c = true) pre.
Proof.
  induction l as [|c l (pre & IH & Hpre)]; [by exists []|].
  cbn [lstrip_chars]. destruct (is_space c) eqn:Hc.
  - exists (c :: pre). split; [cbn; by rewrite <- IH|by constructor].
  - by exists [].
Qed.

(** What [sanitize_text] keeps: all of the text without its NULs, between
    the whitespace at its two ends. *)
Lemma sanitize_text_core s :
  exists pre post,
    List.filter (fun c => negb (Ascii.eqb c zero)) (chars s)
    = pre ++ chars (sanitize_text s) ++ post
    /\ Forall (fun c => is_space c = true) pre
    /\ Forall (fun c => is_space c = true) post.
Proof.
  unfold sanitize_text. rewrite <- chars_remove_nul, chars_strip.
  set (l := chars (remove_nul s)).
  destruct (lstrip_chars_split l) as (pre & Hl & Hpre).
  destruct (lstrip_chars_split (rev (lstrip_chars l))) as (post & Hm & Hpost).
  exists pre, (rev post). split; [|split; [done|]].
  - rewrite Hl at 1. f_equal.
    rewrite <- (rev_involutive (lstrip_chars l)) at 1.
    rewrite Hm at 1. by rewrite rev_app_distr.
  - apply Forall_forall. intros c Hc. rewrite Forall_forall in Hpost.
    apply Hpost. apply list_elem_of_In. apply in_rev.
    by apply list_elem_of_In.
Qed.

(** X9. [sanitize_text] removes every NUL character and the whitespace at
    both ends, and nothing else: the input without its NULs is the result
    between two runs of whitespace, and the result neither starts nor ends
    with whitespace; so the result has no NUL, its characters are characters
    of the input in their order, and sanitising it again changes
    nothing. *)
Theorem sanitize_text_idempotent s :
  let r := sanitize_text s in
  (exists pre post,
     List.filter (fun c => negb (Ascii.eqb c zero)) (chars s)
     = pre ++ chars r ++ post
     /\ Forall (fun c => is_space c = true) pre
     /\ Forall (fun c => is_space c = true) post)
  /\ (forall c rest, chars r = c :: rest -> is_space c = false)
  /\ (forall c init, chars r = init ++ [c] -> is_space c = false)
  /\ Forall (fun c => c <> zero) (chars r)
  /\ sublist (chars r) (chars s)
  /\ sanitize_text r = r.
Proof.
  cbv zeta.
  destruct (sanitize_text_facts s) as (Hidem & Hnul & Hhead & Hlast & Hsub).
  split; [apply sanitize_text_core|]. by repeat split.
Qed.

(** The verdict of [guard_email_input] and its flags. *)
Lemma guard_email_input_facts subject body :
  let '(ok, flags) := guard_email_input subject body in
  let low := lower (subject +:+ nl +:+ body) in
  (ok = true <-> flags = [])
  /\ (ok = true <->
      Forall (fun p => snd p low = false) INJECTION_PATTERNS
      /\ (String.length body <= body_limit)%nat)
  /\ ("Body too large; truncated." ∈ flags
      <-> (body_limit < String.length body)%nat)
  /\ (length flags <= 2)%nat.
Proof.
  unfold guard_email_input, basic_injection_check. cbv zeta.
  set (low := lower (subject +:+ nl +:+ body)).
  set (hits := map fst (List.filter (fun p => snd p low) INJECTION_PATTERNS)).
  assert (Hhits : hits = [] <->
            Forall (fun p => snd p low = false) INJECTION_PATTERNS).
  { unfold hits. clear. induction INJECTION_PATTERNS as [|p l IH].
    - split; [constructor|done].
    - cbn [List.filter]. destruct (snd p low) eqn:Hp; cbn [map].
      + split; [discriminate|]. intros H. apply Forall_cons in H as [H _].
        congruence.
      + rewrite IH. split; [by constructor|].
        intros H. by apply Forall_cons in H as [_ H]. }
  destruct hits as [|h hits]; cbn [length Nat.eqb negb app].
  - destruct (Nat.ltb_spec body_limit (String.length body)) as [Hlt|Hle];
      cbn [app length Nat.eqb].
    + split; [split; discriminate|]. split.
      * split; [discriminate|]. intros [_ H]. lia.
      * split; [|lia]. split; [done|]. intros _. by left.
    + split; [done|]. split.
      * split; [|done]. intros _. split; [by apply Hhits|done].
      * split; [|lia]. split; [intros H; by apply elem_of_nil in H|lia].
  - destruct (Nat.ltb_spec body_limit (String.length body)) as [Hlt|Hle];
      cbn [app length Nat.eqb].
    + split; [split; discriminate|]. split.
      * split; [discriminate|]. intros [_ H]. lia.
      * split; [|lia]. split; [done|]. intros _. right. by left.
    + split; [split; discriminate|]. split.
      * split; [discriminate|]. intros [H _]. by apply Hhits in H.
      * split; [|lia]. split; [|lia].
        intros H. apply list_elem_of_singleton in H. discriminate H.
Qed.

(** X10. [guard_email_input] passes an email ([ok]) exactly when it raises
    no flag, that is when none of the seven injection patterns occurs in
    the lower-cased subject, newline, body, and the body has at most 20000
    characters; the two conditions are flagged separately, in that order,
    so there are at most two flags, and the size flag is raised exactly
    when the body is longer than the limit. *)
Theorem guard_email_input_flags subject body :
  let '(ok, flags) := guard_email_input subject body in
  let low := lower (subject +:+ nl +:+ body) in
  (ok = true <-> flags = [])
  /\ (ok = true <->
      Forall (fun p => snd p low = false) INJECTION_PATTERNS
      /\ (String.length body <= body_limit)%nat)
  /\ ("Body too large; truncated." ∈ flags
      <-> (body_limit < String.length body)%nat)
  /\ (length flags <= 2)%nat.
Proof. exact (guard_email_input_facts subject body). Qed.

Lemma chars_py_slice_prefix s n :
  chars (py_slice s 0 (Z.of_nat n)) = take n (chars s).
Proof.
  unfold py_slice. rewrite string_of_chars. fold (chars s).
  unfold slice_index. cbn [Z.ltb Z.compare].
  destruct (Z.ltb_spec (Z.of_nat n) 0); [lia|].
  rewrite (Z.min_l 0) by lia. cbn [Z.to_nat drop]. rewrite Z.sub_0_r.
  destruct (Z.le_gt_cases (Z.of_nat n) (Z.of_nat (String.length s))).
  - rewrite Z.min_l by lia. by rewrite Nat2Z.id.
  - rewrite Z.min_r by lia. rewrite Nat2Z.id.
    rewrite (take_ge _ n) by (rewrite length_chars; lia).
    apply take_ge. rewrite length_chars. lia.
Qed.

(** X11. The state the request handler gives to the graph: subject and
    body are sanitised, the body is cut to its first 20000 characters, and
    the guardrail verdict is computed on the sanitised body before the cut;
    so the body in the state never has more than 20000 characters, it
    differs from the sanitised body exactly when the size flag is raised,
    and a flagged email is handed to the graph like any other, with
    [ok = False] recorded beside it.  A body within the 20000 characters
    that the request schema allows is never cut and never flagged for its
    size. *)
Theorem chat_state_body_within_limit run_id sender subject body :
  exists body' ok flags,
    chat_state run_id sender subject body
    = initial_state run_id sender (sanitize_text subject) body' ok flags
    /\ (ok, flags)
       = guard_email_input (sanitize_text subject) (sanitize_text body)
    /\ chars body' = take body_limit (chars (sanitize_text body))
    /\ (String.length body' <= body_limit)%nat
    /\ (body' <> sanitize_text body
        <-> "Body too large; truncated." ∈ flags)
    /\ (ok = false <-> flags <> [])
    /\ ((String.length body <= body_limit)%nat ->
        body' = sanitize_text body
        /\ "Body too large; truncated." ∉ flags).
Proof.
  assert (Hshort : (String.length (sanitize_text body)
                    <= String.length body)%nat).
  { destruct (sanitize_text_facts body) as (_ & _ & _ & _ & Hsub).
    apply sublist_length in Hsub. by rewrite !length_chars in Hsub. }
  revert Hshort.
  unfold chat_state. cbv zeta.
  pose proof (guard_email_input_facts (sanitize_text subject)
                (sanitize_text body)) as Hg.
  destruct (guard_email_input (sanitize_text subject) (sanitize_text body))
    as [ok flags].
  cbv zeta in Hg. destruct Hg as (Hok & _ & Hsize & _).
  set (b := sanitize_text body) in *. intros Hshort.
  eexists _, ok, flags. split; [reflexivity|]. split; [reflexivity|].
  destruct (Nat.leb_spec (String.length b) body_limit) as [Hle|Hgt].
  - split; [rewrite take_ge; [done|rewrite length_chars; lia]|].
    split; [done|]. split; [|split].
    + rewrite Hsize. split; [done|lia].
    + rewrite <- Hok. destruct ok; split; congruence.
    + intros _. split; [done|]. rewrite Hsize. lia.
  - assert (Hc := chars_py_slice_prefix b body_limit).
    split; [exact Hc|]. split.
    + rewrite <- length_chars, Hc, length_take. lia.
    + split; [|split].
      * rewrite Hsize. split; [done|]. intros _ Heq.
        apply (f_equal String.length) in Heq.
        rewrite <- (length_chars (py_slice _ _ _)), Hc, length_take,
          length_chars in Heq. lia.
      * rewrite <- Hok. destruct ok; split; congruence.
      * lia.
Qed.

End Guardrails.

(** ** Deduplication of reference URLs *)

Section Dedupe.

Lemma strip_idempotent s : strip (strip s) = strip s.
Proof.
  destruct (strip_chars_ends (chars s)) as [Hl Hr].
  rewrite <- chars_strip in Hl, Hr. by apply strip_fixed.
Qed.

Lemma dedupe_loop_spec urls seen out :
  (forall x, x ∈ seen <-> x ∈ out) -> NoDup out ->
  exists new,
    dedupe_loop urls seen out = out ++ new
    /\ NoDup (out ++ new)
    /\ sublist new (map clean_url urls)
    /\ (forall u, u ∈ new <->
          (u ∉ out) /\ u <> "" /\ exists x, x ∈ urls /\ clean_url x = u).
Proof.
  revert seen out. induction urls as [|x urls IH]; intros seen out Hseen Hnd.
  - exists []. rewrite app_nil_r. split; [done|]. split; [done|].
    split; [done|]. intros u. split; [intros H; by apply elem_of_nil in H|].
    intros (_ & _ & y & Hy & _). by apply elem_of_nil in Hy.
  - cbn [dedupe_loop]. cbv zeta.
    destruct (String.eqb_spec (clean_url x) "") as [Hempty|Hne].
    { destruct (IH seen out Hseen Hnd) as (new & -> & Hnd' & Hsub & Hel).
      exists new. split; [done|]. split; [done|].
      split; [cbn [map]; by apply sublist_cons|].
      intros u. rewrite Hel. split.
      - intros (H1 & H2 & y & Hy & Hc). split; [done|]. split; [done|].
        exists y. split; [by right|done].
      - intros (H1 & H2 & y & Hy & Hc). split; [done|]. split; [done|].
        apply elem_of_cons in Hy as [->|Hy]; [congruence|]. eauto. }
    destruct (decide (clean_url x ∈ seen)) as [Hin|Hnin].
    { destruct (IH seen out Hseen Hnd) as (new & -> & Hnd' & Hsub & Hel).
      exists new. split; [done|]. split; [done|].
      split; [cbn [map]; by apply sublist_cons|].
      intros u. rewrite Hel. split.
      - intros (H1 & H2 & y & Hy & Hc). split; [done|]. split; [done|].
        exists y. split; [by right|done].
      - intros (H1 & H2 & y & Hy & Hc). split; [done|]. split; [done|].
        apply elem_of_cons in Hy as [->|Hy]; [|eauto].
        subst u. by apply Hseen in Hin. }
    assert (Hout : clean_url x ∉ out) by (by rewrite <- Hseen).
    destruct (IH ({[clean_url x]} ∪ seen) (out ++ [clean_url x]))
      as (new & -> & Hnd' & Hsub & Hel).
    { intros y. rewrite elem_of_union, elem_of_singleton, elem_of_app,
        list_elem_of_singleton, Hseen. tauto. }
    { apply NoDup_app. split; [done|]. split; [|apply NoDup_singleton].
      intros y Hy Hy'. apply list_elem_of_singleton in Hy'. by subst y. }
    exists (clean_url x :: new). rewrite <- app_assoc in *. cbn [app] in *.
    split; [done|]. split; [done|].
    split; [cbn [map]; by apply sublist_skip|].
    intros u. rewrite elem_of_cons, Hel. split.
    + intros [->|(H1 & H2 & y & Hy & Hc)].
      * split; [done|]. split; [done|]. exists x. split; [by left|done].
      * split; [intros H; apply H1; apply elem_of_app; by left|].
        split; [done|]. exists y. split; [by right|done].
    + intros (H1 & H2 & y & Hy & Hc).
      destruct (decide (u = clean_url x)) as [->|Hu]; [by left|]. right.
      split.
      { rewrite elem_of_app, list_elem_of_singleton. tauto. }
      split; [done|].
      apply elem_of_cons in Hy as [->|Hy]; [congruence|]. eauto.
Qed.

Lemma dedupe_loop_fixed l seen out :
  (forall x, x ∈ seen <-> x ∈ out) ->
  NoDup (out ++ l) ->
  Forall (fun u => u <> "" /\ strip u = u) l ->
  dedupe_loop (map Some l) seen out = out ++ l.
Proof.
  revert seen out. induction l as [|u l IH]; intros seen out Hseen Hnd Hall.
  - by rewrite app_nil_r.
  - apply Forall_cons in Hall as [[Hne Hstrip] Hall].
    assert (Hclean : clean_url (Some u) = u) by exact Hstrip.
    cbn [map dedupe_loop]. cbv zeta. rewrite Hclean.
    destruct (String.eqb_spec u ""); [done|].
    apply NoDup_app in Hnd as (Hnd1 & Hdisj & Hnd2).
    destruct (decide (u ∈ seen)) as [Hin|Hnin].
    { exfalso. apply (Hdisj u); [by apply Hseen|by left]. }
    rewrite IH; [by rewrite <- app_assoc| | |done].
    + intros y. rewrite elem_of_union, elem_of_singleton, elem_of_app,
        list_elem_of_singleton, Hseen. tauto.
    + rewrite <- app_assoc. cbn [app]. apply NoDup_app.
      split; [done|]. split; [exact Hdisj|exact Hnd2].
Qed.

(** One more entry at the end of the input of the loop of [_dedupe]. *)
Lemma dedupe_loop_snoc l x seen out :
  (forall y, y ∈ seen <-> y ∈ out) ->
  dedupe_loop (l ++ [x]) seen out
  = dedupe_loop l seen out
    ++ (if decide (clean_url x = "" \/ clean_url x ∈ dedupe_loop l seen out)
        then [] else [clean_url x]).
Proof.
  revert seen out. induction l as [|y l IH]; intros seen out Hseen.
  - cbn [app dedupe_loop]. cbv zeta.
    destruct (String.eqb_spec (clean_url x) "") as [Hempty|Hne].
    { rewrite decide_True by (by left). by rewrite app_nil_r. }
    destruct (decide (clean_url x ∈ seen)) as [Hin|Hnin].
    + rewrite decide_True by (right; by apply Hseen). by rewrite app_nil_r.
    + rewrite decide_False; [done|]. intros [?|Hin]; [done|].
      by apply Hseen in Hin.
  - cbn [app dedupe_loop]. cbv zeta.
    destruct (String.eqb_spec (clean_url y) "") as [Hempty|Hne];
      [by apply IH|].
    destruct (decide (clean_url y ∈ seen)) as [Hin|Hnin]; [by apply IH|].
    apply IH. intros z.
    rewrite elem_of_union, elem_of_singleton, elem_of_app,
      list_elem_of_singleton, Hseen. tauto.
Qed.

(** X12. [_dedupe] returns the cleaned (stripped, [None] read as empty)
    entries that are not empty, each once, in the order of their first
    occurrence: an entry added at the end of the input is appended to the
    result when it is not empty and not in the result yet, and changes
    nothing otherwise.  So the result has no duplicates, it is a
    subsequence of the cleaned input, an entry is in it exactly when it is
    a non-empty cleaned input entry, no entry has whitespace at its ends,
    [None] and an empty list give the empty list, and deduplicating the
    result again returns it unchanged. *)
Theorem dedupe_first_occurrences (urls : option (list (option string))) :
  let out := _dedupe urls in
  (forall l x,
     _dedupe (Some (l ++ [x]))
     = _dedupe (Some l)
       ++ (if decide (clean_url x = "" \/ clean_url x ∈ _dedupe (Some l))
           then [] else [clean_url x]))
  /\ (default [] urls = [] -> out = [])
  /\ NoDup out
  /\ sublist out (map clean_url (default [] urls))
  /\ (forall u, u ∈ out <->
        u <> "" /\ exists x, x ∈ default [] urls /\ clean_url x = u)
  /\ Forall (fun u => strip u = u) out
  /\ _dedupe (Some (map Some out)) = out.
Proof.
  cbv zeta. split.
  { intros l x. unfold _dedupe. cbn [default]. apply dedupe_loop_snoc.
    intros y. rewrite elem_of_empty. split; [done|].
    intros H. by apply elem_of_nil in H. }
  unfold _dedupe.
  destruct (dedupe_loop_spec (default [] urls) ∅ [])
    as (new & Hrun & Hnd & Hsub & Hel);
    [intros x; rewrite elem_of_empty; split; [done|];
     intros H; by apply elem_of_nil in H | constructor |].
  cbn [app] in Hrun, Hnd. rewrite Hrun.
  assert (Hmem : forall u, u ∈ new <->
            u <> "" /\ exists x, x ∈ default [] urls /\ clean_url x = u).
  { intros u. rewrite Hel. split; [tauto|]. intros H. split; [|done].
    intros Hn. by apply elem_of_nil in Hn. }
  assert (Hstrip : Forall (fun u => strip u = u) new).
  { apply Forall_forall. intros u Hu. apply Hmem in Hu as (_ & x & _ & <-).
    unfold clean_url. apply strip_idempotent. }
  split.
  { intros Hnil. rewrite Hnil in Hsub. by apply sublist_nil_r in Hsub. }
  split; [done|]. split; [done|]. split; [done|]. split; [done|].
  cbn [default]. rewrite (dedupe_loop_fixed new ∅ []); [done| |done|].
  - intros x. rewrite elem_of_empty. split; [done|].
    intros H. by apply elem_of_nil in H.
  - apply Forall_forall. intros u Hu. split.
    + by apply Hmem in Hu as [? _].
    + rewrite Forall_forall in Hstrip. by apply Hstrip.
Qed.

End Dedupe.

(** ** Intent identification after retrieval *)

Section IntentNodes.
Variable w : world.
Implicit Types (s : gmap string value) (log : list event).







End IntentNodes.


(** ** The ticket log *)

Section Ticket.
Variable w : world.
Implicit Types (s : gmap string value) (log : list event).

Lemma outcome_eq {A} (c : M A) st r st' (Q : res A -> pstate -> Prop) :
  c st = (r, st') -> Q r st' -> outcome c st Q.
Proof. unfold outcome. by intros ->. Qed.

Lemma mapM_lift {A B} (f : A -> res B) l ys st :
  Forall2 (fun x y => f x = Ok y) l ys ->
  mapM (fun x => lift (f x)) l st = (Ok ys, st).
Proof.
  induction 1 as [|x y l ys Hx _ IH]; [done|].
  cbn [mapM]. unfold bind, lift at 1. rewrite Hx, IH. reflexivity.
Qed.

#[local] Hint Unfold ticket_data fill : py_blocks.

(** X14. [ticket_node] and the schema of the tickets table.  The function
    imports [uuid] inside its first [if], which makes [uuid] a local
    variable: when the table has a [ticket_number] column and no
    [ticket_id] column, building the ticket number reads the unbound local
    and the node raises before any INSERT and any audit row.  When the
    table has none of the ten columns the node knows (or does not exist),
    no INSERT is issued and the node returns with [ticket_logged = False], no
    evidence, and an audit row of confidence 0.4. *)
Theorem ticket_node_schema_dependence ids now s log email run_id info cols :
  s !! "email" = Some email ->
  s !! "run_id" = Some run_id ->
  sql_rows w "PRAGMA table_info(tickets)" [] = Ok info ->
  Forall2 (fun r c => subscript r "name" = Ok c) info cols ->
  (col_in "ticket_id" cols = false -> col_in "ticket_number" cols = true ->
   call (ticket_node ids now) w s log
   = (Raise (UnboundLocalError "uuid"), log))
  /\ (Forall (fun k => col_in k cols = false) ticket_columns ->
      call (ticket_node ids now) w s log
      = (Ok (Some (_merged s
           (mkdict [("ticket_logged", VBool false);
                    ("ticket_evidence", VList [])]))),
         log ++ [mkEvent run_id "ticket_log"
                   (VDict [("route", state_get s "route" (VStr "other"))])
                   (VDict [("ticket_logged", VBool false)])
                   (dec 4 10) []])).
Proof.
  intros He Hr Hinfo Hcols.
  apply state_item_lookup in He, Hr.
  split.
  - intros Hid Hnum. apply call_outcome_eq. unfold ticket_node.
    wp. cbv zeta. wp.
    eapply outcome_eq; [by apply mapM_lift|]. wp. reflexivity.
  - intros Hnone. unfold ticket_columns in Hnone.
    repeat match goal with
           | H : Forall _ (_ :: _) |- _ =>
               apply Forall_cons in H as [? H]
           end.
    apply call_outcome_eq. unfold ticket_node.
    wp. cbv zeta. wp.
    eapply outcome_eq; [by apply mapM_lift|]. wp. reflexivity.
Qed.

End Ticket.

Lemma ticket_node_schema_dependence_witness :
  let w := mkWorld
             (fun sql _ =>
                if String.eqb sql "PRAGMA table_info(tickets)"
                then Ok [VRow [("cid", VInt 0); ("name", VStr "ticket_number")];
                         VRow [("cid", VInt 1); ("name", VStr "status")]]
                else Raise StoreError)
             None 0 (fun _ => None) (fun _ => None) (fun _ => "") ""
             (fun _ => Raise StoreError) in
  call (ticket_node ("6f1c2a9e-0000-4000-8000-000000000001",
                     "9a8b7c6d-0000-4000-8000-000000000002")
                    ("2026-11-03T10:00:00", "2026-11-03T10:00:00")) w
    (initial_state "run-1" "ann@example.com" "Refund"
       "Please refund my order" true []) []
  = (Raise (UnboundLocalError "uuid"), []).
Proof.
  intros w.
  destruct (ticket_node_schema_dependence w
              ("6f1c2a9e-0000-4000-8000-000000000001",
               "9a8b7c6d-0000-4000-8000-000000000002")
              ("2026-11-03T10:00:00", "2026-11-03T10:00:00")
              (initial_state "run-1" "ann@example.com" "Refund"
                 "Please refund my order" true []) []
              (VDict [("sender_email", VStr "ann@example.com");
                      ("subject", VStr "Refund");
                      ("body", VStr "Please refund my order")])
              (VStr "run-1")
              [VRow [("cid", VInt 0); ("name", VStr "ticket_number")];
               VRow [("cid", VInt 1); ("name", VStr "status")]]
              [VStr "ticket_number"; VStr "status"]) as [Hraise _].
  - by rewrite initial_state_lookup.
  - by rewrite initial_state_lookup.
  - reflexivity.
  - repeat constructor.
  - apply Hraise; reflexivity.
Defined.

(** ** Whole runs of the top-level graph *)

Section WholeRuns.
Variable w : world.
Implicit Types (s : gmap string value) (log : list event).


Lemma top_branch_of_route cat :
  branch_target w top_path_map (VStr (route_of cat))
  = Ok match route_of cat with
       | "sales" => "sales"
       | "support" => "support"
       | _ => "unknown"
       end.
Proof.
  by destruct (route_of_cases cat) as [ [-> _] | [ (-> & _ & _) | -> ] ].
Qed.


(** The unknown branch and the shared tail on a state with an email and a
    run id. *)
Lemma unknown_tail_run s log run_id email subject body :
  s !! "run_id" = Some run_id ->
  s !! "email" = Some email ->
  well_formed_email email subject body ->
  exists sf ev1 ev2 ev3,
    run_chain unknown_tail w s log = (Ok sf, log ++ [ev1; ev2; ev3])
    /\ map ev_step [ev1; ev2; ev3] = ["other"; "finalize"; "present"]
    /\ sf = _merged
              (_merged s
                 (mkdict [("intent", VStr "Other");
                          ("summary", VStr "Email does not match sales/support. Logged for manual triage.");
                          ("drafted_email", VNone);
                          ("recommendations", VList []);
                          ("offers", VList []);
                          ("other_confidence", VFloat (dec 55 100))]))
              (mkdict
                 [("avg_confidence",
                   VFloat (average (confidence_values
                     (_merged s
                        (mkdict [("other_confidence",
                                  VFloat (dec 55 100))])))))]).
Proof.
  intros Hr He (ed & -> & Hsub & Hbody).
  assert (H1 : call other_node w s log
    = (Ok (Some (_merged s
         (mkdict [("intent", VStr "Other");
                  ("summary", VStr "Email does not match sales/support. Logged for manual triage.");
                  ("drafted_email", VNone);
                  ("recommendations", VList []);
                  ("offers", VList []);
                  ("other_confidence", VFloat (dec 55 100))]))),
       log ++ [mkEvent run_id "other" (VDict [("subject", VStr subject)])
                 (VDict [("intent", VStr "Other")]) (dec 55 100)
                 ["default bucket"]])).
  { unfold call, other_node, bind, state_item, lift, subscript.
    rewrite He, Hr, Hsub. reflexivity. }
  set (s1 := _merged s (mkdict _)) in H1.
  assert (Hr1 : s1 !! "run_id" = Some run_id)
    by (unfold s1; rewrite merged_mkdict_lookup; exact Hr).
  assert (Hconf : confidence_values s1
                  = confidence_values
                      (_merged s (mkdict [("other_confidence",
                                           VFloat (dec 55 100))]))).
  { unfold confidence_values, confidence_fields, state_get, s1. cbn [map].
    by rewrite !merged_mkdict_lookup. }
  assert (H2 : call finalize_node w s1
                 (log ++ [mkEvent run_id "other"
                            (VDict [("subject", VStr subject)])
                            (VDict [("intent", VStr "Other")]) (dec 55 100)
                            ["default bucket"]])
    = (Ok (Some (_merged s1
         (mkdict [("avg_confidence",
                   VFloat (average (confidence_values s1)))]))),
       (log ++ [mkEvent run_id "other" (VDict [("subject", VStr subject)])
                  (VDict [("intent", VStr "Other")]) (dec 55 100)
                  ["default bucket"]])
       ++ [mkEvent run_id "finalize"
             (VDict [("route", state_get s1 "route" VNone)])
             (VDict [("avg_confidence",
                      VFloat (average (confidence_values s1)))])
             (dec 9 10) ["consolidated outputs"]])).
  { unfold call, finalize_node, bind, state_item. rewrite Hr1. reflexivity. }
  set (s2 := _merged s1 (mkdict _)) in H2.
  assert (Hr2 : s2 !! "run_id" = Some run_id)
    by (unfold s2; rewrite merged_mkdict_lookup; exact Hr1).
  exists s2. eexists _, _, _. split.
  { unfold unknown_tail, unknown_node. cbn [run_chain]. unfold run_node.
    rewrite H1. cbv iota beta. rewrite H2. cbv iota beta.
    unfold call, present_node, bind, state_item. rewrite Hr2. cbn.
    rewrite <- !app_assoc. reflexivity. }
  split; [reflexivity|]. unfold s2. by rewrite Hconf.
Qed.

(** X16. Without a chat model every run of the top-level graph on the state
    the request handler builds takes the unknown branch, and the chain
    unknown, finalize, present that follows it ends normally: the run has
    written five audit rows under the step names
    support_intent, route, other, finalize, present.  The final state has
    route "other", the intent "Other" (the intent found by the keyword
    cascade is overwritten), the manual-triage summary, no drafted email,
    no recommendations and no offers; [avg_confidence] is the mean of the
    route confidence 0.6, the cascade's confidence and 0.55, so it lies
    between 0.55 and 0.78. *)
Theorem offline_run_ends_in_manual_triage
    run_id sender subject body ok flags log :
  chat_model w = None ->
  exists s1 l1 sf evs avg,
    top_dispatch w (initial_state run_id sender subject body ok flags) log
    = (Ok ("unknown", s1), l1)
    /\ run_chain unknown_tail w s1 l1 = (Ok sf, log ++ evs)
    /\ map ev_step evs
       = ["support_intent"; "route"; "other"; "finalize"; "present"]
    /\ sf !! "route" = Some (VStr "other")
    /\ sf !! "intent" = Some (VStr "Other")
    /\ sf !! "summary"
       = Some (VStr "Email does not match sales/support. Logged for manual triage.")
    /\ sf !! "drafted_email" = Some VNone
    /\ sf !! "recommendations" = Some (VList [])
    /\ sf !! "offers" = Some (VList [])
    /\ sf !! "category" = None
    /\ sf !! "avg_confidence" = Some (VFloat avg)
    /\ avg = average [dec 6 10;
                      (support_heuristic (heuristic_text subject body)).1.2;
                      dec 55 100]
    /\ (dec 55 100 <= avg)%Qc /\ (avg <= dec 78 100)%Qc.
Proof.
  intros Hm.
  set (s0 := initial_state run_id sender subject body ok flags).
  assert (He : s0 !! "email" = Some (VDict
            [("sender_email", VStr sender); ("subject", VStr subject);
             ("body", VStr body)]))
    by (unfold s0; by rewrite initial_state_lookup).
  assert (Hr : s0 !! "run_id" = Some (VStr run_id))
    by (unfold s0; by rewrite initial_state_lookup).
  assert (Hc : s0 !! "category" = None)
    by (unfold s0; by rewrite initial_state_lookup).
  pose proof (initial_email_well_formed sender subject body) as Hw.
  unfold top_dispatch, run_node.
  rewrite (classify_node_fallback w s0 log _ _ _ _ Hm He Hw Hr).
  assert (Hconf : In (support_heuristic (heuristic_text subject body)).1.2
                    [dec 78 100; dec 76 100; dec 68 100; dec 70 100;
                     dec 55 100]).
  { unfold support_heuristic.
    repeat (destruct (any_in _ _); [cbn; tauto|]). cbn. tauto. }
  destruct (support_heuristic (heuristic_text subject body))
    as [[intent conf] rationale].
  cbn [fst snd] in Hconf |- *.
  set (s1 := _merged s0 (mkdict [("intent", VStr intent);
                                 ("intent_confidence", VFloat conf);
                                 ("intent_rationale", VStr rationale)])).
  assert (Hr1 : s1 !! "run_id" = Some (VStr run_id))
    by (unfold s1; rewrite merged_mkdict_lookup; exact Hr).
  assert (Hcat : state_get s1 "category" (VStr "Other") = VStr "Other")
    by (unfold state_get, s1; rewrite merged_mkdict_lookup; cbn;
        by rewrite Hc).
  unfold dispatch, run_node.
  rewrite (route_node_run w s1 _ (VStr run_id) Hr1).
  cbv zeta. unfold top_after_route. rewrite Hcat.
  change (route_of (VStr "Other")) with "other".
  cbn [existsb String.eqb Ascii.eqb Bool.eqb orb].
  set (s2 := _merged s1 (mkdict [("route", VStr "other");
                                 ("route_confidence", VFloat (dec 6 10))])).
  assert (Hroute : state_get s2 "route" (VStr "unknown") = VStr "other")
    by (unfold state_get, s2; by rewrite merged_mkdict_lookup).
  rewrite Hroute.
  change (branch_target w top_path_map (VStr "other")) with
    (branch_target w top_path_map (VStr (route_of (VStr "Other")))).
  rewrite top_branch_of_route.
  change (route_of (VStr "Other")) with "other". cbv iota beta.
  match goal with
  | |- context [(Ok ("unknown", s2), ?l)] =>
      destruct (unknown_tail_run s2 l (VStr run_id)
                  (VDict [("sender_email", VStr sender);
                          ("subject", VStr subject); ("body", VStr body)])
                  subject body)
        as (sf & ev1 & ev2 & ev3 & Hchain & Hsteps & Hsf);
        [ unfold s2; rewrite merged_mkdict_lookup; exact Hr1
        | unfold s2, s1; rewrite !merged_mkdict_lookup; exact He
        | exact Hw | ]
  end.
  assert (Hvals : forall x,
            confidence_values
              (_merged s2 (mkdict [("other_confidence", VFloat x)]))
            = [dec 6 10; conf; x]).
  { intros x. unfold confidence_values, confidence_fields, state_get.
    cbn [map]. unfold s2, s1. rewrite !merged_mkdict_lookup.
    cbn [rev app alookup String.eqb Ascii.eqb Bool.eqb].
    unfold s0. rewrite !initial_state_lookup. reflexivity. }
  rewrite Hvals in Hsf.
  eexists _, _. exists sf. eexists.
  exists (average [dec 6 10; conf; dec 55 100]).
  split; [reflexivity|].
  split; [rewrite Hchain, <- !app_assoc; reflexivity|].
  split.
  { cbn [map app] in Hsteps |- *. injection Hsteps as -> -> ->.
    reflexivity. }
  subst sf. unfold s2, s1.
  repeat (split; [rewrite !merged_mkdict_lookup;
                  cbn [rev app alookup String.eqb Ascii.eqb Bool.eqb];
                  first [reflexivity | exact Hc]|]).
  split; [reflexivity|].
  apply average_bounds; [discriminate|].
  intros v Hv. apply list_elem_of_In in Hv.
  cbn [In] in Hv, Hconf.
  destruct Hv as [<-|[<-|[<-|[]]]];
    [split; vm_compute; discriminate| |split; vm_compute; discriminate].
  destruct Hconf as [<-|[<-|[<-|[<-|[<-|[]]]]]];
    split; vm_compute; discriminate.
Qed.

End WholeRuns.


Lemma offline_run_ends_in_manual_triage_witness :
  exists s1 l1 sf evs,
    top_dispatch offline_world
      (initial_state "run-1" "ann@example.com" "Refund"
         "Please refund my order" true []) []
    = (Ok ("unknown", s1), l1)
    /\ run_chain unknown_tail offline_world s1 l1 = (Ok sf, evs)
    /\ length evs = 5%nat
    /\ sf !! "intent" = Some (VStr "Other").
Proof.
  destruct (offline_run_ends_in_manual_triage offline_world
              "run-1" "ann@example.com" "Refund" "Please refund my order"
              true [] [] eq_refl)
    as (s1 & l1 & sf & evs & avg & Htop & Hrun & Hsteps & _ & Hintent & _).
  exists s1, l1, sf, evs. split; [exact Htop|]. split; [exact Hrun|].
  split; [|exact Hintent].
  apply (f_equal length) in Hsteps. by rewrite length_map in Hsteps.
Defined.

(** ** The guardrail verdict and the run *)

Section Guarded.
Variable w : world.
Implicit Types (s : gmap string value) (log : list event).

(** What the wired classifier merges and logs with a chat model depends on
    the email only. *)
Lemma classify_node_verdict model email subject body :
  chat_model w = Some model ->
  well_formed_email email subject body ->
  exists intent conf rationale,
    forall s log run_id,
      s !! "email" = Some email ->
      s !! "run_id" = Some run_id ->
      call classify_node w s log =
        (Ok (Some (_merged s
           (mkdict [("category", VStr (category_of intent));
                    ("intent", intent);
                    ("intent_confidence", VFloat conf);
                    ("category_confidence", VFloat conf);
                    ("intent_rationale", VStr rationale)]))),
         log ++ [mkEvent run_id "support_intent" (VDict [("email", email)])
                   (VDict [("intent", intent); ("rationale", VStr rationale)])
                   conf ["LLM + KB"]]).
Proof.
  intros Hm Hw.
  assert (Hstart : forall s log,
    s !! "email" = Some email ->
    call classify_node w s log
    = let (r, st) :=
        (parsed <-
           try_except
             (data <- match model "intent" email with
                      | Some d => ret d
                      | None => raise ValueError
                      end ;;
              intent <- dict_get data "intent" (VStr "General") ;;
              let intent :=
                if negb (in_strs intent
                           (support_intent_list ++ sales_intent_list))
                then VStr "General" else intent in
              c <- dict_get data "confidence" (VFloat (dec 6 10)) ;;
              conf <- py_float w c ;;
              r <- dict_get data "rationale" (VStr "") ;;
              ret (intent, conf, py_str w r))
             (fun _ =>
                ret (VStr "General", dec 55 100,
                     "Could not parse model output; defaulted.")) ;;
         let '(intent, conf, rationale) := parsed in
         run_id <- state_item s "run_id" ;;
         log_step run_id "support_intent" (VDict [("email", email)])
           (VDict [("intent", intent); ("rationale", VStr rationale)])
           conf ["LLM + KB"] ;;;
         ret (Some (_merged s
           (mkdict [("category", VStr (category_of intent));
                    ("intent", intent);
                    ("intent_confidence", VFloat conf);
                    ("category_confidence", VFloat conf);
                    ("intent_rationale", VStr rationale)]))))%py
        (mkPstate [] log) in (r, audit st)).
  { intros s log He. unfold call, classify_node, bind at 1, state_item.
    rewrite He. cbn. rewrite Hm. unfold bind at 1.
    rewrite (prompt_reads_ok _ _ _ _ Hw). reflexivity. }
  assert (Hdefault :
    forall s log run_id,
      s !! "run_id" = Some run_id ->
      (let (r, st) :=
         (run_id0 <- state_item s "run_id" ;;
          log_step run_id0 "support_intent" (VDict [("email", email)])
            (VDict [("intent", VStr "General");
                    ("rationale",
                     VStr "Could not parse model output; defaulted.")])
            (dec 55 100) ["LLM + KB"] ;;;
          ret (Some (_merged s
            (mkdict [("category", VStr (category_of (VStr "General")));
                     ("intent", VStr "General");
                     ("intent_confidence", VFloat (dec 55 100));
                     ("category_confidence", VFloat (dec 55 100));
                     ("intent_rationale",
                      VStr "Could not parse model output; defaulted.")]))))%py
           (mkPstate [] log) in (r, audit st))
      = (Ok (Some (_merged s
           (mkdict [("category", VStr (category_of (VStr "General")));
                    ("intent", VStr "General");
                    ("intent_confidence", VFloat (dec 55 100));
                    ("category_confidence", VFloat (dec 55 100));
                    ("intent_rationale",
                     VStr "Could not parse model output; defaulted.")]))),
         log ++ [mkEvent run_id "support_intent"
                   (VDict [("email", email)])
                   (VDict [("intent", VStr "General");
                           ("rationale",
                            VStr "Could not parse model output; defaulted.")])
                   (dec 55 100) ["LLM + KB"]])).
  { intros s log run_id Hr. unfold bind, state_item. rewrite Hr.
    reflexivity. }
  destruct (model "intent" email) as [data|] eqn:Hreply.
  2: { exists (VStr "General"), (dec 55 100). eexists.
       intros s log run_id He Hr. rewrite (Hstart s log He).
       unfold bind at 1, try_except. cbn.
       apply (Hdefault s log run_id Hr). }
  destruct data as [| | | | | | |d|].
  1-7, 9: (exists (VStr "General"), (dec 55 100); eexists;
           intros s' log' rid He Hr; rewrite (Hstart s' log' He);
           unfold bind at 1, try_except; cbn;
           apply (Hdefault s' log' rid Hr)).
  set (i := match alookup "intent" d with
            | Some v => v | None => VStr "General" end).
  set (c := match alookup "confidence" d with
            | Some v => v | None => VFloat (dec 6 10) end).
  set (r := match alookup "rationale" d with
            | Some v => v | None => VStr "" end).
  destruct (py_float w c) as [q|e] eqn:Hq.
  - exists (if negb (in_strs i (support_intent_list ++ sales_intent_list))
            then VStr "General" else i), q, (py_str w r).
    intros s log run_id He Hr. rewrite (Hstart s log He).
    unfold bind at 1, try_except. cbn. fold i c r.
    unfold bind at 1, lift at 1. rewrite Hq. cbn.
    unfold bind, state_item. rewrite Hr. reflexivity.
  - exists (VStr "General"), (dec 55 100). eexists.
    intros s log run_id He Hr. rewrite (Hstart s log He).
    unfold bind at 1, try_except. cbn. fold i c r.
    unfold bind at 1, lift at 1. rewrite Hq. cbn.
    apply (Hdefault s log run_id Hr).
Qed.

(** X17. The guardrail verdict is stored and never enforced: on the states
    the request handler builds for one email, the branch the top-level
    graph takes, the fields the classifier and the router write and the two
    audit rows are the same whatever the verdict [ok] and the flags are; an
    email flagged as a possible prompt injection is classified (by the chat
    model, when there is one) and routed as if it were not, and the
    [guardrails] entry of the state is left as the handler stored it. *)
Theorem guardrail_verdict_is_not_enforced run_id sender subject body log :
  exists target u ev1 ev2,
    u !! "guardrails" = None
    /\ forall ok flags,
         top_dispatch w (initial_state run_id sender subject body ok flags)
           log
         = (Ok (target,
                _merged (initial_state run_id sender subject body ok flags)
                  u),
            log ++ [ev1; ev2]).
Proof.
  set (email := VDict [("sender_email", VStr sender);
                       ("subject", VStr subject); ("body", VStr body)]).
  pose proof (initial_email_well_formed sender subject body) as Hw.
  assert (Hlook : forall ok flags,
    initial_state run_id sender subject body ok flags !! "email" = Some email
    /\ initial_state run_id sender subject body ok flags !! "run_id"
       = Some (VStr run_id)
    /\ initial_state run_id sender subject body ok flags !! "category"
       = None)
    by (intros; by rewrite !initial_state_lookup).
  assert (Hassoc : forall s a b,
    _merged (_merged s (mkdict a)) (mkdict b)
    = _merged s (mkdict b ∪ mkdict a))
    by (intros; unfold _merged; by rewrite (assoc_L (∪))).
  destruct (chat_model w) as [model|] eqn:Hm.
  - destruct (classify_node_verdict model email subject body Hm Hw)
      as (intent & conf & rationale & Hc).
    eexists _, _, _, _. split; [|intros ok flags].
    2: { destruct (Hlook ok flags) as (He & Hr & _).
         unfold top_dispatch, run_node. rewrite (Hc _ log _ He Hr).
         unfold dispatch, run_node.
         match goal with
         | |- context [call route_node w ?s ?l] =>
             rewrite (route_node_run w s l (VStr run_id))
               by (rewrite merged_mkdict_lookup; cbn; exact Hr)
         end.
         cbv zeta. unfold top_after_route, state_get.
         rewrite !merged_mkdict_lookup.
         cbn [rev app alookup String.eqb Ascii.eqb Bool.eqb].
         rewrite top_branch_of_route, Hassoc, <- app_assoc. reflexivity. }
    rewrite lookup_union, !mkdict_lookup. reflexivity.
  - destruct (support_heuristic (heuristic_text subject body))
      as [[intent conf] rationale] eqn:Hh.
    eexists _, _, _, _. split; [|intros ok flags].
    2: { destruct (Hlook ok flags) as (He & Hr & Hcat).
         unfold top_dispatch, run_node.
         rewrite (classify_node_fallback w _ log _ _ _ _ Hm He Hw Hr), Hh.
         unfold dispatch, run_node.
         match goal with
         | |- context [call route_node w ?s ?l] =>
             rewrite (route_node_run w s l (VStr run_id))
               by (rewrite merged_mkdict_lookup; cbn; exact Hr)
         end.
         cbv zeta. unfold top_after_route, state_get.
         rewrite !merged_mkdict_lookup.
         cbn [rev app alookup String.eqb Ascii.eqb Bool.eqb]. rewrite Hcat.
         rewrite top_branch_of_route, Hassoc, <- app_assoc. reflexivity. }
    rewrite lookup_union, !mkdict_lookup. reflexivity.
Qed.

End Guarded.
